(** * RFB (VNC) client: the standalone screenshot tool and the control connection

    A shallow embedding of [packages/tools/src/vnc-screenshot.py] and
    [packages/tools/vnc-control.py], and the properties of the session
    protocol engine stated over it.

    Conventions of the embedding.
    - A byte is [Byte.byte]; [bytes] and [bytearray] values are [list byte].
    - Python integers are unbounded: sizes, offsets and the unsigned fields of
      the wire format are [nat], the signed encoding field is [Z], keysyms
      are [N].
    - A Python [str] is a [string]; one [ascii] stands for one code point
      below 256 (the Latin-1 range of Unicode).  The key derivation is also
      given on a [str] in full, the list of its code points, where encoding
      can fail.
    - The socket is explicit state: the segments still to be delivered by the
      server and the bytes written so far.  An exhausted input is a closed
      connection ([recv] returns [b'']); time-outs and [time.sleep] are not
      modelled, and [send] always writes the whole message.
    - Exceptions are values of [error]; code that can raise runs in the
      state-and-error monad [M].
    - The DES block cipher comes from pycryptodome and is a parameter
      [des_block] of the programs; a missing library (ImportError) is not
      modelled.
    - Loops that Python writes with [while] run on fuel; the properties show
      that the fuel given never runs out.
    - Diagnostic output on stderr and the PNG/base64 output are left out. *)

From Stdlib Require Import Strings.Byte Strings.Ascii.
From stdpp Require Import base list gmap strings.

Abbreviation bytes := (list byte).

(** ** Python primitives *)

(** [l[a:b]] for [0 <= a], [0 <= b]: both ends are clamped to [len(l)]. *)
Definition slice {A} (l : list A) (a b : nat) : list A :=
  take (b - a) (drop a l).

(** [l[a:b] = v] on a [bytearray]: the (clamped) slice is replaced by [v],
    whatever the length of [v]; a start beyond the end appends. *)
Definition slice_assign {A} (l : list A) (a b : nat) (v : list A) : list A :=
  take a l ++ v ++ drop (a `max` b) l.

(** [bytearray(n)]: [n] zero bytes. *)
Definition bytearray (n : nat) : bytes := replicate n x00.

(** [int.from_bytes(bs, 'big')], the value [struct.unpack] gives to an
    unsigned big-endian field. *)
Definition from_bytes_big (bs : bytes) : nat :=
  foldl (λ acc b, acc * 256 + Byte.to_nat b) 0 bs.

(** The raised exceptions.  The programs raise plain [Exception]s and
    [ValueError]s told apart by their message; [struct.error] and the
    cipher's [ValueError] come from the libraries. *)
Inductive text := Utf8Replace (raw : bytes).
(* [raw.decode('utf-8', errors='replace')], kept as the bytes it decodes *)

Inductive error :=
  | ConnectionClosed                       (* "Connection closed" *)
  | VncError (err_msg : text)              (* "VNC error: {err_msg}" *)
  | AuthenticationFailed (auth_result : nat) (* "VNC authentication failed" *)
  | NoSupportedSecurity (offered : list nat) (* "No supported security type" *)
  | UnknownKey (key_name : string)         (* ValueError "Unknown key: .." *)
  | UnknownKeyInCombo (part : string)      (* ValueError "Unknown key in combo: .." *)
  | StructError                            (* struct.error *)
  | UnicodeEncodeError                     (* of str.encode *)
  | CipherValueError                       (* ValueError of DES.new / encrypt *)
  | OutOfFuel.                             (* a loop bound of the model ran out *)

Inductive result (A : Type) :=
  | Ok (a : A)
  | Raise (e : error).
Arguments Ok {A} a.
Arguments Raise {A} e.

(** [struct.unpack] with the formats the programs use; a buffer of the wrong
    size raises [struct.error]. *)
Definition unpack_B (bs : bytes) : result nat :=
  match bs with
  | [b] => Ok (Byte.to_nat b)
  | _ => Raise StructError
  end.

Definition unpack_H (bs : bytes) : result nat :=
  match bs with
  | [_; _] => Ok (from_bytes_big bs)
  | _ => Raise StructError
  end.

Definition unpack_I (bs : bytes) : result nat :=
  match bs with
  | [_; _; _; _] => Ok (from_bytes_big bs)
  | _ => Raise StructError
  end.

Definition unpack_HH (bs : bytes) : result (nat * nat) :=
  match bs with
  | [a; b; c; d] => Ok (from_bytes_big [a; b], from_bytes_big [c; d])
  | _ => Raise StructError
  end.

Definition unpack_BBBB (bs : bytes) : result (nat * nat * nat * nat) :=
  match bs with
  | [a; b; c; d] => Ok (Byte.to_nat a, Byte.to_nat b, Byte.to_nat c, Byte.to_nat d)
  | _ => Raise StructError
  end.

Definition unpack_HHH (bs : bytes) : result (nat * nat * nat) :=
  match bs with
  | [a; b; c; d; e; f] =>
      Ok (from_bytes_big [a; b], from_bytes_big [c; d], from_bytes_big [e; f])
  | _ => Raise StructError
  end.

Definition unpack_BBB (bs : bytes) : result (nat * nat * nat) :=
  match bs with
  | [a; b; c] => Ok (Byte.to_nat a, Byte.to_nat b, Byte.to_nat c)
  | _ => Raise StructError
  end.

(** A signed 32-bit big-endian field ([i]): the unsigned value of the four
    bytes, read as two's complement. *)
Definition from_bytes_big_N (bs : bytes) : N :=
  foldl (λ acc b, acc * 256 + Byte.to_N b)%N 0%N bs.

Definition signed32 (u : N) : Z :=
  if (u <? 2 ^ 31)%N then Z.of_N u else (Z.of_N u - 2 ^ 32)%Z.

Record rect_header := RectHeader {
  rx : nat; ry : nat; rw : nat; rh : nat; encoding : Z
}.

Definition unpack_HHHHi (bs : bytes) : result rect_header :=
  match bs with
  | [x1; x2; y1; y2; w1; w2; h1; h2; e1; e2; e3; e4] =>
      Ok (RectHeader (from_bytes_big [x1; x2]) (from_bytes_big [y1; y2])
            (from_bytes_big [w1; w2]) (from_bytes_big [h1; h2])
            (signed32 (from_bytes_big_N [e1; e2; e3; e4])))
  | _ => Raise StructError
  end.

(** [struct.pack]: a value that does not fit its field raises
    [struct.error]. *)
Definition byte_of_nat (n : nat) : byte :=
  default x00 (Byte.of_nat n).

Definition to_bytes_H (n : nat) : bytes :=
  [byte_of_nat (n / 256); byte_of_nat (n `mod` 256)].

Definition to_bytes_I (k : N) : bytes :=
  [byte_of_nat (N.to_nat (k / 16777216));
   byte_of_nat (N.to_nat ((k / 65536) `mod` 256));
   byte_of_nat (N.to_nat ((k / 256) `mod` 256));
   byte_of_nat (N.to_nat (k `mod` 256))]%N.

Definition pack_I (k : N) : result bytes :=
  if decide (k < 4294967296)%N then Ok (to_bytes_I k) else Raise StructError.

(** [struct.pack('>BBHH', t, mask, x, y)] on Python integers: each value has
    to fit its unsigned field. *)
Definition pack_BBHH (t mask x y : Z) : result bytes :=
  if decide ((0 ≤ t < 256) ∧ (0 ≤ mask < 256) ∧ (0 ≤ x < 65536) ∧ (0 ≤ y < 65536))%Z
  then Ok ([byte_of_nat (Z.to_nat t); byte_of_nat (Z.to_nat mask)]
           ++ to_bytes_H (Z.to_nat x) ++ to_bytes_H (Z.to_nat y))
  else Raise StructError.

(** [l[i] = x] on a [bytearray], for [0 <= i]: [None] stands for the
    IndexError of an index beyond the end.  Reading [l[i]] is [l !! i]. *)
Definition setitem (l : bytes) (i : nat) (x : byte) : option bytes :=
  if decide (i < length l) then Some (<[i:=x]> l) else None.

(** ** The socket and the monad *)

Record socket := Socket {
  incoming : list bytes;   (* segments the server still delivers, in order *)
  sent : bytes             (* everything written with [send] so far *)
}.

Definition M (A : Type) : Type := socket → result A * socket.

Definition ret {A} (a : A) : M A := λ s, (Ok a, s).
Definition raise {A} (e : error) : M A := λ s, (Raise e, s).
Definition bind {A B} (m : M A) (k : A → M B) : M B :=
  λ s, match m s with
       | (Ok a, s') => k a s'
       | (Raise e, s') => (Raise e, s')
       end.
Definition lift {A} (r : result A) : M A := λ s, (r, s).

Notation "x <- m ;; k" := (bind m (λ x, k))
  (at level 100, m at next level, right associativity).
Notation "m ;;; k" := (bind m (λ _, k))
  (at level 100, right associativity).

(** [sock.recv(n)]: at most [n] bytes of the next segment; [b''] once the
    server has closed. *)
Fixpoint recv_segments (n : nat) (segs : list bytes) : bytes * list bytes :=
  match segs with
  | [] => ([], [])
  | [] :: rest => recv_segments n rest
  | c :: rest =>
      (take n c, if decide (n < length c) then drop n c :: rest else rest)
  end.

Definition sock_recv (n : nat) : M bytes :=
  λ s, let '(data, segs) := recv_segments n (incoming s) in
       (Ok data, Socket segs (sent s)).

Definition sock_send (msg : bytes) : M unit :=
  λ s, (Ok tt, Socket (incoming s) (sent s ++ msg)).

(** The bytes the server has yet to deliver, as one sequence. *)
Definition pending (s : socket) : bytes := concat (incoming s).

(** ** Strings *)

(** [ord(c)] of a one-character string. *)
Definition ord (c : ascii) : N := N_of_ascii c.

(** [c.lower()] on the code points below 256: the ASCII capitals and the
    Latin-1 capitals U+00C0..U+00DE (but not the sign U+00D7) move up by 32. *)
Definition chr_lower (c : ascii) : ascii :=
  let n := nat_of_ascii c in
  if bool_decide (65 ≤ n ≤ 90 ∨ 192 ≤ n ≤ 214 ∨ 216 ≤ n ≤ 222)
  then ascii_of_nat (n + 32) else c.

Fixpoint lower (s : string) : string :=
  match s with
  | EmptyString => EmptyString
  | String c s' => String (chr_lower c) (lower s')
  end.

(** [c.isspace()] on the code points below 256. *)
Definition isspace (c : ascii) : bool :=
  let n := nat_of_ascii c in
  bool_decide (9 ≤ n ≤ 13 ∨ 28 ≤ n ≤ 32 ∨ n = 133 ∨ n = 160).

Fixpoint lstrip (s : string) : string :=
  match s with
  | EmptyString => EmptyString
  | String c s' => if isspace c then lstrip s' else s
  end.

Fixpoint rstrip (s : string) : string :=
  match s with
  | EmptyString => EmptyString
  | String c s' =>
      match rstrip s' with
      | EmptyString => if isspace c then EmptyString else String c EmptyString
      | t => String c t
      end
  end.

(** [s.strip()] *)
Definition strip (s : string) : string := rstrip (lstrip s).

(** [s.split(sep)] for a one-character separator: never an empty list. *)
Fixpoint split (sep : ascii) (s : string) : list string :=
  match s with
  | EmptyString => [EmptyString]
  | String c s' =>
      if Ascii.eqb c sep then EmptyString :: split sep s'
      else match split sep s' with
           | part :: parts => String c part :: parts
           | [] => [String c EmptyString]
           end
  end.

(** [s.encode('utf-8')]: one byte below U+0080, two bytes from there to
    U+00FF. *)
Definition encode_utf8_chr (c : ascii) : bytes :=
  let n := nat_of_ascii c in
  if decide (n < 128) then [byte_of_nat n]
  else [byte_of_nat (192 + n / 64); byte_of_nat (128 + n `mod` 64)].

Fixpoint encode_utf8 (s : string) : bytes :=
  match s with
  | EmptyString => []
  | String c s' => encode_utf8_chr c ++ encode_utf8 s'
  end.

(** A Python [str] in full: its code points, each below 0x110000.  The
    surrogates U+D800..U+DFFF can stand on their own in it; a command-line
    argument that is not valid UTF-8 is decoded to such a string. *)
Definition is_surrogate (cp : N) : bool :=
  ((0xD800 <=? cp) && (cp <=? 0xDFFF))%N.

Definition byte_of_N (n : N) : byte := default x00 (Byte.of_N n).

(** [s.encode('utf-8')] on a string in full: one to four bytes for a code
    point, UnicodeEncodeError for a surrogate. *)
Definition str_encode_utf8_chr (cp : N) : result bytes :=
  (if cp <? 0x80 then Ok [byte_of_N cp]
   else if cp <? 0x800 then
     Ok [byte_of_N (0xC0 + cp / 64); byte_of_N (0x80 + cp `mod` 64)]
   else if is_surrogate cp then Raise UnicodeEncodeError
   else if cp <? 0x10000 then
     Ok [byte_of_N (0xE0 + cp / 4096); byte_of_N (0x80 + (cp / 64) `mod` 64);
         byte_of_N (0x80 + cp `mod` 64)]
   else
     Ok [byte_of_N (0xF0 + cp / 262144); byte_of_N (0x80 + (cp / 4096) `mod` 64);
         byte_of_N (0x80 + (cp / 64) `mod` 64); byte_of_N (0x80 + cp `mod` 64)])%N.

Fixpoint str_encode_utf8 (s : list N) : result bytes :=
  match s with
  | [] => Ok []
  | cp :: s' =>
      match str_encode_utf8_chr cp with
      | Ok b =>
          match str_encode_utf8 s' with
          | Ok bs => Ok (b ++ bs)
          | Raise e => Raise e
          end
      | Raise e => Raise e
      end
  end.

(** The code points of a string of the Latin-1 range. *)
Definition code_points (s : string) : list N :=
  ord <$> String.list_ascii_of_string s.

(** ['{:08b}'.format(b)] for a byte: its eight binary digits, most
    significant first ([true] is the digit 1). *)
Definition format_08b (b : byte) : list bool :=
  let '(b0, (b1, (b2, (b3, (b4, (b5, (b6, b7))))))) := Byte.to_bits b in
  [b7; b6; b5; b4; b3; b2; b1; b0].

(** [int(digits, 2)] *)
Definition int_base2 (digits : list bool) : nat :=
  foldl (λ acc (d : bool), 2 * acc + (if d then 1 else 0)) 0 digits.

(** ** Key symbols ([KEYSYM_MAP], vnc-control.py lines 36-58) *)

Definition KEYSYM_MAP : gmap string N :=
  list_to_map [
    ("return", 0xff0d); ("enter", 0xff0d);
    ("tab", 0xff09);
    ("escape", 0xff1b); ("esc", 0xff1b);
    ("backspace", 0xff08); ("delete", 0xffff);
    ("space", 0x0020);
    ("up", 0xff52); ("down", 0xff54); ("left", 0xff51); ("right", 0xff53);
    ("home", 0xff50); ("end", 0xff57);
    ("pageup", 0xff55); ("pagedown", 0xff56);
    ("f1", 0xffbe); ("f2", 0xffbf); ("f3", 0xffc0); ("f4", 0xffc1);
    ("f5", 0xffc2); ("f6", 0xffc3); ("f7", 0xffc4); ("f8", 0xffc5);
    ("f9", 0xffc6); ("f10", 0xffc7); ("f11", 0xffc8); ("f12", 0xffc9);
    ("shift", 0xffe1); ("shift_l", 0xffe1); ("shift_r", 0xffe2);
    ("ctrl", 0xffe3); ("control", 0xffe3); ("ctrl_l", 0xffe3); ("ctrl_r", 0xffe4);
    ("alt", 0xffe9); ("option", 0xffe9); ("alt_l", 0xffe9); ("alt_r", 0xffea);
    ("cmd", 0xffe7); ("command", 0xffe7); ("meta", 0xffe7); ("super", 0xffeb);
    ("super_l", 0xffeb); ("super_r", 0xffec);
    ("insert", 0xff63);
    ("capslock", 0xffe5);
    ("numlock", 0xff7f)
  ]%N.

(** ** The cipher (pycryptodome's [DES], an external library)

    [des_block key block] stands for the DES encryption of one 8-byte block
    under an 8-byte key.  [DES.new] refuses a key that is not 8 bytes long
    and ECB [encrypt] refuses data that is not a whole number of blocks. *)
Section Cipher.
Variable des_block : bytes → bytes → bytes.

Fixpoint ecb_blocks (n : nat) (key data : bytes) : bytes :=
  match n with
  | 0 => []
  | S n' => des_block key (take 8 data) ++ ecb_blocks n' key (drop 8 data)
  end.

Definition des_ecb_encrypt (key data : bytes) : result bytes :=
  if decide (length key = 8) then
    if decide (length data `mod` 8 = 0)
    then Ok (ecb_blocks (length data / 8) key data)
    else Raise CipherValueError
  else Raise CipherValueError.
End Cipher.

(** The message constants both programs write before a capture. *)
Definition RFB_VERSION : bytes :=
  ["R"; "F"; "B"; " "; "0"; "0"; "3"; "."; "0"; "0"; "8"; x0a]%byte.

(** [struct.pack('>Bxxx', 0) + struct.pack('>BBBBHHHBBBxxx', 32, 24, 0, 1,
    255, 255, 255, 16, 8, 0)] *)
Definition SET_PIXEL_FORMAT : bytes :=
  [x00; x00; x00; x00;
   x20; x18; x00; x01; x00; xff; x00; xff; x00; xff; x10; x08; x00;
   x00; x00; x00].

(** [struct.pack('>BxH', 2, 1) + struct.pack('>i', 0)] *)
Definition SET_ENCODINGS : bytes :=
  [x02; x00; x00; x01; x00; x00; x00; x00].

(** [struct.pack('>BBHHHH', 3, 0, 0, 0, width, height)] *)
Definition pack_update_request (width height : nat) : result bytes :=
  if decide (width < 256 * 256) then
    if decide (height < 256 * 256)
    then Ok ([x03; x00; x00; x00; x00; x00] ++ to_bytes_H width ++ to_bytes_H height)
    else Raise StructError
  else Raise StructError.

(** The largest request a single [recv] of [recv_exact] makes. *)
Definition RECV_MAX : nat := 256 * 256.

(** ** vnc-screenshot.py *)
Module VncScreenshot.
Section Program.
Variable des_block : bytes → bytes → bytes.

(** lines 28-44 *)
Definition reversed_key (key_bytes : bytes) : bytes :=
  (λ b, byte_of_nat (int_base2 (reverse (format_08b b)))) <$> key_bytes.

Definition vnc_des_encrypt (key_bytes challenge : bytes) : result bytes :=
  des_ecb_encrypt des_block (reversed_key key_bytes) challenge.

(** line 77: pad/truncate the password to 8 bytes *)
Definition password_key (password : string) : bytes :=
  slice (encode_utf8 password ++ replicate 8 x00) 0 8.

(** line 77 for a password in full: the encoding can raise *)
Definition password_key_str (password : list N) : result bytes :=
  match str_encode_utf8 password with
  | Ok encoded => Ok (slice (encoded ++ replicate 8 x00) 0 8)
  | Raise e => Raise e
  end.

(** line 80 *)
Definition auth_response (key challenge : bytes) : result bytes :=
  match vnc_des_encrypt key (slice challenge 0 8) with
  | Ok first =>
      match vnc_des_encrypt key (slice challenge 8 16) with
      | Ok second => Ok (first ++ second)
      | Raise e => Raise e
      end
  | Raise e => Raise e
  end.

(** lines 54-105: version, security types, authentication, client and
    server init; the result is [(width, height, name)]. *)
Definition handshake (password : string) : M (nat * nat * text) :=
  server_version <- sock_recv 12 ;;
  sock_send RFB_VERSION ;;;
  b <- sock_recv 1 ;;
  num_types <- lift (unpack_B b) ;;
  if decide (num_types = 0) then
    b <- sock_recv 4 ;;
    err_len <- lift (unpack_I b) ;;
    err_msg <- sock_recv err_len ;;
    raise (VncError (Utf8Replace err_msg))
  else
    b <- sock_recv num_types ;;
    let security_types := Byte.to_nat <$> b in
    (if decide (2 ∈ security_types) then
       sock_send [x02] ;;;
       challenge <- sock_recv 16 ;;
       let key := password_key password in
       response <- lift (auth_response key challenge) ;;
       sock_send response ;;;
       b <- sock_recv 4 ;;
       auth_result <- lift (unpack_I b) ;;
       if decide (auth_result ≠ 0) then raise (AuthenticationFailed auth_result)
       else ret tt
     else if decide (1 ∈ security_types) then
       sock_send [x01]
     else raise (NoSupportedSecurity security_types)) ;;;
    sock_send [x01] ;;;
    server_init <- sock_recv 24 ;;
    wh <- lift (unpack_HH (slice server_init 0 4)) ;;
    _ <- lift (unpack_BBBB (slice server_init 4 8)) ;;
    _ <- lift (unpack_HHH (slice server_init 8 14)) ;;
    _ <- lift (unpack_BBB (slice server_init 14 17)) ;;
    name_len <- lift (unpack_I (slice server_init 20 24)) ;;
    name <- sock_recv name_len ;;
    ret (wh.1, wh.2, Utf8Replace name).

(** lines 137-144; the loop runs at most [n] times, each round adding at
    least one byte *)
Fixpoint recv_exact_loop (fuel n : nat) (data : bytes) : M bytes :=
  if decide (length data < n) then
    match fuel with
    | 0 => raise OutOfFuel
    | S fuel' =>
        chunk <- sock_recv ((n - length data) `min` RECV_MAX) ;;
        match chunk with
        | [] => raise ConnectionClosed
        | _ => recv_exact_loop fuel' n (data ++ chunk)
        end
    end
  else ret data.

Definition recv_exact (n : nat) : M bytes := recv_exact_loop n n [].

(** lines 159-162: copy the rows of one rectangle *)
Definition copy_rows (width : nat) (hdr : rect_header) (rect_data framebuffer : bytes)
    : bytes :=
  foldl (λ framebuffer row,
           let src_offset := row * rw hdr * 4 in
           let dst_offset := ((ry hdr + row) * width + rx hdr) * 4 in
           slice_assign framebuffer dst_offset (dst_offset + rw hdr * 4)
             (slice rect_data src_offset (src_offset + rw hdr * 4)))
        framebuffer (seq 0 (rh hdr)).

(** lines 153-165: the rectangles of one update; an encoding other than
    Raw ends the loop *)
Fixpoint receive_rects (num_rects width : nat) (framebuffer : bytes) : M bytes :=
  match num_rects with
  | 0 => ret framebuffer
  | S rest =>
      b <- recv_exact 12 ;;
      hdr <- lift (unpack_HHHHi b) ;;
      if decide (encoding hdr = 0%Z) then
        rect_data <- recv_exact (rw hdr * rh hdr * 4) ;;
        receive_rects rest width (copy_rows width hdr rect_data framebuffer)
      else ret framebuffer
  end.

(** lines 146-185: the [while True] loop; every round reads at least the
    message-type byte, [fuel] bounds the rounds *)
Fixpoint receive_loop (fuel width : nat) (framebuffer : bytes) : M bytes :=
  match fuel with
  | 0 => raise OutOfFuel
  | S fuel' =>
      b <- recv_exact 1 ;;
      msg_type <- lift (unpack_B b) ;;
      if decide (msg_type = 0) then
        _ <- recv_exact 1 ;;
        b <- recv_exact 2 ;;
        num_rects <- lift (unpack_H b) ;;
        receive_rects num_rects width framebuffer
      else if decide (msg_type = 1) then
        _ <- recv_exact 1 ;;
        b <- recv_exact 2 ;;
        first_color <- lift (unpack_H b) ;;
        b <- recv_exact 2 ;;
        num_colors <- lift (unpack_H b) ;;
        _ <- recv_exact (num_colors * 6) ;;
        receive_loop fuel' width framebuffer
      else if decide (msg_type = 2) then
        receive_loop fuel' width framebuffer
      else if decide (msg_type = 3) then
        _ <- recv_exact 3 ;;
        b <- recv_exact 4 ;;
        text_len <- lift (unpack_I b) ;;
        _ <- recv_exact text_len ;;
        receive_loop fuel' width framebuffer
      else ret framebuffer
  end.

(** lines 109-185: the three requests, then the receive loop on a zeroed
    buffer *)
Definition receive_framebuffer (width height : nat) : M bytes :=
  sock_send SET_PIXEL_FORMAT ;;;
  sock_send SET_ENCODINGS ;;;
  msg <- lift (pack_update_request width height) ;;
  sock_send msg ;;;
  let framebuffer := bytearray (width * height * 4) in
  λ s, receive_loop (S (length (pending s))) width framebuffer s.

(** lines 47-215, up to the conversion of the buffer to an image *)
Definition capture_vnc_screenshot (password : string) : M (nat * nat * bytes) :=
  whn <- handshake password ;;
  let width := whn.1.1 in
  let height := whn.1.2 in
  framebuffer <- receive_framebuffer width height ;;
  ret (width, height, framebuffer).

(** lines 192-197: the BGRA framebuffer as RGBA, index by index over
    [range(0, len(framebuffer), 4)]; [None] is an IndexError *)
Fixpoint to_rgba_loop (indices : list nat) (framebuffer rgba_data : bytes)
    : option bytes :=
  match indices with
  | [] => Some rgba_data
  | i :: rest =>
      b ← framebuffer !! (i + 2); rgba_data ← setitem rgba_data i b;
      b ← framebuffer !! (i + 1); rgba_data ← setitem rgba_data (i + 1) b;
      b ← framebuffer !! i; rgba_data ← setitem rgba_data (i + 2) b;
      rgba_data ← setitem rgba_data (i + 3) xff;
      to_rgba_loop rest framebuffer rgba_data
  end.

Definition to_rgba (framebuffer : bytes) : option bytes :=
  to_rgba_loop ((λ k, 4 * k) <$> seq 0 ((length framebuffer + 3) / 4))
    framebuffer (bytearray (length framebuffer)).
End Program.
End VncScreenshot.

(** ** vnc-control.py *)
Module VncControl.

(** The fields of a [VNCConnection] that [connect] sets; the socket is the
    monad's state. *)
Record VNCConnection := {
  width : nat;
  height : nat;
  name : text
}.

Section Program.
Variable des_block : bytes → bytes → bytes.

(** lines 61-68 *)
Definition reversed_key (key_bytes : bytes) : bytes :=
  (λ b, byte_of_nat (int_base2 (reverse (format_08b b)))) <$> key_bytes.

Definition vnc_des_encrypt (key_bytes challenge : bytes) : result bytes :=
  des_ecb_encrypt des_block (reversed_key key_bytes) challenge.

(** line 102 *)
Definition password_key (password : string) : bytes :=
  slice (encode_utf8 password ++ replicate 8 x00) 0 8.

(** line 102 for a password in full: the encoding can raise *)
Definition password_key_str (password : list N) : result bytes :=
  match str_encode_utf8 password with
  | Ok encoded => Ok (slice (encoded ++ replicate 8 x00) 0 8)
  | Raise e => Raise e
  end.

(** line 103 *)
Definition auth_response (key challenge : bytes) : result bytes :=
  match vnc_des_encrypt key (slice challenge 0 8) with
  | Ok first =>
      match vnc_des_encrypt key (slice challenge 8 16) with
      | Ok second => Ok (first ++ second)
      | Raise e => Raise e
      end
  | Raise e => Raise e
  end.

(** lines 81-120 *)
Definition connect (password : string) : M VNCConnection :=
  server_version <- sock_recv 12 ;;
  sock_send RFB_VERSION ;;;
  b <- sock_recv 1 ;;
  num_types <- lift (unpack_B b) ;;
  if decide (num_types = 0) then
    b <- sock_recv 4 ;;
    err_len <- lift (unpack_I b) ;;
    err_msg <- sock_recv err_len ;;
    raise (VncError (Utf8Replace err_msg))
  else
    b <- sock_recv num_types ;;
    let security_types := Byte.to_nat <$> b in
    (if decide (2 ∈ security_types) then
       sock_send [x02] ;;;
       challenge <- sock_recv 16 ;;
       let key := password_key password in
       response <- lift (auth_response key challenge) ;;
       sock_send response ;;;
       b <- sock_recv 4 ;;
       auth_result <- lift (unpack_I b) ;;
       if decide (auth_result ≠ 0) then raise (AuthenticationFailed auth_result)
       else ret tt
     else if decide (1 ∈ security_types) then
       sock_send [x01]
     else raise (NoSupportedSecurity security_types)) ;;;
    sock_send [x01] ;;;
    server_init <- sock_recv 24 ;;
    wh <- lift (unpack_HH (slice server_init 0 4)) ;;
    name_len <- lift (unpack_I (slice server_init 20 24)) ;;
    name <- sock_recv name_len ;;
    ret {| width := wh.1; height := wh.2; name := Utf8Replace name |}.

(** lines 126-133 *)
Fixpoint recv_exact_loop (fuel n : nat) (data : bytes) : M bytes :=
  if decide (length data < n) then
    match fuel with
    | 0 => raise OutOfFuel
    | S fuel' =>
        chunk <- sock_recv ((n - length data) `min` RECV_MAX) ;;
        match chunk with
        | [] => raise ConnectionClosed
        | _ => recv_exact_loop fuel' n (data ++ chunk)
        end
    end
  else ret data.

Definition recv_exact (n : nat) : M bytes := recv_exact_loop n n [].

(** lines 140-143: [struct.pack('>BBxxI', 4, 1 if down else 0, key)] *)
Definition send_key_event (key : N) (down : bool) : M unit :=
  k <- lift (pack_I key) ;;
  sock_send ([x04; if down then x01 else x00; x00; x00] ++ k).

(** lines 187-196 *)
Definition press_key (key_name : string) : M unit :=
  keysym <-
    match KEYSYM_MAP !! lower key_name with
    | Some keysym => ret keysym
    | None =>
        match key_name with
        | String c EmptyString => ret (ord c)
        | _ => raise (UnknownKey key_name)
        end
    end ;;
  send_key_event keysym true ;;;
  send_key_event keysym false.

(** lines 202-210: resolve the parts, left to right *)
Fixpoint resolve_parts (parts : list string) (keys : list N) : M (list N) :=
  match parts with
  | [] => ret keys
  | part :: parts' =>
      let part := strip part in
      keysym <-
        match KEYSYM_MAP !! part with
        | Some keysym => ret keysym
        | None =>
            match part with
            | String c EmptyString => ret (ord c)
            | _ => raise (UnknownKeyInCombo part)
            end
        end ;;
      resolve_parts parts' (keys ++ [keysym])
  end.

(** lines 213-215 and 218-220 *)
Fixpoint send_keys (keys : list N) (down : bool) : M unit :=
  match keys with
  | [] => ret tt
  | k :: keys' => send_key_event k down ;;; send_keys keys' down
  end.

(** lines 198-220 *)
Definition key_combo (combo : string) : M unit :=
  let parts := split "+" (lower combo) in
  keys <- resolve_parts parts [] ;;
  send_keys keys true ;;;
  send_keys (reverse keys) false.

(** lines 265-268 *)
Definition copy_rows (width : nat) (hdr : rect_header) (rect_data framebuffer : bytes)
    : bytes :=
  foldl (λ framebuffer row,
           let src_off := row * rw hdr * 4 in
           let dst_off := ((ry hdr + row) * width + rx hdr) * 4 in
           slice_assign framebuffer dst_off (dst_off + rw hdr * 4)
             (slice rect_data src_off (src_off + rw hdr * 4)))
        framebuffer (seq 0 (rh hdr)).

(** lines 261-268: the rectangles of one update; a rectangle that is not
    Raw is passed over and the loop goes on with the next header *)
Fixpoint receive_rects (num_rects width : nat) (framebuffer : bytes) : M bytes :=
  match num_rects with
  | 0 => ret framebuffer
  | S rest =>
      b <- recv_exact 12 ;;
      hdr <- lift (unpack_HHHHi b) ;;
      if decide (encoding hdr = 0%Z) then
        rect_data <- recv_exact (rw hdr * rh hdr * 4) ;;
        receive_rects rest width (copy_rows width hdr rect_data framebuffer)
      else receive_rects rest width framebuffer
  end.

(** lines 256-282 *)
Fixpoint receive_loop (fuel width : nat) (framebuffer : bytes) : M bytes :=
  match fuel with
  | 0 => raise OutOfFuel
  | S fuel' =>
      b <- recv_exact 1 ;;
      msg_type <- lift (unpack_B b) ;;
      if decide (msg_type = 0) then
        _ <- recv_exact 1 ;;
        b <- recv_exact 2 ;;
        num_rects <- lift (unpack_H b) ;;
        receive_rects num_rects width framebuffer
      else if decide (msg_type = 1) then
        _ <- recv_exact 1 ;;
        b <- recv_exact 2 ;;
        first <- lift (unpack_H b) ;;
        b <- recv_exact 2 ;;
        num <- lift (unpack_H b) ;;
        _ <- recv_exact (num * 6) ;;
        receive_loop fuel' width framebuffer
      else if decide (msg_type = 2) then
        receive_loop fuel' width framebuffer
      else if decide (msg_type = 3) then
        _ <- recv_exact 3 ;;
        b <- recv_exact 4 ;;
        tl <- lift (unpack_I b) ;;
        _ <- recv_exact tl ;;
        receive_loop fuel' width framebuffer
      else ret framebuffer
  end.

(** lines 237-282; the result is the framebuffer the image is made of *)
Definition capture_screenshot (self : VNCConnection) : M bytes :=
  sock_send SET_PIXEL_FORMAT ;;;
  sock_send SET_ENCODINGS ;;;
  msg <- lift (pack_update_request (width self) (height self)) ;;
  sock_send msg ;;;
  let framebuffer := bytearray (width self * height self * 4) in
  λ s, receive_loop (S (length (pending s))) (width self) framebuffer s.

(** lines 285-290: the BGRA framebuffer as RGBA; [None] is an IndexError *)
Fixpoint to_rgba_loop (indices : list nat) (framebuffer rgba : bytes)
    : option bytes :=
  match indices with
  | [] => Some rgba
  | i :: rest =>
      b ← framebuffer !! (i + 2); rgba ← setitem rgba i b;
      b ← framebuffer !! (i + 1); rgba ← setitem rgba (i + 1) b;
      b ← framebuffer !! i; rgba ← setitem rgba (i + 2) b;
      rgba ← setitem rgba (i + 3) xff;
      to_rgba_loop rest framebuffer rgba
  end.

Definition to_rgba (framebuffer : bytes) : option bytes :=
  to_rgba_loop ((λ k, 4 * k) <$> seq 0 ((length framebuffer + 3) / 4))
    framebuffer (bytearray (length framebuffer)).

(** lines 135-138: [struct.pack('>BBHH', 5, button_mask, x, y)] *)
Definition send_pointer_event (x y button_mask : Z) : M unit :=
  msg <- lift (pack_BBHH 5 button_mask x y) ;;
  sock_send msg.

(** lines 145-154: move, press, release *)
Definition click (x y button : Z) : M unit :=
  send_pointer_event x y 0 ;;;
  send_pointer_event x y button ;;;
  send_pointer_event x y 0.

(** lines 156-159 *)
Definition double_click (x y : Z) : M unit :=
  click x y 1 ;;;
  click x y 1.

(** lines 161-162 *)
Definition right_click (x y : Z) : M unit := click x y 4.

(** lines 164-165 *)
Definition move (x y : Z) : M unit := send_pointer_event x y 0.

(** lines 180-185 *)
Fixpoint type_text (text : string) : M unit :=
  match text with
  | EmptyString => ret tt
  | String ch text' =>
      let keysym := ord ch in
      send_key_event keysym true ;;;
      send_key_event keysym false ;;;
      type_text text'
  end.

(** line 227 *)
Definition button_map : gmap string Z :=
  list_to_map [("up", 8); ("down", 16); ("left", 32); ("right", 64)]%Z.

(** lines 231-235: [for _ in range(amount)] *)
Fixpoint scroll_loop (rounds : nat) (x y button : Z) : M unit :=
  match rounds with
  | 0 => ret tt
  | S rounds' =>
      send_pointer_event x y button ;;;
      send_pointer_event x y 0 ;;;
      scroll_loop rounds' x y button
  end.

(** lines 222-235; [x] and [y] are [None] when the caller leaves them out *)
Definition scroll (self : VNCConnection) (direction : string) (amount : Z)
    (x y : option Z) : M unit :=
  let x := default (Z.of_nat (width self / 2)) x in
  let y := default (Z.of_nat (height self / 2)) y in
  let button := default 16%Z (button_map !! direction) in
  send_pointer_event x y 0 ;;;
  scroll_loop (Z.to_nat amount) x y button.
End Program.
End VncControl.

(** * Definitions used to state the properties *)

(** ** Key derivation and cipher *)

(** The bit reversal the way the specification words it: bit [7 - j] of the
    input is bit [j] of the output. *)
Definition reverse_bits_spec (b : byte) : byte :=
  let '(b0, (b1, (b2, (b3, (b4, (b5, (b6, b7))))))) := Byte.to_bits b in
  Byte.of_bits (b7, (b6, (b5, (b4, (b3, (b2, (b1, b0))))))).


(** The key handed to the cipher for a password in full: the padded and cut
    password of line 77 with the bits of each byte reversed as in lines
    39-41. *)
Definition derived_key (password : list N) : result bytes :=
  match VncScreenshot.password_key_str password with
  | Ok key => Ok (VncScreenshot.reversed_key key)
  | Raise e => Raise e
  end.

(** A stand-in for the cipher, for the instances below: each byte of the
    block is replaced by the key byte at its place. *)
Definition toy_des_block (key block : bytes) : bytes := take (length block) key.

(** ** Key events *)

(** The KeyEvent message of the wire format: type 4, down flag, two bytes of
    padding, the keysym as an unsigned 32-bit big-endian number. *)
Definition key_event (keysym : N) (down : bool) : bytes :=
  [x04; if down then x01 else x00; x00; x00] ++ to_bytes_I keysym.

(** How a key name resolves: the table first, then the code point of a
    one-character name. *)
Definition resolve_key (name : string) : option N :=
  match KEYSYM_MAP !! name with
  | Some keysym => Some keysym
  | None =>
      match name with
      | String c EmptyString => Some (ord c)
      | _ => None
      end
  end.

(** ** Reads and writes of the handshake *)

(** [delivers inc data inc']: a [recv] of [length data] bytes on the pending
    segments [inc] returns exactly [data], the whole of what was asked for,
    and leaves [inc']. *)
Definition delivers (inc : list bytes) (data : bytes) (inc' : list bytes) : Prop :=
  recv_segments (length data) inc = (data, inc').

(** A computation that only ever adds to what has been sent. *)
Definition appends {A} (m : M A) : Prop :=
  ∀ s r s', m s = (r, s') → ∃ tail, sent s' = sent s ++ tail.

(** [sends_first m s msg]: however [m] ends when run from [s], what it has
    written starts with [msg]. *)
Definition sends_first {A} (m : M A) (s : socket) (msg : bytes) : Prop :=
  ∃ r s' tail, m s = (r, s') ∧ sent s' = sent s ++ msg ++ tail.

(** ** The wire format of a framebuffer update *)

(** A rectangle as the server sends it: the header and the bytes that
    follow it. *)
Record rect := Rect {
  hdr : rect_header;
  payload : bytes
}.

(** The bytes of a signed 32-bit big-endian field. *)
Definition to_bytes_i (e : Z) : bytes := to_bytes_I (Z.to_N (e `mod` 2 ^ 32)).

(** The 12-byte rectangle header: x, y, w, h, encoding. *)
Definition encode_header (h : rect_header) : bytes :=
  to_bytes_H (rx h) ++ to_bytes_H (ry h) ++ to_bytes_H (rw h) ++ to_bytes_H (rh h)
  ++ to_bytes_i (encoding h).

Definition encode_rect (r : rect) : bytes := encode_header (hdr r) ++ payload r.

(** FramebufferUpdate: type 0, one byte of padding, the number of
    rectangles, the rectangles. *)
Definition encode_update (rects : list rect) : bytes :=
  [x00; x00] ++ to_bytes_H (length rects) ++ concat (encode_rect <$> rects).

(** The fields fit the header, a Raw rectangle carries [w * h * 4] bytes and
    any other one carries none. *)
Definition wf_rect (r : rect) : Prop :=
  rx (hdr r) < 256 * 256 ∧ ry (hdr r) < 256 * 256 ∧
  rw (hdr r) < 256 * 256 ∧ rh (hdr r) < 256 * 256 ∧
  (- 2 ^ 31 ≤ encoding (hdr r) < 2 ^ 31)%Z ∧
  (encoding (hdr r) = 0%Z → length (payload r) = rw (hdr r) * rh (hdr r) * 4) ∧
  (encoding (hdr r) ≠ 0%Z → payload r = []).

(** Raw is encoding 0. *)
Definition is_raw (r : rect) : Prop := encoding (hdr r) = 0%Z.

#[global] Instance is_raw_dec r : Decision (is_raw r).
Proof. unfold is_raw. apply _. Defined.

(** The rectangles of a list copied in order into a buffer, each row by
    row ([copy_rows] is the same function in both programs). *)
Definition composite (width : nat) (rects : list rect) (framebuffer : bytes) : bytes :=
  foldl (λ fb r, VncControl.copy_rows width (hdr r) (payload r) fb) framebuffer rects.

(** The Raw rectangles in front of the first one that is not Raw. *)
Fixpoint raw_prefix (rects : list rect) : list rect :=
  match rects with
  | [] => []
  | r :: rects' => if decide (is_raw r) then r :: raw_prefix rects' else []
  end.

(** The three requests written before the receive loop. *)
Definition capture_requests (width height : nat) : bytes :=
  SET_PIXEL_FORMAT ++ SET_ENCODINGS ++
  [x03; x00; x00; x00; x00; x00] ++ to_bytes_H width ++ to_bytes_H height.

(** ** Pixels and rectangles *)

(** The offset of byte [k] of the pixel in row [row] and column [col] of a
    buffer [width] pixels wide. *)
Definition pixel_index (width row col k : nat) : nat := (row * width + col) * 4 + k.

(** The rectangle covers the pixel. *)
Definition covers (h : rect_header) (row col : nat) : Prop :=
  ry h ≤ row < ry h + rh h ∧ rx h ≤ col < rx h + rw h.

(** The offset in the rectangle's payload of byte [k] of that pixel. *)
Definition payload_index (h : rect_header) (row col k : nat) : nat :=
  ((row - ry h) * rw h + (col - rx h)) * 4 + k.

(** The rectangle lies within a display of the given size. *)
Definition in_display (width height : nat) (h : rect_header) : Prop :=
  rx h + rw h ≤ width ∧ ry h + rh h ≤ height.

(** What a list of rectangles leaves at a byte of a pixel: the payload byte
    of the last rectangle that covers the pixel, or what was there before. *)
Definition painted (rects : list rect) (row col k : nat) (prior : option byte)
    : option byte :=
  foldl (λ v r, if decide (covers (hdr r) row col)
                then payload r !! payload_index (hdr r) row col k else v)
        prior rects.

(** A well-formed Raw rectangle within the display. *)
Definition raw_in_display (width height : nat) (r : rect) : Prop :=
  wf_rect r ∧ is_raw r ∧ in_display width height (hdr r).

(** No two rectangles of the list cover a common pixel. *)
Definition disjoint_rects (rects : list rect) : Prop :=
  ∀ i j ri rj row col,
    i ≠ j → rects !! i = Some ri → rects !! j = Some rj →
    covers (hdr ri) row col → ¬ covers (hdr rj) row col.

(** ** Concrete displays and streams *)

(** Two Raw rectangles of one pixel each on a display two pixels wide. *)
Definition two_pixels : list rect :=
  [Rect (RectHeader 0 0 1 1 0) [x01; x02; x03; x04];
   Rect (RectHeader 1 0 1 1 0) [x05; x06; x07; x08]].

(** A connection with a display of 2x1 pixels. *)
Definition display_2x1 : VncControl.VNCConnection :=
  {| VncControl.width := 2; VncControl.height := 1;
     VncControl.name := Utf8Replace [] |}.

(** A rectangle with the DesktopSize pseudo-encoding (-223), which carries
    no payload, followed by a Raw rectangle for the second pixel. *)
Definition mixed_update : list rect :=
  [Rect (RectHeader 0 0 1 1 (-223)) [];
   Rect (RectHeader 1 0 1 1 0) [x05; x06; x07; x08]].

(** A connection with a display of 1x1 pixel. *)
Definition display_1x1 : VncControl.VNCConnection :=
  {| VncControl.width := 1; VncControl.height := 1;
     VncControl.name := Utf8Replace [] |}.

(** One Raw rectangle of one pixel, placed in row 1 of a display that has
    only row 0. *)
Definition below_display : list rect :=
  [Rect (RectHeader 0 1 1 1 0) [x01; x02; x03; x04]].

(** The server's side of a handshake without authentication for a 3x2
    display whose name is announced as 4 bytes long; the connection closes
    after the first two bytes of the name. *)
Definition truncated_handshake : list bytes :=
  [RFB_VERSION;
   [x01; x01];
   [x00; x03; x00; x02; x20; x18; x00; x01; x00; xff; x00; xff; x00; xff;
    x10; x08; x00; x00; x00; x00; x00; x00; x00; x04];
   ["T"; "e"]%byte].

(** The server's side of a negotiation that offers the types 1 and 2, the
    two type bytes arriving in segments of their own. *)
Definition split_type_list : list bytes :=
  [RFB_VERSION; [x02]; [x01]; [x02]].

(** A rejection (count 0) with the message ["abcde"], of which the first
    two bytes arrive ahead of the rest. *)
Definition split_error_message : list bytes :=
  [RFB_VERSION; [x00]; [x00; x00; x00; x05]; ["a"; "b"]%byte;
   ["c"; "d"; "e"]%byte].

(** The same rejection with the length word arriving in two halves. *)
Definition split_error_length : list bytes :=
  [RFB_VERSION; [x00]; [x00; x00]; [x00; x05];
   ["a"; "b"; "c"; "d"; "e"]%byte].

(** ** Outcomes of a receive loop *)

(** How a receive loop started in [s] may end: with a buffer that satisfies
    [P] or with "Connection closed"; it writes nothing and consumes input. *)
Definition loop_outcome (P : bytes → Prop) (s : socket)
    (res : result bytes * socket) : Prop :=
  sent res.2 = sent s ∧ length (pending res.2) ≤ length (pending s) ∧
  match res.1 with
  | Ok fb => P fb
  | Raise e => e = ConnectionClosed
  end.

(** ** Further messages of the wire format *)

(** PointerEvent: type 5, button mask, x, y. *)
Definition pointer_event (x y button_mask : Z) : bytes :=
  [x05; byte_of_nat (Z.to_nat button_mask)]
  ++ to_bytes_H (Z.to_nat x) ++ to_bytes_H (Z.to_nat y).

(** The coordinates fit the 16-bit fields of a pointer event. *)
Definition on_wire (x y : Z) : Prop := (0 ≤ x < 65536 ∧ 0 ≤ y < 65536)%Z.

(** The 24 bytes of ServerInit in front of the name: width, height, the 16
    bytes of the server's pixel format, the length of the name. *)
Definition encode_server_init (width height : nat) (pixel_format name : bytes)
    : bytes :=
  to_bytes_H width ++ to_bytes_H height ++ pixel_format
  ++ to_bytes_I (N.of_nat (length name)).

(** The server messages the receive loops pass over. *)
Inductive server_msg :=
  | Bell
  | ServerCutText (text : bytes)
  | SetColorMapEntries (first_color num_colors : nat) (rgb : bytes).

Definition encode_msg (m : server_msg) : bytes :=
  match m with
  | Bell => [x02]
  | ServerCutText text =>
      [x03; x00; x00; x00] ++ to_bytes_I (N.of_nat (length text)) ++ text
  | SetColorMapEntries first_color num_colors rgb =>
      [x01; x00] ++ to_bytes_H first_color ++ to_bytes_H num_colors ++ rgb
  end.

(** The fields fit and the data has the announced length. *)
Definition wf_msg (m : server_msg) : Prop :=
  match m with
  | Bell => True
  | ServerCutText text => (N.of_nat (length text) < 4294967296)%N
  | SetColorMapEntries first_color num_colors rgb =>
      first_color < 256 * 256 ∧ num_colors < 256 * 256 ∧
      length rgb = num_colors * 6
  end.

(** The events of typing one character: key down, key up. *)
Definition key_stroke (c : ascii) : bytes :=
  key_event (ord c) true ++ key_event (ord c) false.

(** ** Pointer actions *)

(** A sequence of pointer events, each given as [(x, y, button_mask)]. *)
Definition pointer_events (evs : list (Z * Z * Z)) : bytes :=
  concat ((λ e, pointer_event e.1.1 e.1.2 e.2) <$> evs).

(** The fields of the event fit the message. *)
Definition wf_event (e : Z * Z * Z) : Prop :=
  on_wire e.1.1 e.1.2 ∧ (0 ≤ e.2 < 256)%Z.

(** No button is held after the events: the last one, if there is one, has
    an empty button mask. *)
Definition buttons_released (evs : list (Z * Z * Z)) : Prop :=
  default 0%Z (snd <$> last evs) = 0%Z.

(** However [m] ends, it has read nothing and what it has written is a
    sequence of well-formed pointer events that leaves no button held. *)
Definition releases (m : M unit) : Prop :=
  ∀ s, ∃ evs, incoming (m s).2 = incoming s ∧
              sent (m s).2 = sent s ++ pointer_events evs ∧
              Forall wf_event evs ∧ buttons_released evs.

(** The button mask of a scroll direction: wheel up, left and right have
    their own bit, everything else scrolls down. *)
Definition scroll_button (direction : string) : Z :=
  if decide (direction = "up") then 8
  else if decide (direction = "left") then 32
  else if decide (direction = "right") then 64
  else 16.

(** * Properties *)

(** ** The monad *)

Lemma bind_ok {A B} (m : M A) (k : A → M B) s a s' :
  m s = (Ok a, s') → bind m k s = k a s'.
Proof. intros H. unfold bind. by rewrite H. Qed.

Lemma bind_raise {A B} (m : M A) (k : A → M B) s e s' :
  m s = (Raise e, s') → bind m k s = (Raise e, s').
Proof. intros H. unfold bind. by rewrite H. Qed.

Lemma bind_assoc {A B C} (m : M A) (f : A → M B) (g : B → M C) s :
  bind (bind m f) g s = bind m (λ x, bind (f x) g) s.
Proof. unfold bind. by destruct (m s) as [[a|e] s1]. Qed.

(** ** Reading from the socket *)

Lemma RECV_MAX_pos : 0 < RECV_MAX.
Proof. unfold RECV_MAX. lia. Qed.

Lemma recv_segments_spec n segs data segs' :
  recv_segments n segs = (data, segs') →
  concat segs = data ++ concat segs' ∧ length data ≤ n ∧
  (data = [] → n = 0 ∨ concat segs = []).
Proof.
  revert data segs'. induction segs as [|c rest IH]; intros data segs' H.
  - simpl in H. injection H as <- <-. simpl. split_and!; [done | lia | auto].
  - destruct c as [|b c].
    + simpl in H. apply IH in H. simpl. exact H.
    + cbn [recv_segments] in H. injection H as <- <-. split_and!.
      * case_decide as Hn; simpl concat.
        -- rewrite (app_assoc (take n (b :: c))), take_drop. done.
        -- rewrite take_ge by (simpl; lia). done.
      * rewrite length_take. lia.
      * intros Hnil. left. destruct n; [done | discriminate].
Qed.

Lemma sock_recv_spec n s data s' :
  sock_recv n s = (Ok data, s') →
  pending s = data ++ pending s' ∧ sent s' = sent s ∧ length data ≤ n ∧
  (data = [] → n = 0 ∨ pending s = []).
Proof.
  unfold sock_recv, pending. destruct (recv_segments n (incoming s)) as [d segs] eqn:E.
  intros H. apply recv_segments_spec in E. injection H as <- <-. simpl. tauto.
Qed.

Lemma sock_recv_ok n s : ∃ data s', sock_recv n s = (Ok data, s').
Proof.
  unfold sock_recv. destruct (recv_segments n (incoming s)); eauto.
Qed.

Lemma recv_exact_loop_unfold fuel n data :
  VncControl.recv_exact_loop fuel n data =
  if decide (length data < n) then
    match fuel with
    | 0 => raise OutOfFuel
    | S fuel' =>
        chunk <- sock_recv ((n - length data) `min` RECV_MAX) ;;
        match chunk with
        | [] => raise ConnectionClosed
        | _ => VncControl.recv_exact_loop fuel' n (data ++ chunk)
        end
    end
  else ret data.
Proof. destruct fuel; reflexivity. Qed.

(** [recv_exact_loop] with enough fuel: the missing bytes are taken from the
    head of the pending stream, whatever its division into segments, or the
    stream ends first and the read raises. *)
Lemma recv_exact_loop_spec fuel n data s :
  n ≤ length data + fuel →
  if decide (n ≤ length data + length (pending s)) then
    ∃ s', VncControl.recv_exact_loop fuel n data s
            = (Ok (data ++ take (n - length data) (pending s)), s') ∧
          pending s' = drop (n - length data) (pending s) ∧ sent s' = sent s
  else
    ∃ s', VncControl.recv_exact_loop fuel n data s = (Raise ConnectionClosed, s') ∧
          pending s' = [] ∧ sent s' = sent s.
Proof.
  revert data s. induction fuel as [|fuel IH]; intros data s Hfuel.
  - rewrite decide_True by lia.
    rewrite recv_exact_loop_unfold, decide_False by lia.
    exists s. replace (n - length data) with 0 by lia.
    rewrite take_0, drop_0, app_nil_r. done.
  - rewrite recv_exact_loop_unfold. destruct (decide (length data < n)) as [Hlt|Hge].
    2:{ rewrite decide_True by lia. exists s. replace (n - length data) with 0 by lia.
        rewrite take_0, drop_0, app_nil_r. done. }
    unfold bind.
    destruct (sock_recv_ok ((n - length data) `min` RECV_MAX) s) as (chunk & s1 & E).
    rewrite E. apply sock_recv_spec in E as (Hp & Hs & Hlen & Hnil).
    pose proof RECV_MAX_pos.
    destruct chunk as [|b chunk].
    + destruct Hnil as [?|Hp0]; [done | lia |].
      rewrite Hp0. simpl. rewrite decide_False by lia.
      exists s1. rewrite Hp0 in Hp. simpl in Hp. done.
    + specialize (IH (data ++ b :: chunk) s1).
      rewrite length_app in IH.
      assert (0 < length (b :: chunk)) by (simpl; lia).
      ospecialize (IH _); [lia |].
      rewrite Hp, length_app.
      destruct (decide (n ≤ length data + length (pending s1) + length (b :: chunk))).
      * rewrite decide_True in IH by lia. rewrite decide_True by lia.
        destruct IH as (s' & -> & Hp' & Hs'). exists s'. split_and!.
        -- do 2 f_equal. rewrite <- app_assoc. f_equal.
           rewrite take_app_ge by lia. do 2 f_equal. lia.
        -- rewrite Hp'. rewrite drop_app_ge by lia. f_equal. lia.
        -- congruence.
      * rewrite decide_False in IH by lia. rewrite decide_False by lia.
        destruct IH as (s' & -> & Hp' & Hs'). exists s'. split_and!; [done..|congruence].
Qed.

Lemma recv_exact_ok n s :
  n ≤ length (pending s) →
  ∃ s', VncControl.recv_exact n s = (Ok (take n (pending s)), s') ∧
        pending s' = drop n (pending s) ∧ sent s' = sent s.
Proof.
  intros Hn. pose proof (recv_exact_loop_spec n n [] s) as H.
  ospecialize (H _); [simpl; lia |]. rewrite decide_True in H by (simpl; lia).
  simpl in H. rewrite Nat.sub_0_r in H. exact H.
Qed.

Lemma recv_exact_closed n s :
  length (pending s) < n →
  ∃ s', VncControl.recv_exact n s = (Raise ConnectionClosed, s') ∧
        pending s' = [] ∧ sent s' = sent s.
Proof.
  intros Hn. pose proof (recv_exact_loop_spec n n [] s) as H.
  ospecialize (H _); [simpl; lia |]. rewrite decide_False in H by (simpl; lia).
  exact H.
Qed.

(** The two programs carry the same [recv_exact]. *)
Lemma recv_exact_same : VncScreenshot.recv_exact = VncControl.recv_exact.
Proof. reflexivity. Qed.

(** ** Numbers and bytes *)

Lemma byte_of_nat_to_nat n : n < 256 → Byte.to_nat (byte_of_nat n) = n.
Proof.
  intros Hn. unfold byte_of_nat. destruct (Byte.of_nat n) as [b|] eqn:E.
  - simpl. by apply Byte.to_of_nat.
  - apply Byte.of_nat_None_iff in E. lia.
Qed.

Lemma from_bytes_big_H n : n < 256 * 256 → from_bytes_big (to_bytes_H n) = n.
Proof.
  intros Hn. unfold to_bytes_H, from_bytes_big. cbn [foldl].
  rewrite !byte_of_nat_to_nat.
  - pose proof (Nat.div_mod_eq n 256). lia.
  - apply Nat.mod_upper_bound. lia.
  - apply Nat.Div0.div_lt_upper_bound. lia.
Qed.

Lemma byte_of_nat_to_N n : n < 256 → Byte.to_N (byte_of_nat n) = N.of_nat n.
Proof. intros Hn. by rewrite Byte.to_N_via_nat, byte_of_nat_to_nat. Qed.

Lemma from_bytes_big_I k :
  (k < 4294967296)%N → from_bytes_big_N (to_bytes_I k) = k.
Proof.
  intros Hk. unfold to_bytes_I, from_bytes_big_N. cbn [foldl].
  assert (k / 16777216 < 256)%N by (apply N.Div0.div_lt_upper_bound; lia).
  assert ((k / 65536) `mod` 256 < 256)%N by (apply N.mod_upper_bound; lia).
  assert ((k / 256) `mod` 256 < 256)%N by (apply N.mod_upper_bound; lia).
  assert (k `mod` 256 < 256)%N by (apply N.mod_upper_bound; lia).
  rewrite !byte_of_nat_to_N by lia. rewrite !N2Nat.id.
  pose proof (N.Div0.div_mod k 256) as E1.
  pose proof (N.Div0.div_mod (k / 256) 256) as E2.
  pose proof (N.Div0.div_mod (k / 65536) 256) as E3.
  rewrite N.Div0.div_div in E2, E3.
  change (256 * 256)%N with 65536%N in E2.
  change (65536 * 256)%N with 16777216%N in E3.
  lia.
Qed.

Lemma signed32_to_bytes_i e :
  (- 2 ^ 31 ≤ e < 2 ^ 31)%Z → signed32 (from_bytes_big_N (to_bytes_i e)) = e.
Proof.
  intros He. unfold to_bytes_i.
  assert (0 ≤ e `mod` 2 ^ 32 < 2 ^ 32)%Z as Hm by (apply Z.mod_pos_bound; lia).
  rewrite from_bytes_big_I by lia.
  unfold signed32. rewrite Z2N.id by lia.
  destruct (N.ltb_spec (Z.to_N (e `mod` 2 ^ 32)) (2 ^ 31)) as [Hlt|Hge].
  - destruct (decide (0 ≤ e)%Z).
    + apply Z.mod_small. lia.
    + rewrite <- (Z.mod_add e 1 (2 ^ 32)) in Hlt by lia.
      rewrite Z.mod_small in Hlt by lia. lia.
  - destruct (decide (0 ≤ e)%Z).
    + rewrite Z.mod_small in Hge by lia. lia.
    + rewrite <- (Z.mod_add e 1 (2 ^ 32)) by lia.
      rewrite Z.mod_small by lia. lia.
Qed.

(** ** Key derivation *)

Lemma reversed_byte_spec b :
  byte_of_nat (int_base2 (reverse (format_08b b))) = reverse_bits_spec b.
Proof. destruct b; reflexivity. Qed.

Lemma reverse_bits_spec_testbit b j :
  (j < 8)%N →
  N.testbit (Byte.to_N (reverse_bits_spec b)) j = N.testbit (Byte.to_N b) (7 - j).
Proof.
  intros Hj.
  assert (j = 0 ∨ j = 1 ∨ j = 2 ∨ j = 3 ∨ j = 4 ∨ j = 5 ∨ j = 6 ∨ j = 7)%N
    as [->|[->|[->|[->|[->|[->|[->| ->]]]]]]] by lia;
    destruct b; reflexivity.
Qed.

Lemma reversed_key_spec key_bytes :
  VncControl.reversed_key key_bytes = reverse_bits_spec <$> key_bytes.
Proof.
  unfold VncControl.reversed_key. apply list_fmap_ext.
  intros _ b _. apply reversed_byte_spec.
Qed.



Lemma str_encode_utf8_chr_error cp e :
  str_encode_utf8_chr cp = Raise e → e = UnicodeEncodeError ∧ is_surrogate cp = true.
Proof.
  unfold str_encode_utf8_chr. repeat case_match; try done. by intros [= <-].
Qed.

Lemma str_encode_utf8_chr_ok cp :
  is_surrogate cp = false → ∃ b, str_encode_utf8_chr cp = Ok b.
Proof.
  intros H. destruct (str_encode_utf8_chr cp) as [b|e] eqn:E; [by exists b|].
  apply str_encode_utf8_chr_error in E as [_ E]. congruence.
Qed.

Lemma str_encode_utf8_ok password :
  Forall (λ cp, is_surrogate cp = false) password →
  ∃ encoded, str_encode_utf8 password = Ok encoded.
Proof.
  induction 1 as [|cp password Hcp _ [encoded IH]]; [by exists []|].
  destruct (str_encode_utf8_chr_ok cp Hcp) as [b Hb].
  exists (b ++ encoded). cbn [str_encode_utf8]. by rewrite Hb, IH.
Qed.

Lemma str_encode_utf8_error password e :
  str_encode_utf8 password = Raise e → e = UnicodeEncodeError.
Proof.
  induction password as [|cp password IH]; [done|]. cbn [str_encode_utf8].
  destruct (str_encode_utf8_chr cp) as [b|e'] eqn:E.
  - destruct (str_encode_utf8 password) as [bs|e'']; [done|].
    intros [= <-]. by apply IH.
  - intros [= <-]. by apply str_encode_utf8_chr_error in E as [-> _].
Qed.

Lemma str_encode_utf8_surrogate password cp :
  cp ∈ password → is_surrogate cp = true →
  str_encode_utf8 password = Raise UnicodeEncodeError.
Proof.
  intros Hin Hs.
  destruct (str_encode_utf8 password) as [encoded|e] eqn:E;
    [|by rewrite (str_encode_utf8_error _ _ E)].
  exfalso. revert encoded E.
  induction password as [|cp' password IH]; intros encoded E;
    [by apply elem_of_nil in Hin|].
  cbn [str_encode_utf8] in E.
  destruct (str_encode_utf8_chr cp') as [b|e'] eqn:Ec; [|done].
  destruct (str_encode_utf8 password) as [bs|e''] eqn:Er; [|done].
  apply elem_of_cons in Hin as [->|Hin]; [|by eapply IH].
  revert Ec. unfold str_encode_utf8_chr, is_surrogate in *.
  apply andb_prop in Hs as [H1%N.leb_le H2%N.leb_le].
  destruct (N.ltb_spec cp' 0x80); [lia|].
  destruct (N.ltb_spec cp' 0x800); [lia|].
  destruct (N.leb_spec 0xD800 cp'); [|lia].
  destruct (N.leb_spec cp' 0xDFFF); [|lia]. done.
Qed.

Lemma str_encode_utf8_ascii password :
  Forall (λ cp, cp < 0x80)%N password →
  str_encode_utf8 password = Ok (byte_of_N <$> password).
Proof.
  induction 1 as [|cp password Hcp _ IH]; [done|].
  cbn [str_encode_utf8]. rewrite IH. unfold str_encode_utf8_chr.
  destruct (N.ltb_spec cp 0x80); [done | lia].
Qed.

Lemma str_encode_utf8_chr_latin1 c :
  str_encode_utf8_chr (ord c) = Ok (encode_utf8_chr c).
Proof. destruct c as [[] [] [] [] [] [] [] []]; reflexivity. Qed.

Lemma str_encode_utf8_latin1 s :
  str_encode_utf8 (code_points s) = Ok (encode_utf8 s).
Proof.
  unfold code_points. induction s as [|c s IH]; [done|].
  cbn [String.list_ascii_of_string fmap list_fmap str_encode_utf8 encode_utf8].
  rewrite str_encode_utf8_chr_latin1.
  change (list_fmap ascii N ord (String.list_ascii_of_string s))
    with (ord <$> String.list_ascii_of_string s).
  by rewrite IH.
Qed.

Lemma password_key_str_same password :
  VncScreenshot.password_key_str password = VncControl.password_key_str password.
Proof. reflexivity. Qed.

Lemma password_key_str_latin1 s :
  VncControl.password_key_str (code_points s) = Ok (VncControl.password_key s).
Proof.
  unfold VncControl.password_key_str. by rewrite str_encode_utf8_latin1.
Qed.

Lemma derived_key_encoded password encoded :
  str_encode_utf8 password = Ok encoded →
  derived_key password
  = Ok (reverse_bits_spec <$> take 8 (encoded ++ replicate 8 x00)).
Proof.
  intros E. unfold derived_key, VncScreenshot.password_key_str. rewrite E.
  change VncScreenshot.reversed_key with VncControl.reversed_key.
  rewrite reversed_key_spec. unfold slice. by rewrite drop_0.
Qed.

(** C3, as amended.  A password without lone surrogates can be encoded as
    UTF-8, and its DES key is the encoding padded with zero bytes, cut to
    the first 8 bytes, each byte with its bits in reverse order (bit
    [7 - j] of the padded byte is bit [j] of the key byte).  The key is 8
    bytes long, both programs derive the same key, and a password whose
    encoding has 8 bytes or more gives the key of any other password whose
    encoding starts with the same 8 bytes.  A password with a lone
    surrogate has no key: the encoding raises.  The encoding is UTF-8: code
    points below 128 are their own byte, U+00E9, U+20AC and U+1F511 take
    two, three and four bytes; on strings of the Latin-1 range the key is
    the one the handshake uses, and the keys of ["secret"],
    ["password123"] and ["clé"] are as computed by the programs. *)
Theorem derived_key_correct (password : list N) :
  (Forall (λ cp, is_surrogate cp = false) password →
   ∃ encoded key,
     str_encode_utf8 password = Ok encoded ∧
     VncScreenshot.password_key_str password
     = Ok (take 8 (encoded ++ replicate 8 x00)) ∧
     VncControl.password_key_str password
     = Ok (take 8 (encoded ++ replicate 8 x00)) ∧
     derived_key password = Ok key ∧
     key = VncScreenshot.reversed_key (take 8 (encoded ++ replicate 8 x00)) ∧
     key = VncControl.reversed_key (take 8 (encoded ++ replicate 8 x00)) ∧
     length key = 8 ∧
     (∀ i, i < 8 →
        ∃ kb pb, key !! i = Some kb ∧
          (encoded ++ replicate 8 x00) !! i = Some pb ∧
          ∀ j, (j < 8)%N →
            N.testbit (Byte.to_N kb) j = N.testbit (Byte.to_N pb) (7 - j)) ∧
     (∀ other encoded',
        8 ≤ length encoded →
        str_encode_utf8 other = Ok encoded' →
        take 8 encoded' = take 8 encoded →
        derived_key other = Ok key)) ∧
  ((∃ cp, cp ∈ password ∧ is_surrogate cp = true) →
   str_encode_utf8 password = Raise UnicodeEncodeError ∧
   derived_key password = Raise UnicodeEncodeError) ∧
  (Forall (λ cp, cp < 0x80)%N password →
   str_encode_utf8 password = Ok (byte_of_N <$> password)) ∧
  str_encode_utf8 [0xE9; 0x20AC; 0x1F511]%N
  = Ok [xc3; xa9; xe2; x82; xac; xf0; x9f; x94; x91] ∧
  (∀ s : string,
     str_encode_utf8 (code_points s) = Ok (encode_utf8 s) ∧
     derived_key (code_points s)
     = Ok (VncScreenshot.reversed_key (VncScreenshot.password_key s)) ∧
     derived_key (code_points s)
     = Ok (VncControl.reversed_key (VncControl.password_key s))) ∧
  VncControl.reversed_key (VncControl.password_key "secret")
  = [xce; xa6; xc6; x4e; xa6; x2e; x00; x00] ∧
  VncControl.reversed_key (VncControl.password_key "password123")
  = [x0e; x86; xce; xce; xee; xf6; x4e; x26] ∧
  derived_key [0x63; 0x6C; 0xE9]%N
  = Ok [xc6; x36; xc3; x95; x00; x00; x00; x00].
Proof.
  split_and!.
  - intros Hs. destruct (str_encode_utf8_ok password Hs) as [encoded E].
    pose proof (derived_key_encoded password encoded E) as Hk.
    exists encoded, (reverse_bits_spec <$> take 8 (encoded ++ replicate 8 x00)).
    assert (length (take 8 (encoded ++ replicate 8 x00)) = 8) as Hlen.
    { rewrite length_take, length_app, length_replicate. lia. }
    split_and!; try done.
    + unfold VncScreenshot.password_key_str, slice. by rewrite E, drop_0.
    + unfold VncControl.password_key_str, slice. by rewrite E, drop_0.
    + change VncScreenshot.reversed_key with VncControl.reversed_key.
      by rewrite reversed_key_spec.
    + by rewrite reversed_key_spec.
    + by rewrite length_fmap.
    + intros i Hi.
      destruct (lookup_lt_is_Some_2 (encoded ++ replicate 8 x00) i) as [pb Hpb].
      { rewrite length_app, length_replicate. lia. }
      exists (reverse_bits_spec pb), pb. split_and!; [|done|].
      * rewrite list_lookup_fmap, lookup_take_lt, Hpb by lia. done.
      * intros j Hj. by apply reverse_bits_spec_testbit.
    + intros other encoded' Hl E' Ht.
      rewrite (derived_key_encoded other encoded' E'). do 2 f_equal.
      assert (8 ≤ length encoded') as Hl'.
      { apply (f_equal length) in Ht. rewrite !length_take in Ht. lia. }
      by rewrite !take_app_le by lia.
  - intros (cp & Hin & Hs).
    pose proof (str_encode_utf8_surrogate password cp Hin Hs) as E.
    split; [done|]. unfold derived_key, VncScreenshot.password_key_str.
    by rewrite E.
  - apply str_encode_utf8_ascii.
  - reflexivity.
  - intros s. split_and!.
    + apply str_encode_utf8_latin1.
    + unfold derived_key. rewrite password_key_str_same, password_key_str_latin1.
      reflexivity.
    + unfold derived_key. rewrite password_key_str_same, password_key_str_latin1.
      reflexivity.
  - reflexivity.
  - reflexivity.
  - reflexivity.
Qed.

Lemma derived_key_correct_witness :
  ∃ key, derived_key [0x70; 0xE4; 0x73; 0x73; 0x20AC]%N = Ok key ∧ length key = 8.
Proof.
  destruct (proj1 (derived_key_correct [0x70; 0xE4; 0x73; 0x73; 0x20AC]%N))
    as (encoded & key & _ & _ & _ & Hk & _ & _ & Hl & _).
  - repeat (constructor; [reflexivity|]). constructor.
  - exists key. split; [exact Hk | exact Hl].
Defined.

(** C3 as stated fails on the password made of the lone surrogate U+DCE9,
    the string Python makes of the command-line argument consisting of the
    byte E9: line 77 (line 102 of the control connection) raises
    UnicodeEncodeError, so this input has no key of length 8. *)
Theorem lone_surrogate_password_has_no_key :
  str_encode_utf8 [0xDCE9]%N = Raise UnicodeEncodeError ∧
  VncScreenshot.password_key_str [0xDCE9]%N = Raise UnicodeEncodeError ∧
  VncControl.password_key_str [0xDCE9]%N = Raise UnicodeEncodeError ∧
  ¬ (∀ password, ∃ key, derived_key password = Ok key ∧ length key = 8).
Proof.
  split_and!; [reflexivity..|].
  intros H. destruct (H [0xDCE9]%N) as (key & Hk & _). discriminate.
Qed.

(** ** The challenge response *)





(** ** Key events *)

Lemma KEYSYM_MAP_range name keysym :
  KEYSYM_MAP !! name = Some keysym → (keysym < 4294967296)%N.
Proof.
  intros H. apply elem_of_list_to_map_2 in H.
  eapply (Forall_forall (λ p : string * N, (p.2 < 4294967296)%N)) in H; [exact H|].
  repeat (constructor; [done|]). constructor.
Qed.

Lemma resolve_key_range name keysym :
  resolve_key name = Some keysym → (keysym < 4294967296)%N.
Proof.
  unfold resolve_key. destruct (KEYSYM_MAP !! name) as [k|] eqn:E.
  - intros [= <-]. by eapply KEYSYM_MAP_range.
  - destruct name as [|c [|]]; try done. intros [= <-].
    unfold ord. pose proof (N_ascii_bounded c). lia.
Qed.

Lemma send_key_event_spec keysym down s :
  (keysym < 4294967296)%N →
  VncControl.send_key_event keysym down s
  = (Ok tt, Socket (incoming s) (sent s ++ key_event keysym down)).
Proof.
  intros Hk. unfold VncControl.send_key_event, bind, lift, pack_I.
  rewrite decide_True by done. reflexivity.
Qed.

(** The last four bytes of a key event are the keysym. *)
Lemma key_event_keysym keysym down :
  (keysym < 4294967296)%N →
  length (key_event keysym down) = 8 ∧
  from_bytes_big_N (drop 4 (key_event keysym down)) = keysym.
Proof. intros Hk. split; [done|]. by apply from_bytes_big_I. Qed.

Lemma send_keys_spec keys down s :
  Forall (λ k, k < 4294967296)%N keys →
  VncControl.send_keys keys down s
  = (Ok tt, Socket (incoming s) (sent s ++ concat ((λ k, key_event k down) <$> keys))).
Proof.
  intros Hk. revert s. induction Hk as [|k keys Hk _ IH]; intros s.
  - simpl. unfold ret. rewrite app_nil_r. by destruct s.
  - cbn [VncControl.send_keys]. unfold bind. rewrite send_key_event_spec by done.
    rewrite IH. simpl. rewrite <- app_assoc. done.
Qed.

Lemma resolve_parts_spec parts acc keys s :
  mapM resolve_key (strip <$> parts) = Some keys →
  VncControl.resolve_parts parts acc s = (Ok (acc ++ keys), s).
Proof.
  revert acc keys. induction parts as [|part parts IH]; intros acc keys H.
  - simpl in H. injection H as <-. simpl. by rewrite app_nil_r.
  - rewrite fmap_cons in H. apply mapM_Some_1 in H.
    apply Forall2_cons_inv_l in H as (k & keys' & Hk & Hrest & ->).
    apply mapM_Some_2 in Hrest.
    cbn [VncControl.resolve_parts]. unfold bind.
    unfold resolve_key in Hk.
    destruct (KEYSYM_MAP !! strip part) as [k'|] eqn:E.
    + injection Hk as ->. unfold ret at 1. rewrite (IH _ _ Hrest).
      by rewrite <- app_assoc.
    + destruct (strip part) as [|c [|]]; try done. injection Hk as <-.
      unfold ret at 1. rewrite (IH _ _ Hrest). by rewrite <- app_assoc.
Qed.

Lemma resolve_parts_unknown parts acc s :
  mapM resolve_key (strip <$> parts) = None →
  ∃ part, part ∈ strip <$> parts ∧ resolve_key part = None ∧
          VncControl.resolve_parts parts acc s = (Raise (UnknownKeyInCombo part), s).
Proof.
  revert acc. induction parts as [|part parts IH]; intros acc H; [done|].
  rewrite fmap_cons in H. cbn [mapM] in H.
  cbn [VncControl.resolve_parts]. unfold bind at 1.
  destruct (resolve_key (strip part)) as [k|] eqn:Hk.
  - assert (mapM resolve_key (strip <$> parts) = None) as Hrest.
    { destruct (mapM resolve_key (strip <$> parts)); [done|]. reflexivity. }
    destruct (IH (acc ++ [k]) Hrest) as (p & Hin & Hnone & E).
    exists p. split_and!; [rewrite fmap_cons; by right | done |].
    unfold resolve_key in Hk.
    destruct (KEYSYM_MAP !! strip part) as [k'|].
    + injection Hk as ->. exact E.
    + destruct (strip part) as [|c [|]]; try done. injection Hk as <-. exact E.
  - exists (strip part). split_and!; [rewrite fmap_cons; by left | done |].
    unfold resolve_key in Hk.
    destruct (KEYSYM_MAP !! strip part) as [k'|]; [done|].
    by destruct (strip part) as [|c [|]].
Qed.

(** A combination with a part that does not resolve raises the unknown-key
    error for that part before anything is sent. *)
Lemma key_combo_unknown combo s :
  mapM resolve_key (strip <$> split "+" (lower combo)) = None →
  ∃ part, resolve_key part = None ∧
          VncControl.key_combo combo s = (Raise (UnknownKeyInCombo part), s).
Proof.
  intros H. destruct (resolve_parts_unknown _ [] s H) as (part & _ & Hnone & E).
  exists part. split; [done|]. unfold VncControl.key_combo.
  by rewrite (bind_raise _ _ _ _ _ E).
Qed.

(** C9. [press_key] looks the lower-cased name up in the table; a name that
    is not there stands for its own code point when it is one character
    long and raises the unknown-key error otherwise, with nothing sent.  A
    resolved key is sent as a key-down followed by a key-up event.
    ["Return"] gives keysym [0xff0d], ["a"] gives [0x61], ["Zzz"] fails. *)
Theorem press_key_correct (key_name : string) (s : socket) :
  (∀ keysym, KEYSYM_MAP !! lower key_name = Some keysym →
     VncControl.press_key key_name s
     = (Ok tt, Socket (incoming s)
                 (sent s ++ key_event keysym true ++ key_event keysym false))) ∧
  (∀ c, KEYSYM_MAP !! lower key_name = None → key_name = String c EmptyString →
     VncControl.press_key key_name s
     = (Ok tt, Socket (incoming s)
                 (sent s ++ key_event (ord c) true ++ key_event (ord c) false))) ∧
  (KEYSYM_MAP !! lower key_name = None → String.length key_name ≠ 1 →
     VncControl.press_key key_name s = (Raise (UnknownKey key_name), s)) ∧
  VncControl.press_key "Return" s
  = (Ok tt, Socket (incoming s)
              (sent s ++ key_event 0xff0d true ++ key_event 0xff0d false)) ∧
  VncControl.press_key "a" s
  = (Ok tt, Socket (incoming s)
              (sent s ++ key_event 0x61 true ++ key_event 0x61 false)) ∧
  VncControl.press_key "Zzz" s = (Raise (UnknownKey "Zzz"), s).
Proof.
  assert (∀ keysym, (keysym < 4294967296)%N →
            (VncControl.send_key_event keysym true ;;;
             VncControl.send_key_event keysym false) s
            = (Ok tt, Socket (incoming s)
                 (sent s ++ key_event keysym true ++ key_event keysym false)))
    as Hsend.
  { intros k Hk. unfold bind. rewrite !send_key_event_spec by done.
    simpl. by rewrite <- app_assoc. }
  assert (∀ name keysym, KEYSYM_MAP !! lower name = Some keysym →
     VncControl.press_key name s
     = (Ok tt, Socket (incoming s)
                 (sent s ++ key_event keysym true ++ key_event keysym false)))
    as Htable.
  { intros name k Hk. unfold VncControl.press_key. rewrite Hk.
    unfold bind at 1, ret at 1. apply Hsend. by eapply KEYSYM_MAP_range. }
  assert (∀ c, KEYSYM_MAP !! lower (String c EmptyString) = None →
     VncControl.press_key (String c EmptyString) s
     = (Ok tt, Socket (incoming s)
                 (sent s ++ key_event (ord c) true ++ key_event (ord c) false)))
    as Hchar.
  { intros c Hnone. unfold VncControl.press_key. rewrite Hnone.
    unfold bind at 1, ret at 1.
    apply Hsend. unfold ord. pose proof (N_ascii_bounded c). lia. }
  assert (∀ name, KEYSYM_MAP !! lower name = None → String.length name ≠ 1 →
     VncControl.press_key name s = (Raise (UnknownKey name), s)) as Hfail.
  { intros name Hnone Hlen. unfold VncControl.press_key. rewrite Hnone.
    by destruct name as [|c [|]]. }
  split_and!.
  - apply Htable.
  - intros c Hnone ->. by apply Hchar.
  - apply Hfail.
  - apply Htable. by vm_compute.
  - apply (Hchar "a"%char). by vm_compute.
  - apply Hfail; [by vm_compute | simpl; lia].
Qed.

Lemma press_key_correct_witness :
  VncControl.press_key "Tab" (Socket [] [])
  = (Ok tt, Socket [] (key_event 0xff09 true ++ key_event 0xff09 false)).
Proof.
  apply (proj1 (press_key_correct "Tab" (Socket [] [])) 0xff09%N).
  vm_compute. reflexivity.
Defined.

(** C8. When every part of the lower-cased, [+]-separated combination
    resolves (after stripping blanks) to a keysym, [key_combo] sends the
    key-down events of these keysyms from left to right and then the key-up
    events of the same keysyms from right to left, and nothing else.
    ["ctrl+c"] gives down [0xffe3], down [0x63], up [0x63], up [0xffe3]. *)
Theorem key_combo_correct (combo : string) (keys : list N) (s : socket) :
  (mapM resolve_key (strip <$> split "+" (lower combo)) = Some keys →
   VncControl.key_combo combo s
   = (Ok tt, Socket (incoming s)
               (sent s ++ concat ((λ k, key_event k true) <$> keys)
                       ++ concat ((λ k, key_event k false) <$> reverse keys)))) ∧
  VncControl.key_combo "ctrl+c" s
  = (Ok tt, Socket (incoming s)
              (sent s ++ key_event 0xffe3 true ++ key_event 0x63 true
                      ++ key_event 0x63 false ++ key_event 0xffe3 false)).
Proof.
  assert (∀ combo keys,
    mapM resolve_key (strip <$> split "+" (lower combo)) = Some keys →
    VncControl.key_combo combo s
    = (Ok tt, Socket (incoming s)
                (sent s ++ concat ((λ k, key_event k true) <$> keys)
                        ++ concat ((λ k, key_event k false) <$> reverse keys))))
    as Hgen.
  { clear combo keys. intros combo keys H.
    assert (Forall (λ k, k < 4294967296)%N keys) as Hrange.
    { apply mapM_Some_1 in H. apply Forall_forall. intros k Hk.
      apply list_elem_of_lookup in Hk as [i Hi].
      destruct (Forall2_lookup_r _ _ _ _ _ H Hi) as (part & _ & Hres).
      by eapply resolve_key_range. }
    unfold VncControl.key_combo. unfold bind at 1.
    rewrite (resolve_parts_spec _ [] keys s H). simpl app.
    unfold bind. rewrite send_keys_spec by done.
    rewrite send_keys_spec by by apply Forall_reverse.
    simpl. by rewrite <- app_assoc. }
  split; [by apply Hgen|].
  rewrite (Hgen "ctrl+c" [0xffe3; 0x63]%N) by (by vm_compute).
  reflexivity.
Qed.

Lemma key_combo_correct_witness :
  VncControl.key_combo "ctrl+shift+a" (Socket [] [])
  = (Ok tt, Socket []
       (concat ((λ k, key_event k true) <$> [0xffe3; 0xffe1; 0x61]%N) ++
        concat ((λ k, key_event k false) <$> reverse [0xffe3; 0xffe1; 0x61]%N))).
Proof.
  apply (proj1 (key_combo_correct "ctrl+shift+a" [0xffe3; 0xffe1; 0x61]%N
                  (Socket [] []))).
  vm_compute. reflexivity.
Defined.

(** ** The handshake *)

Lemma sock_recv_eq n inc out data inc' :
  recv_segments n inc = (data, inc') →
  sock_recv n (Socket inc out) = (Ok data, Socket inc' out).
Proof. intros H. unfold sock_recv. simpl. by rewrite H. Qed.

Lemma appends_ret {A} (a : A) : appends (ret a).
Proof. intros s r s' [= <- <-]. exists []. by rewrite app_nil_r. Qed.

Lemma appends_raise {A} e : appends (@raise A e).
Proof. intros s r s' [= <- <-]. exists []. by rewrite app_nil_r. Qed.

Lemma appends_lift {A} (r : result A) : appends (lift r).
Proof. intros s r' s' [= <- <-]. exists []. by rewrite app_nil_r. Qed.

Lemma appends_recv n : appends (sock_recv n).
Proof.
  intros s r s' H. unfold sock_recv in H.
  destruct (recv_segments n (incoming s)). injection H as <- <-.
  exists []. simpl. by rewrite app_nil_r.
Qed.

Lemma appends_send msg : appends (sock_send msg).
Proof. intros s r s' [= <- <-]. by exists msg. Qed.

Lemma appends_bind {A B} (m : M A) (k : A → M B) :
  appends m → (∀ a, appends (k a)) → appends (bind m k).
Proof.
  intros Hm Hk s r s' H. unfold bind in H.
  destruct (m s) as [[a|e] s1] eqn:E.
  - destruct (Hm _ _ _ E) as [t1 H1]. destruct (Hk a _ _ _ H) as [t2 H2].
    exists (t1 ++ t2). by rewrite H2, H1, app_assoc.
  - injection H as <- <-. by eapply Hm.
Qed.

Ltac solve_appends :=
  repeat first
    [ apply appends_ret | apply appends_raise | apply appends_lift
    | apply appends_recv | apply appends_send
    | apply appends_bind; [|intros ?]
    | case_decide ].

Lemma appends_sends_first {A} (m : M A) inc out msg :
  appends m →
  ∃ r s' tail, m (Socket inc (out ++ msg)) = (r, s') ∧ sent s' = out ++ msg ++ tail.
Proof.
  intros Hm. destruct (m (Socket inc (out ++ msg))) as [r s'] eqn:E.
  destruct (Hm _ _ _ E) as [tail Ht]. exists r, s', tail.
  split; [done|]. rewrite Ht. simpl. by rewrite <- app_assoc.
Qed.

Ltac step_recv H :=
  erewrite bind_ok by (apply sock_recv_eq; exact H).
Ltac step_pure :=
  erewrite bind_ok by reflexivity.

Lemma to_nat_x00 b : Byte.to_nat b = 0 ↔ b = x00.
Proof. split; [|by intros ->]. by destruct b. Qed.

Lemma unpack_I_length lenb :
  length lenb = 4 → unpack_I lenb = Ok (from_bytes_big lenb).
Proof. destruct lenb as [|? [|? [|? [|? [|]]]]]; by try done. Qed.

Section Negotiation.
Variable des_block : bytes → bytes → bytes.
Variable password : string.

Lemma connect_rejected inc out ver i1 i2 lenb i3 msg i4 :
  recv_segments 12 inc = (ver, i1) →
  delivers i1 [x00] i2 →
  length lenb = 4 → delivers i2 lenb i3 →
  length msg = from_bytes_big lenb → delivers i3 msg i4 →
  VncControl.connect des_block password (Socket inc out)
  = (Raise (VncError (Utf8Replace msg)), Socket i4 (out ++ RFB_VERSION)).
Proof.
  unfold delivers. intros Hver Hcnt Hl4 Hlen Hm Hmsg.
  rewrite Hl4 in Hlen. rewrite Hm in Hmsg.
  unfold VncControl.connect.
  step_recv Hver. step_pure. cbn [sent incoming]. step_recv Hcnt. step_pure.
  rewrite decide_True by done.
  step_recv Hlen. erewrite bind_ok by (unfold lift; by rewrite unpack_I_length).
  step_recv Hmsg. reflexivity.
Qed.

Lemma handshake_rejected inc out ver i1 i2 lenb i3 msg i4 :
  recv_segments 12 inc = (ver, i1) →
  delivers i1 [x00] i2 →
  length lenb = 4 → delivers i2 lenb i3 →
  length msg = from_bytes_big lenb → delivers i3 msg i4 →
  VncScreenshot.handshake des_block password (Socket inc out)
  = (Raise (VncError (Utf8Replace msg)), Socket i4 (out ++ RFB_VERSION)).
Proof.
  unfold delivers. intros Hver Hcnt Hl4 Hlen Hm Hmsg.
  rewrite Hl4 in Hlen. rewrite Hm in Hmsg.
  unfold VncScreenshot.handshake.
  step_recv Hver. step_pure. cbn [sent incoming]. step_recv Hcnt. step_pure.
  rewrite decide_True by done.
  step_recv Hlen. erewrite bind_ok by (unfold lift; by rewrite unpack_I_length).
  step_recv Hmsg. reflexivity.
Qed.

Lemma connect_selects inc out ver i1 cnt i2 types i3 :
  recv_segments 12 inc = (ver, i1) →
  delivers i1 [cnt] i2 → cnt ≠ x00 →
  length types = Byte.to_nat cnt → delivers i2 types i3 →
  let offered := Byte.to_nat <$> types in
  let s := Socket inc out in
  (2 ∈ offered →
     sends_first (VncControl.connect des_block password) s (RFB_VERSION ++ [x02])) ∧
  (2 ∉ offered → 1 ∈ offered →
     sends_first (VncControl.connect des_block password) s (RFB_VERSION ++ [x01])) ∧
  (2 ∉ offered → 1 ∉ offered →
     VncControl.connect des_block password s
     = (Raise (NoSupportedSecurity offered), Socket i3 (out ++ RFB_VERSION))).
Proof.
  unfold delivers. intros Hver Hcnt Hne Hl Htypes.
  set (offered := Byte.to_nat <$> types).
  rewrite Hl in Htypes.
  assert (Byte.to_nat cnt ≠ 0) as Hn0 by by rewrite to_nat_x00.
  unfold sends_first, VncControl.connect.
  step_recv Hver. step_pure. cbn [sent incoming]. step_recv Hcnt. step_pure.
  rewrite decide_False by done. step_recv Htypes. fold offered.
  split_and!.
  - intros H2. rewrite decide_True by done. rewrite !bind_assoc.
    step_pure. cbn [sent incoming]. rewrite <- (app_assoc out).
    apply appends_sends_first. solve_appends.
  - intros H2 H1. rewrite decide_False, decide_True by done.
    step_pure. cbn [sent incoming]. rewrite <- (app_assoc out).
    apply appends_sends_first. solve_appends.
  - intros H2 H1. rewrite !decide_False by done. reflexivity.
Qed.

Lemma handshake_selects inc out ver i1 cnt i2 types i3 :
  recv_segments 12 inc = (ver, i1) →
  delivers i1 [cnt] i2 → cnt ≠ x00 →
  length types = Byte.to_nat cnt → delivers i2 types i3 →
  let offered := Byte.to_nat <$> types in
  let s := Socket inc out in
  (2 ∈ offered →
     sends_first (VncScreenshot.handshake des_block password) s
       (RFB_VERSION ++ [x02])) ∧
  (2 ∉ offered → 1 ∈ offered →
     sends_first (VncScreenshot.handshake des_block password) s
       (RFB_VERSION ++ [x01])) ∧
  (2 ∉ offered → 1 ∉ offered →
     VncScreenshot.handshake des_block password s
     = (Raise (NoSupportedSecurity offered), Socket i3 (out ++ RFB_VERSION))).
Proof.
  unfold delivers. intros Hver Hcnt Hne Hl Htypes.
  set (offered := Byte.to_nat <$> types).
  rewrite Hl in Htypes.
  assert (Byte.to_nat cnt ≠ 0) as Hn0 by by rewrite to_nat_x00.
  unfold sends_first, VncScreenshot.handshake.
  step_recv Hver. step_pure. cbn [sent incoming]. step_recv Hcnt. step_pure.
  rewrite decide_False by done. step_recv Htypes. fold offered.
  split_and!.
  - intros H2. rewrite decide_True by done. rewrite !bind_assoc.
    step_pure. cbn [sent incoming]. rewrite <- (app_assoc out).
    apply appends_sends_first. solve_appends.
  - intros H2 H1. rewrite decide_False, decide_True by done.
    step_pure. cbn [sent incoming]. rewrite <- (app_assoc out).
    apply appends_sends_first. solve_appends.
  - intros H2 H1. rewrite !decide_False by done. reflexivity.
Qed.
(** With VNCAuth selected and the 16-byte challenge delivered whole, what
    goes out after the selection byte is the response of [auth_response]. *)
Lemma connect_sends_response inc out ver i1 cnt i2 types i3 challenge i4 response :
  recv_segments 12 inc = (ver, i1) →
  delivers i1 [cnt] i2 → cnt ≠ x00 →
  length types = Byte.to_nat cnt → delivers i2 types i3 →
  2 ∈ Byte.to_nat <$> types →
  length challenge = 16 → delivers i3 challenge i4 →
  VncControl.auth_response des_block (VncControl.password_key password) challenge
  = Ok response →
  sends_first (VncControl.connect des_block password) (Socket inc out)
    (RFB_VERSION ++ [x02] ++ response) ∧
  sends_first (VncScreenshot.handshake des_block password) (Socket inc out)
    (RFB_VERSION ++ [x02] ++ response).
Proof.
  unfold delivers. intros Hver Hcnt Hne Hl Htypes H2 Hc Hch Hresp.
  rewrite Hl in Htypes. rewrite Hc in Hch.
  assert (Byte.to_nat cnt ≠ 0) as Hn0 by by rewrite to_nat_x00.
  unfold sends_first. split.
  - unfold VncControl.connect.
    step_recv Hver. step_pure. cbn [sent incoming]. step_recv Hcnt. step_pure.
    rewrite decide_False by done. step_recv Htypes.
    rewrite decide_True by done. rewrite !bind_assoc.
    step_pure. cbn [sent incoming]. rewrite !bind_assoc. step_recv Hch.
    rewrite !bind_assoc.
    erewrite bind_ok by (unfold lift; rewrite Hresp; reflexivity).
    rewrite !bind_assoc. step_pure. cbn [sent incoming].
    rewrite <- !(app_assoc out), <- (app_assoc RFB_VERSION).
    apply appends_sends_first. solve_appends.
  - unfold VncScreenshot.handshake.
    step_recv Hver. step_pure. cbn [sent incoming]. step_recv Hcnt. step_pure.
    rewrite decide_False by done. step_recv Htypes.
    rewrite decide_True by done. rewrite !bind_assoc.
    step_pure. cbn [sent incoming]. rewrite !bind_assoc. step_recv Hch.
    rewrite !bind_assoc.
    change (VncScreenshot.auth_response des_block
              (VncScreenshot.password_key password) challenge)
      with (VncControl.auth_response des_block
              (VncControl.password_key password) challenge).
    erewrite bind_ok by (unfold lift; rewrite Hresp; reflexivity).
    rewrite !bind_assoc. step_pure. cbn [sent incoming].
    rewrite <- !(app_assoc out), <- (app_assoc RFB_VERSION).
    apply appends_sends_first. solve_appends.
Qed.
End Negotiation.

(** Security negotiation, in both programs, once the server's version has
    been read and the count byte has arrived, when the length word, the
    message and the type list are each returned whole by their [recv].  A
    zero count followed by a 4-byte length and the message bytes makes the
    handshake fail with the "VNC error" exception carrying that message.
    Otherwise: if 2 is among the offered types the client answers with
    type 2; else if 1 is among them it answers with type 1; else the
    handshake fails with the "no supported security type" exception
    carrying the offered types.  The answer is the first byte written after
    the client's version string. *)
Lemma negotiation_of_whole_messages (des_block : bytes → bytes → bytes)
    (password : string) (inc : list bytes) (out ver : bytes) (i1 : list bytes)
    (cnt : byte) (i2 : list bytes) :
  recv_segments 12 inc = (ver, i1) →
  delivers i1 [cnt] i2 →
  let s := Socket inc out in
  let connect := VncControl.connect des_block password in
  let handshake := VncScreenshot.handshake des_block password in
  (cnt = x00 →
   ∀ lenb i3 msg i4,
     length lenb = 4 → delivers i2 lenb i3 →
     length msg = from_bytes_big lenb → delivers i3 msg i4 →
     connect s = (Raise (VncError (Utf8Replace msg)), Socket i4 (out ++ RFB_VERSION)) ∧
     handshake s = (Raise (VncError (Utf8Replace msg)), Socket i4 (out ++ RFB_VERSION))) ∧
  (cnt ≠ x00 →
   ∀ types i3,
     length types = Byte.to_nat cnt → delivers i2 types i3 →
     let offered := Byte.to_nat <$> types in
     (2 ∈ offered →
        sends_first connect s (RFB_VERSION ++ [x02]) ∧
        sends_first handshake s (RFB_VERSION ++ [x02])) ∧
     (2 ∉ offered → 1 ∈ offered →
        sends_first connect s (RFB_VERSION ++ [x01]) ∧
        sends_first handshake s (RFB_VERSION ++ [x01])) ∧
     (2 ∉ offered → 1 ∉ offered →
        connect s = (Raise (NoSupportedSecurity offered), Socket i3 (out ++ RFB_VERSION)) ∧
        handshake s
        = (Raise (NoSupportedSecurity offered), Socket i3 (out ++ RFB_VERSION)))).
Proof.
  intros Hver Hcnt. cbn zeta. split.
  - intros -> lenb i3 msg i4 Hl4 Hlen Hm Hmsg. split.
    + by eapply connect_rejected.
    + by eapply handshake_rejected.
  - intros Hne types i3 Hl Htypes.
    destruct (connect_selects des_block password inc out ver i1 cnt i2 types i3)
      as (C2 & C1 & C0); try done.
    destruct (handshake_selects des_block password inc out ver i1 cnt i2 types i3)
      as (S2 & S1 & S0); try done.
    split_and!; auto.
Qed.

Ltac by_decide :=
  match goal with
  | |- ?P => apply (bool_decide_unpack P); vm_compute; exact I
  end.

Lemma negotiation_of_whole_messages_instances :
  VncControl.connect toy_des_block "secret"
    (Socket [RFB_VERSION; [x00]; [x00; x00; x00; x02; "n"; "o"]%byte] [])
  = (Raise (VncError (Utf8Replace ["n"; "o"]%byte)), Socket [] RFB_VERSION) ∧
  sends_first (VncControl.connect toy_des_block "secret")
    (Socket [RFB_VERSION; [x02; x01; x02]] []) (RFB_VERSION ++ [x02]) ∧
  VncControl.connect toy_des_block "secret" (Socket [RFB_VERSION; [x01; x05]] [])
  = (Raise (NoSupportedSecurity [5]), Socket [] RFB_VERSION).
Proof.
  split_and!.
  - refine (proj1 (proj1 (negotiation_of_whole_messages toy_des_block "secret"
      [RFB_VERSION; [x00]; [x00; x00; x00; x02; "n"; "o"]%byte] [] RFB_VERSION
      [[x00]; [x00; x00; x00; x02; "n"; "o"]%byte] x00
      [[x00; x00; x00; x02; "n"; "o"]%byte] eq_refl eq_refl) eq_refl
      [x00; x00; x00; x02] [["n"; "o"]%byte] ["n"; "o"]%byte []
      eq_refl eq_refl eq_refl eq_refl)).
  - refine (proj1 (proj1 (proj2 (negotiation_of_whole_messages toy_des_block "secret"
      [RFB_VERSION; [x02; x01; x02]] [] RFB_VERSION [[x02; x01; x02]] x02
      [[x01; x02]] eq_refl eq_refl) _ [x01; x02] [] eq_refl eq_refl) _));
      [discriminate | by_decide].
  - refine (proj1 (proj2 (proj2 (proj2 (negotiation_of_whole_messages toy_des_block "secret"
      [RFB_VERSION; [x01; x05]] [] RFB_VERSION [[x01; x05]] x01
      [[x05]] eq_refl eq_refl) _ [x05] [] eq_refl eq_refl)) _ _));
      [discriminate | by_decide | by_decide].
Defined.

(** C5.  The type list, the length word and the message of the negotiation
    are each read with one plain [recv].  On [split_type_list] the server
    offers types 1 and 2 and the two type bytes arrive one after the other:
    both programs take the first byte for the whole list and answer with
    type 1, although type 2 is offered, and then take the second type byte
    for ServerInit.  On [split_error_message] the rejection carries the
    first two of the five bytes of the server's message, and on
    [split_error_length] the handshake fails with [struct.error] instead of
    the rejection.  [recv_exact], asked for the two type bytes of
    [split_type_list], returns both. *)
Theorem negotiation_misreads_split_messages (des_block : bytes → bytes → bytes)
    (password : string) :
  let connect := VncControl.connect des_block password in
  let handshake := VncScreenshot.handshake des_block password in
  (sends_first connect (Socket split_type_list []) (RFB_VERSION ++ [x01]) ∧
   sends_first handshake (Socket split_type_list []) (RFB_VERSION ++ [x01]) ∧
   connect (Socket split_type_list [])
   = (Raise StructError, Socket [] (RFB_VERSION ++ [x01; x01])) ∧
   handshake (Socket split_type_list [])
   = (Raise StructError, Socket [] (RFB_VERSION ++ [x01; x01])) ∧
   VncControl.recv_exact 2 (Socket [[x01]; [x02]] [])
   = (Ok [x01; x02], Socket [] [])) ∧
  (connect (Socket split_error_message [])
   = (Raise (VncError (Utf8Replace ["a"; "b"]%byte)),
      Socket [["c"; "d"; "e"]%byte] RFB_VERSION) ∧
   handshake (Socket split_error_message [])
   = (Raise (VncError (Utf8Replace ["a"; "b"]%byte)),
      Socket [["c"; "d"; "e"]%byte] RFB_VERSION)) ∧
  (connect (Socket split_error_length [])
   = (Raise StructError,
      Socket [[x00; x05]; ["a"; "b"; "c"; "d"; "e"]%byte] RFB_VERSION) ∧
   handshake (Socket split_error_length [])
   = (Raise StructError,
      Socket [[x00; x05]; ["a"; "b"; "c"; "d"; "e"]%byte] RFB_VERSION)).
Proof.
  cbn zeta. split_and!; try (vm_compute; reflexivity).
  - exists (Raise StructError), (Socket [] (RFB_VERSION ++ [x01; x01])), [x01].
    split; vm_compute; reflexivity.
  - exists (Raise StructError), (Socket [] (RFB_VERSION ++ [x01; x01])), [x01].
    split; vm_compute; reflexivity.
Qed.

(** ** The wire format of a framebuffer update *)

Lemma encode_header_length h : length (encode_header h) = 12.
Proof. reflexivity. Qed.

Lemma unpack_encode_header r :
  wf_rect r → unpack_HHHHi (encode_header (hdr r)) = Ok (hdr r).
Proof.
  intros (Hx & Hy & Hw & Hh & He & _). destruct r as [[x y w h e] p].
  cbn [hdr rx ry rw rh encoding] in *.
  unfold encode_header, unpack_HHHHi. cbn [rx ry rw rh encoding].
  change (to_bytes_H ?n) with [byte_of_nat (n / 256); byte_of_nat (n `mod` 256)].
  unfold to_bytes_i, to_bytes_I. cbn [app].
  f_equal.
  rewrite <- (from_bytes_big_H x) at 3 by done.
  rewrite <- (from_bytes_big_H y) at 3 by done.
  rewrite <- (from_bytes_big_H w) at 3 by done.
  rewrite <- (from_bytes_big_H h) at 3 by done.
  rewrite <- (signed32_to_bytes_i e) at 5 by done.
  reflexivity.
Qed.

Lemma recv_exact_app data rest s :
  pending s = data ++ rest →
  ∃ s', VncControl.recv_exact (length data) s = (Ok data, s') ∧
        pending s' = rest ∧ sent s' = sent s.
Proof.
  intros Hp. destruct (recv_exact_ok (length data) s) as (s' & E & P & S).
  { rewrite Hp, length_app. lia. }
  exists s'. rewrite Hp in E, P. rewrite take_app_length in E.
  rewrite drop_app_length in P. done.
Qed.

(** ** Running the rectangle loops on an encoded update *)

Lemma raw_payload_length r :
  wf_rect r → is_raw r → length (payload r) = rw (hdr r) * rh (hdr r) * 4.
Proof. intros (_ & _ & _ & _ & _ & H & _) Hr. by apply H. Qed.

Lemma control_receive_rects_run width rects :
  Forall wf_rect rects →
  ∀ fb s rest,
    pending s = concat (encode_rect <$> rects) ++ rest →
    ∃ s', VncControl.receive_rects (length rects) width fb s
          = (Ok (composite width (filter is_raw rects) fb), s') ∧
          pending s' = rest ∧ sent s' = sent s.
Proof.
  induction 1 as [|r rects Hr _ IH]; intros fb s rest Hp.
  - exists s. done.
  - rewrite fmap_cons in Hp. cbn [concat] in Hp. unfold encode_rect at 1 in Hp.
    rewrite <- !app_assoc in Hp.
    destruct (recv_exact_app _ _ _ Hp) as (s1 & E1 & P1 & S1).
    rewrite encode_header_length in E1.
    cbn [length VncControl.receive_rects].
    rewrite (bind_ok _ _ _ _ _ E1).
    erewrite bind_ok by (unfold lift; by rewrite unpack_encode_header).
    rewrite filter_cons. unfold is_raw at 1.
    destruct (decide (encoding (hdr r) = 0%Z)) as [Hraw|Hraw].
    + destruct (recv_exact_app _ _ _ P1) as (s2 & E2 & P2 & S2).
      rewrite raw_payload_length in E2 by done.
      rewrite (bind_ok _ _ _ _ _ E2).
      destruct (IH (VncControl.copy_rows width (hdr r) (payload r) fb) s2 rest P2)
        as (s' & E & P & S).
      exists s'. split_and!; [exact E | done | congruence].
    + destruct Hr as (_ & _ & _ & _ & _ & _ & Hnil). rewrite Hnil in P1 by done.
      destruct (IH fb s1 rest P1) as (s' & E & P & S).
      exists s'. split_and!; [exact E | done | congruence].
Qed.

Lemma screenshot_receive_rects_run width rects :
  Forall wf_rect rects →
  ∀ fb s rest,
    pending s = concat (encode_rect <$> rects) ++ rest →
    ∃ s', VncScreenshot.receive_rects (length rects) width fb s
          = (Ok (composite width (raw_prefix rects) fb), s') ∧
          (Forall is_raw rects → pending s' = rest) ∧ sent s' = sent s.
Proof.
  induction 1 as [|r rects Hr _ IH]; intros fb s rest Hp.
  - exists s. done.
  - rewrite fmap_cons in Hp. cbn [concat] in Hp. unfold encode_rect at 1 in Hp.
    rewrite <- !app_assoc in Hp.
    destruct (recv_exact_app _ _ _ Hp) as (s1 & E1 & P1 & S1).
    rewrite encode_header_length in E1.
    cbn [length VncScreenshot.receive_rects raw_prefix].
    rewrite recv_exact_same.
    rewrite (bind_ok _ _ _ _ _ E1).
    erewrite bind_ok by (unfold lift; by rewrite unpack_encode_header).
    unfold is_raw at 1.
    destruct (decide (encoding (hdr r) = 0%Z)) as [Hraw|Hraw].
    + destruct (recv_exact_app _ _ _ P1) as (s2 & E2 & P2 & S2).
      rewrite raw_payload_length in E2 by done.
      rewrite (bind_ok _ _ _ _ _ E2).
      destruct (IH (VncControl.copy_rows width (hdr r) (payload r) fb) s2 rest P2)
        as (s' & E & P & S).
      exists s'. split_and!; [exact E | | congruence].
      intros Hall. apply P. by eapply Forall_cons_1.
    + exists s1. split_and!; [done | | done].
      intros Hall. apply Forall_cons_1 in Hall as [Hr' _]. done.
Qed.

Lemma raw_prefix_all rects : Forall is_raw rects → raw_prefix rects = rects.
Proof.
  induction 1 as [|r rects Hr _ IH]; [done|].
  simpl. rewrite decide_True by done. by rewrite IH.
Qed.

Lemma filter_raw_all rects : Forall is_raw rects → filter is_raw rects = rects.
Proof.
  induction 1 as [|r rects Hr _ IH]; [done|].
  rewrite filter_cons, decide_True by done. by rewrite IH.
Qed.

Lemma unpack_H_to_bytes n : n < 256 * 256 → unpack_H (to_bytes_H n) = Ok n.
Proof.
  intros Hn. rewrite <- (from_bytes_big_H n) at 2 by done. reflexivity.
Qed.

Lemma control_receive_loop_update fuel width rects fb s rest :
  length rects < 256 * 256 →
  Forall wf_rect rects →
  pending s = encode_update rects ++ rest →
  ∃ s', VncControl.receive_loop (S fuel) width fb s
        = (Ok (composite width (filter is_raw rects) fb), s') ∧
        pending s' = rest ∧ sent s' = sent s.
Proof.
  intros Hn Hwf Hp. unfold encode_update in Hp.
  change ([x00; x00] ++ ?l) with ([x00] ++ [x00] ++ l) in Hp.
  rewrite <- !app_assoc in Hp.
  destruct (recv_exact_app _ _ _ Hp) as (s1 & E1 & P1 & S1).
  destruct (recv_exact_app _ _ _ P1) as (s2 & E2 & P2 & S2).
  destruct (recv_exact_app _ _ _ P2) as (s3 & E3 & P3 & S3).
  destruct (control_receive_rects_run width rects Hwf fb s3 rest P3)
    as (s' & E & P & S).
  cbn [VncControl.receive_loop].
  rewrite (bind_ok _ _ _ _ _ E1). erewrite bind_ok by reflexivity.
  rewrite decide_True by done.
  rewrite (bind_ok _ _ _ _ _ E2). rewrite (bind_ok _ _ _ _ _ E3).
  erewrite bind_ok by (unfold lift; by rewrite unpack_H_to_bytes).
  exists s'. split_and!; [exact E | done | congruence].
Qed.

Lemma screenshot_receive_loop_update fuel width rects fb s rest :
  length rects < 256 * 256 →
  Forall wf_rect rects →
  pending s = encode_update rects ++ rest →
  ∃ s', VncScreenshot.receive_loop (S fuel) width fb s
        = (Ok (composite width (raw_prefix rects) fb), s') ∧
        (Forall is_raw rects → pending s' = rest) ∧ sent s' = sent s.
Proof.
  intros Hn Hwf Hp. unfold encode_update in Hp.
  change ([x00; x00] ++ ?l) with ([x00] ++ [x00] ++ l) in Hp.
  rewrite <- !app_assoc in Hp.
  destruct (recv_exact_app _ _ _ Hp) as (s1 & E1 & P1 & S1).
  destruct (recv_exact_app _ _ _ P1) as (s2 & E2 & P2 & S2).
  destruct (recv_exact_app _ _ _ P2) as (s3 & E3 & P3 & S3).
  destruct (screenshot_receive_rects_run width rects Hwf fb s3 rest P3)
    as (s' & E & P & S).
  cbn [VncScreenshot.receive_loop]. rewrite recv_exact_same.
  rewrite (bind_ok _ _ _ _ _ E1). erewrite bind_ok by reflexivity.
  rewrite decide_True by done.
  rewrite (bind_ok _ _ _ _ _ E2). rewrite (bind_ok _ _ _ _ _ E3).
  erewrite bind_ok by (unfold lift; by rewrite unpack_H_to_bytes).
  exists s'. split_and!; [exact E | done | congruence].
Qed.

Lemma control_capture_update self rects s rest :
  VncControl.width self < 256 * 256 → VncControl.height self < 256 * 256 →
  length rects < 256 * 256 →
  Forall wf_rect rects →
  pending s = encode_update rects ++ rest →
  ∃ s', VncControl.capture_screenshot self s
        = (Ok (composite (VncControl.width self) (filter is_raw rects)
                 (bytearray (VncControl.width self * VncControl.height self * 4))),
           s') ∧
        pending s' = rest ∧
        sent s' = sent s
                  ++ capture_requests (VncControl.width self) (VncControl.height self).
Proof.
  intros Hw Hh Hn Hwf Hp. unfold VncControl.capture_screenshot.
  do 2 erewrite bind_ok by reflexivity.
  erewrite bind_ok
    by (unfold lift, pack_update_request; by rewrite !decide_True by done).
  erewrite bind_ok by reflexivity.
  match goal with
  | |- context [VncControl.receive_loop _ _ _ ?s0] =>
      destruct (control_receive_loop_update (length (pending s0))
                  (VncControl.width self) rects
                  (bytearray (VncControl.width self * VncControl.height self * 4))
                  s0 rest Hn Hwf Hp) as (s' & E & P & S)
  end.
  exists s'. split_and!; [exact E | done |].
  rewrite S. cbn [sent]. unfold capture_requests. by rewrite <- !app_assoc.
Qed.

Lemma screenshot_capture_update width height rects s rest :
  width < 256 * 256 → height < 256 * 256 →
  length rects < 256 * 256 →
  Forall wf_rect rects →
  pending s = encode_update rects ++ rest →
  ∃ s', VncScreenshot.receive_framebuffer width height s
        = (Ok (composite width (raw_prefix rects) (bytearray (width * height * 4))),
           s') ∧
        (Forall is_raw rects → pending s' = rest) ∧
        sent s' = sent s ++ capture_requests width height.
Proof.
  intros Hw Hh Hn Hwf Hp. unfold VncScreenshot.receive_framebuffer.
  do 2 erewrite bind_ok by reflexivity.
  erewrite bind_ok
    by (unfold lift, pack_update_request; by rewrite !decide_True by done).
  erewrite bind_ok by reflexivity.
  match goal with
  | |- context [VncScreenshot.receive_loop _ _ _ ?s0] =>
      destruct (screenshot_receive_loop_update (length (pending s0))
                  width rects (bytearray (width * height * 4))
                  s0 rest Hn Hwf Hp) as (s' & E & P & S)
  end.
  exists s'. split_and!; [exact E | done |].
  rewrite S. cbn [sent]. unfold capture_requests. by rewrite <- !app_assoc.
Qed.

(** ** Compositing *)

Lemma slice_assign_lookup {A} (fb v : list A) a n i :
  length v = n → a + n ≤ length fb →
  slice_assign fb a (a + n) v !! i
  = if decide (a ≤ i < a + n) then v !! (i - a) else fb !! i.
Proof.
  intros Hv Hfb. unfold slice_assign.
  replace (a `max` (a + n)) with (a + n) by lia.
  destruct (decide (i < a)) as [Hlt|Hge].
  - rewrite decide_False by lia.
    rewrite lookup_app_l by (rewrite length_take; lia).
    by rewrite lookup_take_lt.
  - rewrite lookup_app_r by (rewrite length_take; lia).
    rewrite length_take. replace (a `min` length fb) with a by lia.
    destruct (decide (i < a + n)) as [Hin|Hout].
    + rewrite decide_True by lia. by rewrite lookup_app_l by lia.
    + rewrite decide_False by lia. rewrite lookup_app_r by lia.
      rewrite lookup_drop. f_equal. lia.
Qed.

Lemma slice_assign_length {A} (fb v : list A) a b :
  length (slice_assign fb a b v)
  = a `min` length fb + length v + (length fb - a `max` b).
Proof.
  unfold slice_assign. rewrite !length_app, length_take, length_drop. lia.
Qed.

Lemma slice_length {A} (l : list A) a n :
  a + n ≤ length l → length (slice l a (a + n)) = n.
Proof. intros H. unfold slice. rewrite length_take, length_drop. lia. Qed.

Lemma slice_lookup {A} (l : list A) a n j :
  j < n → slice l a (a + n) !! j = l !! (a + j).
Proof.
  intros Hj. unfold slice. rewrite lookup_take_lt by lia. by rewrite lookup_drop.
Qed.

Lemma row_hit width row col k r x w :
  col < width → k < 4 → x + w ≤ width →
  (r * width + x) * 4 ≤ pixel_index width row col k < (r * width + x) * 4 + w * 4
  ↔ row = r ∧ x ≤ col < x + w.
Proof.
  intros Hc Hk Hw. unfold pixel_index. split.
  - intros [H1 H2]. destruct (lt_eq_lt_dec row r) as [[Hlt|Heq]|Hgt].
    + assert ((row + 1) * width ≤ r * width) by (apply Nat.mul_le_mono_r; lia). lia.
    + subst. lia.
    + assert ((r + 1) * width ≤ row * width) by (apply Nat.mul_le_mono_r; lia). lia.
  - intros [-> H]. lia.
Qed.

Lemma copy_rows_lookup width height h data fb :
  in_display width height h →
  length fb = width * height * 4 →
  length data = rw h * rh h * 4 →
  length (VncControl.copy_rows width h data fb) = length fb ∧
  ∀ row col k, row < height → col < width → k < 4 →
    VncControl.copy_rows width h data fb !! pixel_index width row col k
    = if decide (covers h row col) then data !! payload_index h row col k
      else fb !! pixel_index width row col k.
Proof.
  intros [Hx Hy] Hfb Hdata. unfold VncControl.copy_rows.
  set (step := λ (framebuffer : bytes) (row : nat), slice_assign framebuffer _ _ _).
  assert (∀ m, m ≤ rh h →
    length (foldl step fb (seq 0 m)) = length fb ∧
    ∀ row col k, row < height → col < width → k < 4 →
      foldl step fb (seq 0 m) !! pixel_index width row col k
      = if decide (ry h ≤ row < ry h + m ∧ rx h ≤ col < rx h + rw h)
        then data !! payload_index h row col k
        else fb !! pixel_index width row col k) as Hrows.
  { induction m as [|m IH]; intros Hm.
    - split; [done|]. intros row col k _ _ _. simpl. by rewrite decide_False by lia.
    - destruct IH as [IHlen IHlook]; [lia|].
      rewrite seq_S, foldl_app. cbn [foldl plus]. unfold step at 1 3.
      assert ((m + 1) * rw h ≤ rh h * rw h) as Hsrc
        by (apply Nat.mul_le_mono_r; lia).
      assert ((ry h + m + 1) * width ≤ height * width) as Hdst
        by (apply Nat.mul_le_mono_r; lia).
      assert (length (slice data (m * rw h * 4) (m * rw h * 4 + rw h * 4)) = rw h * 4)
        as Hslice by (apply slice_length; lia).
      split.
      + rewrite slice_assign_length, Hslice, IHlen. lia.
      + intros row col k Hrow Hcol Hk.
        rewrite slice_assign_lookup by (done || lia).
        destruct (decide (_ ≤ pixel_index width row col k < _)) as [Hhit|Hmiss].
        * apply row_hit in Hhit as [-> Hc]; [|done..].
          rewrite decide_True by lia.
          rewrite slice_lookup by (unfold pixel_index; lia).
          f_equal. unfold payload_index, pixel_index.
          replace (ry h + m - ry h) with m by lia. lia.
        * rewrite row_hit in Hmiss by done.
          rewrite IHlook by done.
          destruct (decide (ry h ≤ row < ry h + m ∧ rx h ≤ col < rx h + rw h)).
          -- by rewrite decide_True by lia.
          -- by rewrite decide_False by lia. }
  destruct (Hrows (rh h)) as [Hlen Hlook]; [done|].
  split; [done|]. intros row col k Hrow Hcol Hk. rewrite Hlook by done.
  unfold covers. done.
Qed.

Lemma composite_cons width r rects fb :
  composite width (r :: rects) fb
  = composite width rects (VncControl.copy_rows width (hdr r) (payload r) fb).
Proof. reflexivity. Qed.

Lemma composite_lookup width height rects :
  Forall (raw_in_display width height) rects →
  ∀ fb, length fb = width * height * 4 →
    length (composite width rects fb) = length fb ∧
    ∀ row col k, row < height → col < width → k < 4 →
      composite width rects fb !! pixel_index width row col k
      = painted rects row col k (fb !! pixel_index width row col k).
Proof.
  induction 1 as [|r rects (Hwf & Hraw & Hin) _ IH]; intros fb Hfb.
  - done.
  - rewrite composite_cons.
    destruct (copy_rows_lookup width height (hdr r) (payload r) fb Hin Hfb)
      as [Hlen Hlook]; [by apply raw_payload_length|].
    destruct (IH (VncControl.copy_rows width (hdr r) (payload r) fb)) as [IHlen IHlook];
      [congruence|].
    split; [congruence|]. intros row col k Hrow Hcol Hk.
    rewrite IHlook, Hlook by done. reflexivity.
Qed.

Lemma painted_none rects row col k prior :
  Forall (λ r, ¬ covers (hdr r) row col) rects →
  painted rects row col k prior = prior.
Proof.
  intros H. revert prior. induction H as [|r rects Hr _ IH]; intros prior; [done|].
  unfold painted. cbn [foldl]. rewrite decide_False by done. apply IH.
Qed.

Lemma painted_last l1 r l2 row col k prior :
  covers (hdr r) row col →
  Forall (λ r', ¬ covers (hdr r') row col) l2 →
  painted (l1 ++ r :: l2) row col k prior
  = payload r !! payload_index (hdr r) row col k.
Proof.
  intros Hr Hl2. unfold painted. rewrite foldl_app. cbn [foldl].
  rewrite decide_True by done. by apply painted_none.
Qed.

Lemma payload_index_lt h (data : bytes) row col k :
  length data = rw h * rh h * 4 → covers h row col → k < 4 →
  payload_index h row col k < length data.
Proof.
  intros Hd [Hrow Hcol] Hk. unfold payload_index. rewrite Hd.
  assert ((row - ry h + 1) * rw h ≤ rh h * rw h) by (apply Nat.mul_le_mono_r; lia).
  lia.
Qed.

(** One rectangle, row by row: row [row] of the payload, [w * 4] bytes from
    offset [row * w * 4], ends up at offset [((y + row) * width + x) * 4]. *)
Lemma copy_rows_row width height h data fb row :
  in_display width height h →
  length fb = width * height * 4 →
  length data = rw h * rh h * 4 →
  row < rh h →
  slice (VncControl.copy_rows width h data fb)
    (((ry h + row) * width + rx h) * 4) (((ry h + row) * width + rx h) * 4 + rw h * 4)
  = slice data (row * rw h * 4) (row * rw h * 4 + rw h * 4).
Proof.
  intros Hin Hfb Hdata Hrow.
  destruct (copy_rows_lookup width height h data fb Hin Hfb Hdata) as [Hlen Hlook].
  destruct Hin as [Hx Hy].
  assert ((row + 1) * rw h ≤ rh h * rw h) by (apply Nat.mul_le_mono_r; lia).
  assert ((ry h + row + 1) * width ≤ height * width) by (apply Nat.mul_le_mono_r; lia).
  apply list_eq_same_length with (rw h * 4).
  - apply slice_length. lia.
  - apply slice_length. lia.
  - intros j a b Hj. rewrite !slice_lookup by done.
    pose proof (Nat.div_mod_eq j 4) as Hdm.
    pose proof (Nat.mod_upper_bound j 4) as Hm.
    replace (((ry h + row) * width + rx h) * 4 + j)
      with (pixel_index width (ry h + row) (rx h + j / 4) (j `mod` 4))
      by (unfold pixel_index; lia).
    rewrite Hlook by lia. rewrite decide_True by (unfold covers; lia).
    replace (payload_index h (ry h + row) (rx h + j / 4) (j `mod` 4))
      with (row * rw h * 4 + j).
    + congruence.
    + unfold payload_index.
      replace (ry h + row - ry h) with row by lia.
      replace (rx h + j / 4 - rx h) with (j / 4) by lia. lia.
Qed.

(** C1. A FramebufferUpdate of Raw rectangles within the display, read from
    the stream in whatever segments it arrives: both programs consume
    exactly the update and return the zeroed buffer with the rectangles
    copied in, in order, each row by row (row [row] of a payload lands at
    byte offset [((y + row) * width + x) * 4], [w * 4] bytes long).  The
    buffer keeps its size.  A byte of a pixel holds the payload byte of the
    last rectangle that covers the pixel: so for rectangles that do not
    overlap every covered pixel holds the bytes of its rectangle, and a
    pixel no rectangle covers stays zero. *)
Theorem raw_update_composited (self : VncControl.VNCConnection)
    (rects : list rect) (s : socket) (rest : bytes) :
  let width := VncControl.width self in
  let height := VncControl.height self in
  width < 256 * 256 → height < 256 * 256 → length rects < 256 * 256 →
  Forall (raw_in_display width height) rects →
  pending s = encode_update rects ++ rest →
  ∃ fb s1 s2,
    VncControl.capture_screenshot self s = (Ok fb, s1) ∧
    VncScreenshot.receive_framebuffer width height s = (Ok fb, s2) ∧
    pending s1 = rest ∧ pending s2 = rest ∧
    fb = composite width rects (bytearray (width * height * 4)) ∧
    length fb = width * height * 4 ∧
    (∀ r fb0 row,
       r ∈ rects → length fb0 = width * height * 4 → row < rh (hdr r) →
       let dst := ((ry (hdr r) + row) * width + rx (hdr r)) * 4 in
       let src := row * rw (hdr r) * 4 in
       slice (VncControl.copy_rows width (hdr r) (payload r) fb0)
         dst (dst + rw (hdr r) * 4)
       = slice (payload r) src (src + rw (hdr r) * 4)) ∧
    ∀ row col k, row < height → col < width → k < 4 →
      is_Some (fb !! pixel_index width row col k) ∧
      (∀ l1 r l2,
         rects = l1 ++ r :: l2 → covers (hdr r) row col →
         Forall (λ r', ¬ covers (hdr r') row col) l2 →
         fb !! pixel_index width row col k
         = payload r !! payload_index (hdr r) row col k) ∧
      (disjoint_rects rects →
       ∀ r, r ∈ rects → covers (hdr r) row col →
         fb !! pixel_index width row col k
         = payload r !! payload_index (hdr r) row col k) ∧
      (Forall (λ r, ¬ covers (hdr r) row col) rects →
       fb !! pixel_index width row col k = Some x00).
Proof.
  intros width height Hw Hh Hn Hrects Hp.
  assert (Forall wf_rect rects) as Hwf.
  { eapply Forall_impl; [exact Hrects|]. by intros r (? & _). }
  assert (Forall is_raw rects) as Hraw.
  { eapply Forall_impl; [exact Hrects|]. by intros r (_ & ? & _). }
  destruct (control_capture_update self rects s rest Hw Hh Hn Hwf Hp)
    as (s1 & E1 & P1 & _).
  destruct (screenshot_capture_update width height rects s rest Hw Hh Hn Hwf Hp)
    as (s2 & E2 & P2 & _).
  rewrite filter_raw_all in E1 by done. rewrite raw_prefix_all in E2 by done.
  fold width height in E1.
  set (fb := composite width rects (bytearray (width * height * 4))) in *.
  destruct (composite_lookup width height rects Hrects
              (bytearray (width * height * 4))) as [Hlen Hlook].
  { unfold bytearray. by rewrite length_replicate. }
  fold fb in Hlen, Hlook. unfold bytearray in Hlen. rewrite length_replicate in Hlen.
  exists fb, s1, s2. split_and!; try done; [by apply P2| |].
  - intros r fb0 row Hr Hfb0 Hrow. cbn zeta.
    rewrite Forall_forall in Hrects. destruct (Hrects r Hr) as (Hwfr & Hrawr & Hin).
    eapply copy_rows_row; try done. by apply raw_payload_length.
  - intros row col k Hrow Hcol Hk.
    assert (pixel_index width row col k < width * height * 4) as Hidx.
    { unfold pixel_index.
      assert ((row + 1) * width ≤ height * width) by (apply Nat.mul_le_mono_r; lia).
      lia. }
    assert (bytearray (width * height * 4) !! pixel_index width row col k = Some x00)
      as Hzero by (by apply lookup_replicate_2).
    split_and!.
    + apply lookup_lt_is_Some. lia.
    + intros l1 r l2 -> Hc Hl2. rewrite Hlook by done. by apply painted_last.
    + intros Hdisj r Hr Hc. apply list_elem_of_lookup in Hr as [i Hi].
      rewrite Hlook by done.
      rewrite <- (take_drop_middle rects i r Hi).
      apply painted_last; [done|].
      apply Forall_forall. intros r' Hr'.
      apply list_elem_of_lookup in Hr' as [j Hj]. rewrite lookup_drop in Hj.
      eapply (Hdisj i (S i + j)); [lia | done..].
    + intros Hnone. rewrite Hlook by done. rewrite painted_none by done. done.
Qed.

Lemma raw_update_composited_witness :
  ∃ fb s1,
    VncControl.capture_screenshot display_2x1
      (Socket [encode_update two_pixels] []) = (Ok fb, s1) ∧
    length fb = 8.
Proof.
  destruct (raw_update_composited display_2x1 two_pixels
              (Socket [encode_update two_pixels] []) [])
    as (fb & s1 & s2 & H1 & _ & _ & _ & _ & Hlen & _).
  - cbn [display_2x1 VncControl.width]. lia.
  - cbn [display_2x1 VncControl.height]. lia.
  - cbn [two_pixels length]. lia.
  - unfold two_pixels, raw_in_display, wf_rect, is_raw, in_display.
    cbn [display_2x1 VncControl.width VncControl.height].
    repeat apply Forall_cons_2; [| |apply Forall_nil_2];
      cbn [hdr payload rx ry rw rh encoding length];
      (split_and!; [lia..|reflexivity|done|reflexivity|lia|lia]).
  - reflexivity.
  - exists fb, s1. split; [exact H1 | exact Hlen].
Defined.

(** ** An update with a rectangle that is not Raw *)

(** C2 as stated fails on [mixed_update] in the standalone tool: the loop
    ends at the first rectangle, the Raw rectangle behind it stays unread in
    the stream and its pixel stays zero although its payload starts with
    [x05]. *)
Lemma unsupported_rectangle_hides_later_one :
  ∃ fb s1,
    VncScreenshot.receive_framebuffer 2 1 (Socket [encode_update mixed_update] [])
    = (Ok fb, s1) ∧
    fb = replicate 8 x00 ∧
    pending s1 = encode_rect (Rect (RectHeader 1 0 1 1 0) [x05; x06; x07; x08]) ∧
    fb !! pixel_index 2 0 1 0 = Some x00 ∧
    [x05; x06; x07; x08] !! payload_index (RectHeader 1 0 1 1 0) 0 1 0 = Some x05.
Proof. eexists _, _. split_and!; [vm_compute; reflexivity | reflexivity..]. Qed.

(** C10. On [mixed_update] the two receive loops part ways: the standalone
    tool stops at the rectangle that is not Raw and returns the zeroed
    buffer with the second rectangle still in the stream; the connection
    class reads on, copies the second rectangle and empties the stream. *)
Theorem captures_diverge :
  ∃ fb1 s1 fb2 s2,
    VncScreenshot.receive_framebuffer 2 1 (Socket [encode_update mixed_update] [])
    = (Ok fb1, s1) ∧
    VncControl.capture_screenshot display_2x1 (Socket [encode_update mixed_update] [])
    = (Ok fb2, s2) ∧
    fb1 = replicate 8 x00 ∧
    fb2 = [x00; x00; x00; x00; x05; x06; x07; x08] ∧
    length (pending s1) = 16 ∧ pending s2 = [] ∧
    fb1 ≠ fb2 ∧ pending s1 ≠ pending s2.
Proof.
  eexists _, _, _, _.
  split_and!; [vm_compute; reflexivity | vm_compute; reflexivity | reflexivity.. | done | done].
Qed.

(** ** A rectangle beyond the display *)

(** C6 as stated fails on [below_display]: the slice assignment appends the
    row and the buffer of a 1x1 display comes back 8 bytes long, in both
    programs. *)
Lemma rectangle_beyond_display_grows_buffer :
  ∃ fb s1 s2,
    VncControl.capture_screenshot display_1x1 (Socket [encode_update below_display] [])
    = (Ok fb, s1) ∧
    VncScreenshot.receive_framebuffer 1 1 (Socket [encode_update below_display] [])
    = (Ok fb, s2) ∧
    fb = [x00; x00; x00; x00; x01; x02; x03; x04] ∧
    length fb ≠ 1 * 1 * 4.
Proof.
  eexists _, _, _.
  split_and!; [vm_compute; reflexivity | vm_compute; reflexivity | reflexivity | done].
Qed.

(** ** A short read in the handshake *)

(** C7. On [truncated_handshake] both handshakes read the name with a plain
    [recv], take the two bytes that arrive for the announced four and
    succeed; [recv_exact], asked for the same four bytes, raises
    "Connection closed". *)
Theorem handshake_accepts_short_read (des_block : bytes → bytes → bytes)
    (password : string) :
  VncControl.connect des_block password (Socket truncated_handshake [])
  = (Ok {| VncControl.width := 3; VncControl.height := 2;
           VncControl.name := Utf8Replace ["T"; "e"]%byte |},
     Socket [] (RFB_VERSION ++ [x01; x01])) ∧
  VncScreenshot.handshake des_block password (Socket truncated_handshake [])
  = (Ok (3, 2, Utf8Replace ["T"; "e"]%byte), Socket [] (RFB_VERSION ++ [x01; x01])) ∧
  VncControl.recv_exact 4 (Socket [["T"; "e"]%byte] [])
  = (Raise ConnectionClosed, Socket [] []).
Proof. split_and!; vm_compute; reflexivity. Qed.

(** ** The receive loops on an arbitrary stream *)

Lemma recv_exact_total n s :
  ∃ s', sent s' = sent s ∧
    ((∃ data, VncControl.recv_exact n s = (Ok data, s') ∧ length data = n ∧
              length (pending s) = n + length (pending s')) ∨
     (VncControl.recv_exact n s = (Raise ConnectionClosed, s') ∧
      length (pending s) < n ∧ pending s' = [])).
Proof.
  destruct (decide (n ≤ length (pending s))) as [Hle|Hgt].
  - destruct (recv_exact_ok n s Hle) as (s' & E & P & S).
    exists s'. split; [done|]. left. exists (take n (pending s)).
    split_and!; [done | rewrite length_take; lia |].
    rewrite P, length_drop. lia.
  - destruct (recv_exact_closed n s) as (s' & E & P & S); [lia|].
    exists s'. split; [done|]. right. split_and!; [done | lia | done].
Qed.

Lemma unpack_B_ok data : length data = 1 → ∃ v, unpack_B data = Ok v.
Proof. destruct data as [|? [|]]; [done | eauto | done]. Qed.

Lemma unpack_H_ok data : length data = 2 → ∃ v, unpack_H data = Ok v.
Proof. destruct data as [|? [|? [|]]]; try done. eauto. Qed.

Lemma unpack_I_ok data : length data = 4 → ∃ v, unpack_I data = Ok v.
Proof. destruct data as [|? [|? [|? [|? [|]]]]]; try done. eauto. Qed.

Lemma unpack_HHHHi_ok data : length data = 12 → ∃ v, unpack_HHHHi data = Ok v.
Proof.
  do 12 (destruct data as [|? data]; [done|]). destruct data; [eauto | done].
Qed.

Ltac finish_outcome :=
  unfold loop_outcome; cbn [fst snd]; split_and!; [congruence | lia | done].

Ltac read_exact n s s1 data :=
  let E := fresh "E" in
  let L := fresh "L" in
  let Hp := fresh "Hp" in
  let Hs := fresh "Hs" in
  destruct (recv_exact_total n s) as (s1 & Hs & [(data & E & L & Hp)|(E & L & Hp)]);
  [ rewrite (bind_ok _ _ _ _ _ E)
  | rewrite (bind_raise _ _ _ _ _ E);
    unfold loop_outcome; cbn [fst snd]; rewrite Hp; cbn [length];
    split_and!; [congruence | lia | done] ].

Ltac unpack_with lem L v :=
  let Hv := fresh "Hv" in
  destruct (lem _ L) as [v Hv];
  erewrite bind_ok by (unfold lift; rewrite Hv; reflexivity).

Lemma loop_outcome_weaken P s s0 res :
  sent s0 = sent s → length (pending s0) ≤ length (pending s) →
  loop_outcome P s0 res → loop_outcome P s res.
Proof.
  intros Hs Hp (H1 & H2 & H3). split_and!; [congruence | lia | done].
Qed.

Section Invariant.
Variable P : bytes → Prop.
Variable width : nat.
Hypothesis P_copy_rows :
  ∀ h data fb, P fb → length data = rw h * rh h * 4 →
               P (VncControl.copy_rows width h data fb).

Lemma control_receive_rects_outcome n fb s :
  P fb → loop_outcome P s (VncControl.receive_rects n width fb s).
Proof.
  revert fb s. induction n as [|n IH]; intros fb s Hfb.
  - cbn. unfold loop_outcome. cbn. done.
  - cbn [VncControl.receive_rects].
    read_exact 12 s s1 b. unpack_with unpack_HHHHi_ok L h.
    case_decide.
    + read_exact (rw h * rh h * 4) s1 s2 rect_data.
      eapply loop_outcome_weaken; [| |apply IH; by apply P_copy_rows];
        [congruence | lia].
    + eapply loop_outcome_weaken; [| |apply IH; done]; [congruence | lia].
Qed.

Lemma screenshot_receive_rects_outcome n fb s :
  P fb → loop_outcome P s (VncScreenshot.receive_rects n width fb s).
Proof.
  revert fb s. induction n as [|n IH]; intros fb s Hfb.
  - cbn. unfold loop_outcome. cbn. done.
  - cbn [VncScreenshot.receive_rects]. rewrite recv_exact_same.
    read_exact 12 s s1 b. unpack_with unpack_HHHHi_ok L h.
    case_decide.
    + read_exact (rw h * rh h * 4) s1 s2 rect_data.
      eapply loop_outcome_weaken; [| |apply IH; by apply P_copy_rows];
        [congruence | lia].
    + unfold ret. finish_outcome.
Qed.

Lemma control_receive_loop_outcome fuel fb s :
  length (pending s) < fuel → P fb →
  loop_outcome P s (VncControl.receive_loop fuel width fb s).
Proof.
  revert s. induction fuel as [|fuel IH]; intros s Hfuel Hfb; [lia|].
  cbn [VncControl.receive_loop].
  read_exact 1 s s1 b. unpack_with unpack_B_ok L msg_type.
  repeat case_decide.
  - read_exact 1 s1 s2 pad. read_exact 2 s2 s3 b2. unpack_with unpack_H_ok L1 n.
    eapply loop_outcome_weaken;
      [| |by apply control_receive_rects_outcome]; [congruence | lia].
  - read_exact 1 s1 s2 pad. read_exact 2 s2 s3 b2. unpack_with unpack_H_ok L1 first_color.
    read_exact 2 s3 s4 b3. unpack_with unpack_H_ok L2 num.
    read_exact (num * 6) s4 s5 colors.
    eapply loop_outcome_weaken; [| |apply IH; [lia | done]]; [congruence | lia].
  - eapply loop_outcome_weaken; [| |apply IH; [lia | done]]; [congruence | lia].
  - read_exact 3 s1 s2 pad. read_exact 4 s2 s3 b2. unpack_with unpack_I_ok L1 text_len.
    read_exact text_len s3 s4 txt.
    eapply loop_outcome_weaken; [| |apply IH; [lia | done]]; [congruence | lia].
  - unfold ret. finish_outcome.
Qed.

Lemma screenshot_receive_loop_outcome fuel fb s :
  length (pending s) < fuel → P fb →
  loop_outcome P s (VncScreenshot.receive_loop fuel width fb s).
Proof.
  revert s. induction fuel as [|fuel IH]; intros s Hfuel Hfb; [lia|].
  cbn [VncScreenshot.receive_loop]. rewrite recv_exact_same.
  read_exact 1 s s1 b. unpack_with unpack_B_ok L msg_type.
  repeat case_decide.
  - read_exact 1 s1 s2 pad. read_exact 2 s2 s3 b2. unpack_with unpack_H_ok L1 n.
    eapply loop_outcome_weaken;
      [| |by apply screenshot_receive_rects_outcome]; [congruence | lia].
  - read_exact 1 s1 s2 pad. read_exact 2 s2 s3 b2. unpack_with unpack_H_ok L1 first_color.
    read_exact 2 s3 s4 b3. unpack_with unpack_H_ok L2 num.
    read_exact (num * 6) s4 s5 colors.
    eapply loop_outcome_weaken; [| |apply IH; [lia | done]]; [congruence | lia].
  - eapply loop_outcome_weaken; [| |apply IH; [lia | done]]; [congruence | lia].
  - read_exact 3 s1 s2 pad. read_exact 4 s2 s3 b2. unpack_with unpack_I_ok L1 text_len.
    read_exact text_len s3 s4 txt.
    eapply loop_outcome_weaken; [| |apply IH; [lia | done]]; [congruence | lia].
  - unfold ret. finish_outcome.
Qed.
End Invariant.

(** ** The size of the buffer *)

Lemma copy_rows_length_ge width h (data fb : bytes) :
  length data = rw h * rh h * 4 →
  length fb ≤ length (VncControl.copy_rows width h data fb).
Proof.
  intros Hdata. unfold VncControl.copy_rows.
  set (step := λ (framebuffer : bytes) (row : nat), slice_assign framebuffer _ _ _).
  assert (∀ m, m ≤ rh h → length fb ≤ length (foldl step fb (seq 0 m))) as Hrows.
  { induction m as [|m IH]; intros Hm; [done|].
    rewrite seq_S, foldl_app. cbn [foldl plus]. unfold step at 1.
    assert ((m + 1) * rw h ≤ rh h * rw h) by (apply Nat.mul_le_mono_r; lia).
    rewrite slice_assign_length, slice_length by lia.
    specialize (IH ltac:(lia)). lia. }
  by apply Hrows.
Qed.

Lemma composite_length width height rects fb :
  Forall (raw_in_display width height) rects →
  length fb = width * height * 4 →
  length (composite width rects fb) = width * height * 4.
Proof.
  intros Hrects Hfb.
  destruct (composite_lookup width height rects Hrects fb Hfb) as [Hlen _].
  congruence.
Qed.

Lemma raw_prefix_elem r rects : r ∈ raw_prefix rects → r ∈ rects ∧ is_raw r.
Proof.
  induction rects as [|r' rects IH]; simpl; [by intros ?%elem_of_nil|].
  case_decide; [|by intros ?%elem_of_nil].
  intros [->|Hin]%elem_of_cons.
  - split; [left | done].
  - destruct (IH Hin). split; [by right | done].
Qed.

Lemma raw_prefix_app_stop pre u post :
  Forall is_raw pre → ¬ is_raw u → raw_prefix (pre ++ u :: post) = pre.
Proof.
  intros Hpre Hu. induction Hpre as [|r pre Hr _ IH]; simpl.
  - by rewrite decide_False.
  - rewrite decide_True by done. by rewrite IH.
Qed.

(** The rectangle loop of the standalone tool stops at a header that is not
    Raw and leaves whatever follows that header in the stream. *)
Lemma screenshot_receive_rects_stop width pre :
  Forall wf_rect pre → Forall is_raw pre →
  ∀ n u fb s rest,
    length pre < n → wf_rect u → ¬ is_raw u →
    pending s = concat (encode_rect <$> pre) ++ encode_header (hdr u) ++ rest →
    ∃ s', VncScreenshot.receive_rects n width fb s
          = (Ok (composite width pre fb), s') ∧
          pending s' = rest ∧ sent s' = sent s.
Proof.
  intros Hwf Hraw. induction Hwf as [|r pre Hr _ IH];
    intros n u fb s rest Hn Hu Hnr Hp.
  - destruct n as [|n]; [simpl in Hn; lia|]. cbn [fmap list_fmap concat app] in Hp.
    destruct (recv_exact_app _ _ _ Hp) as (s1 & E1 & P1 & S1).
    rewrite encode_header_length in E1.
    cbn [VncScreenshot.receive_rects]. rewrite recv_exact_same.
    rewrite (bind_ok _ _ _ _ _ E1).
    erewrite bind_ok by (unfold lift; by rewrite unpack_encode_header).
    rewrite decide_False by done. exists s1. done.
  - destruct n as [|n]; [simpl in Hn; lia|].
    apply Forall_cons_1 in Hraw as [Hrr Hraw].
    rewrite fmap_cons in Hp. cbn [concat] in Hp. unfold encode_rect at 1 in Hp.
    rewrite <- !app_assoc in Hp.
    destruct (recv_exact_app _ _ _ Hp) as (s1 & E1 & P1 & S1).
    rewrite encode_header_length in E1.
    destruct (recv_exact_app _ _ _ P1) as (s2 & E2 & P2 & S2).
    rewrite raw_payload_length in E2 by done.
    cbn [VncScreenshot.receive_rects]. rewrite recv_exact_same.
    rewrite (bind_ok _ _ _ _ _ E1).
    erewrite bind_ok by (unfold lift; by rewrite unpack_encode_header).
    rewrite decide_True by done.
    rewrite (bind_ok _ _ _ _ _ E2).
    destruct (IH Hraw n u (VncControl.copy_rows width (hdr r) (payload r) fb)
                s2 rest) as (s' & E & P & S); [simpl in Hn; lia | done..|].
    exists s'. split_and!; [exact E | done | congruence].
Qed.

Lemma control_capture_outcome self s :
  VncControl.width self < 256 * 256 → VncControl.height self < 256 * 256 →
  ∃ r s', VncControl.capture_screenshot self s = (r, s') ∧
    match r with
    | Ok fb => VncControl.width self * VncControl.height self * 4 ≤ length fb
    | Raise e => e = ConnectionClosed
    end.
Proof.
  intros Hw Hh. unfold VncControl.capture_screenshot.
  do 2 erewrite bind_ok by reflexivity.
  erewrite bind_ok
    by (unfold lift, pack_update_request; by rewrite !decide_True by done).
  erewrite bind_ok by reflexivity.
  set (P := λ b : bytes,
              VncControl.width self * VncControl.height self * 4 ≤ length b).
  assert (∀ h data b, P b → length data = rw h * rh h * 4 →
            P (VncControl.copy_rows (VncControl.width self) h data b)) as HP.
  { intros h data b Hb Hd. unfold P in *.
    pose proof (copy_rows_length_ge (VncControl.width self) h data b Hd). lia. }
  match goal with
  | |- context [VncControl.receive_loop ?f ?w ?fb ?s0] =>
      pose proof (control_receive_loop_outcome P w HP f fb s0) as Hout;
      destruct (VncControl.receive_loop f w fb s0) as [r s']
  end.
  exists r, s'. split; [done|]. apply Hout; [lia|].
  unfold P, bytearray. by rewrite length_replicate.
Qed.

Lemma screenshot_capture_outcome width height s :
  width < 256 * 256 → height < 256 * 256 →
  ∃ r s', VncScreenshot.receive_framebuffer width height s = (r, s') ∧
    match r with
    | Ok fb => width * height * 4 ≤ length fb
    | Raise e => e = ConnectionClosed
    end.
Proof.
  intros Hw Hh. unfold VncScreenshot.receive_framebuffer.
  do 2 erewrite bind_ok by reflexivity.
  erewrite bind_ok
    by (unfold lift, pack_update_request; by rewrite !decide_True by done).
  erewrite bind_ok by reflexivity.
  set (P := λ b : bytes, width * height * 4 ≤ length b).
  assert (∀ h data b, P b → length data = rw h * rh h * 4 →
            P (VncControl.copy_rows width h data b)) as HP.
  { intros h data b Hb Hd. unfold P in *.
    pose proof (copy_rows_length_ge width h data b Hd). lia. }
  match goal with
  | |- context [VncScreenshot.receive_loop ?f ?w ?fb ?s0] =>
      pose proof (screenshot_receive_loop_outcome P w HP f fb s0) as Hout;
      destruct (VncScreenshot.receive_loop f w fb s0) as [r s']
  end.
  exists r, s'. split; [done|]. apply Hout; [lia|].
  unfold P, bytearray. by rewrite length_replicate.
Qed.

(** C6, as amended.  On every stream, a buffer that a capture returns is
    never shorter than [width * height * 4].  It is exactly that long when
    the stream holds an update whose Raw rectangles lie within the display,
    whether or not other rectangles of the update are of an unsupported
    encoding. *)
Theorem framebuffer_size (self : VncControl.VNCConnection) (s : socket) :
  let width := VncControl.width self in
  let height := VncControl.height self in
  width < 256 * 256 → height < 256 * 256 →
  (∀ fb s',
     VncControl.capture_screenshot self s = (Ok fb, s') ∨
     VncScreenshot.receive_framebuffer width height s = (Ok fb, s') →
     width * height * 4 ≤ length fb) ∧
  (∀ rects rest,
     length rects < 256 * 256 →
     Forall wf_rect rects →
     Forall (λ r, is_raw r → in_display width height (hdr r)) rects →
     pending s = encode_update rects ++ rest →
     ∃ fb1 s1 fb2 s2,
       VncControl.capture_screenshot self s = (Ok fb1, s1) ∧
       VncScreenshot.receive_framebuffer width height s = (Ok fb2, s2) ∧
       length fb1 = width * height * 4 ∧
       length fb2 = width * height * 4).
Proof.
  intros width height Hw Hh. split.
  - intros fb s' [E|E].
    + destruct (control_capture_outcome self s Hw Hh) as (r1 & s1 & E1 & H1).
      rewrite E in E1. by injection E1 as <- _.
    + destruct (screenshot_capture_outcome width height s Hw Hh)
        as (r2 & s2 & E2 & H2).
      rewrite E in E2. by injection E2 as <- _.
  - intros rects rest Hn Hwf Hin Hp.
    destruct (control_capture_update self rects s rest Hw Hh Hn Hwf Hp)
      as (s1 & E1 & _).
    destruct (screenshot_capture_update width height rects s rest Hw Hh Hn Hwf Hp)
      as (s2 & E2 & _).
    eexists _, s1, _, s2. split_and!; [exact E1 | exact E2 | |].
    + apply (composite_length _ height); [|unfold bytearray; by rewrite length_replicate].
      apply Forall_forall. intros r [Hraw Hr]%list_elem_of_filter.
      rewrite Forall_forall in Hwf, Hin. split_and!; auto.
    + apply (composite_length _ height); [|unfold bytearray; by rewrite length_replicate].
      apply Forall_forall. intros r [Hr Hraw]%raw_prefix_elem.
      rewrite Forall_forall in Hwf, Hin. split_and!; auto.
Qed.

Lemma framebuffer_size_witness :
  ∃ fb s1,
    VncScreenshot.receive_framebuffer 2 1 (Socket [encode_update mixed_update] [])
    = (Ok fb, s1) ∧
    length fb = 2 * 1 * 4.
Proof.
  destruct (framebuffer_size display_2x1 (Socket [encode_update mixed_update] []))
    as [_ H].
  - cbn [display_2x1 VncControl.width]. lia.
  - cbn [display_2x1 VncControl.height]. lia.
  - destruct (H mixed_update []) as (fb1 & s1 & fb2 & s2 & _ & E2 & _ & L2).
    + cbn [mixed_update length]. lia.
    + unfold mixed_update, wf_rect.
      repeat apply Forall_cons_2; [| |apply Forall_nil_2];
        cbn [hdr payload rx ry rw rh encoding length];
        (split_and!; [lia..| | ]); (done || lia).
    + unfold mixed_update, is_raw, in_display.
      repeat apply Forall_cons_2; [| |apply Forall_nil_2];
        cbn [hdr payload rx ry rw rh encoding display_2x1
             VncControl.width VncControl.height]; intros; (done || lia).
    + reflexivity.
    + exists fb2, s2. split; [exact E2 | exact L2].
Defined.

Lemma screenshot_capture_stop width height pre u n s rest :
  width < 256 * 256 → height < 256 * 256 → length pre < n → n < 256 * 256 →
  Forall wf_rect pre → Forall is_raw pre → wf_rect u → ¬ is_raw u →
  pending s = [x00; x00] ++ to_bytes_H n ++ concat (encode_rect <$> pre)
              ++ encode_header (hdr u) ++ rest →
  ∃ s', VncScreenshot.receive_framebuffer width height s
        = (Ok (composite width pre (bytearray (width * height * 4))), s') ∧
        pending s' = rest.
Proof.
  intros Hw Hh Hlen Hn Hwf Hraw Hu Hnr Hp.
  unfold VncScreenshot.receive_framebuffer.
  do 2 erewrite bind_ok by reflexivity.
  erewrite bind_ok
    by (unfold lift, pack_update_request; by rewrite !decide_True by done).
  erewrite bind_ok by reflexivity.
  match goal with
  | |- context [VncScreenshot.receive_loop _ _ _ ?s0] =>
      change (pending s) with (pending s0) in Hp; generalize dependent s0
  end.
  intros s0 Hp.
  change ([x00; x00] ++ ?l) with ([x00] ++ [x00] ++ l) in Hp.
  destruct (recv_exact_app _ _ _ Hp) as (s1 & E1 & P1 & S1).
  destruct (recv_exact_app _ _ _ P1) as (s2 & E2 & P2 & S2).
  destruct (recv_exact_app _ _ _ P2) as (s3 & E3 & P3 & S3).
  destruct (screenshot_receive_rects_stop width pre Hwf Hraw n u
              (bytearray (width * height * 4)) s3 rest Hlen Hu Hnr P3)
    as (s' & E & P & S).
  cbn [VncScreenshot.receive_loop]. rewrite recv_exact_same.
  rewrite (bind_ok _ _ _ _ _ E1). erewrite bind_ok by reflexivity.
  rewrite decide_True by done.
  rewrite (bind_ok _ _ _ _ _ E2). rewrite (bind_ok _ _ _ _ _ E3).
  erewrite bind_ok by (unfold lift; by rewrite unpack_H_to_bytes).
  exists s'. done.
Qed.

Lemma filter_raw_app_stop pre u :
  Forall is_raw pre → ¬ is_raw u → filter is_raw (pre ++ [u]) = pre.
Proof.
  intros Hpre Hu. rewrite filter_app, filter_raw_all by done.
  rewrite filter_cons, decide_False by done. by rewrite filter_nil, app_nil_r.
Qed.

(** C2, as amended.  An update of [n] rectangles that starts with Raw
    rectangles within the display and then has a rectangle of another
    encoding: the standalone tool stops reading at that rectangle's header,
    whatever follows it in the update; the buffer it returns is fully sized
    and holds the earlier rectangles, and a pixel that none of them covers,
    the unsupported rectangle's included, keeps its zero bytes.  The
    connection class returns the same buffer when the unsupported rectangle
    is the last one of the update. *)
Theorem unsupported_rectangle_ends_update (self : VncControl.VNCConnection)
    (pre : list rect) (u : rect) (n : nat) (s : socket) (rest : bytes) :
  let width := VncControl.width self in
  let height := VncControl.height self in
  width < 256 * 256 → height < 256 * 256 → length pre < n → n < 256 * 256 →
  Forall (raw_in_display width height) pre → wf_rect u → ¬ is_raw u →
  pending s = [x00; x00] ++ to_bytes_H n ++ concat (encode_rect <$> pre)
              ++ encode_header (hdr u) ++ rest →
  ∃ fb s1,
    VncScreenshot.receive_framebuffer width height s = (Ok fb, s1) ∧
    pending s1 = rest ∧
    fb = composite width pre (bytearray (width * height * 4)) ∧
    length fb = width * height * 4 ∧
    (∀ row col k, row < height → col < width → k < 4 →
       Forall (λ r, ¬ covers (hdr r) row col) pre →
       fb !! pixel_index width row col k = Some x00) ∧
    (n = S (length pre) →
     ∃ s2, VncControl.capture_screenshot self s = (Ok fb, s2) ∧ pending s2 = rest).
Proof.
  intros width height Hw Hh Hlen Hn Hpre Hu Hnr Hp.
  assert (Forall wf_rect pre) as Hwf.
  { eapply Forall_impl; [exact Hpre|]. by intros r (? & _). }
  assert (Forall is_raw pre) as Hraw.
  { eapply Forall_impl; [exact Hpre|]. by intros r (_ & ? & _). }
  destruct (screenshot_capture_stop width height pre u n s rest) as (s1 & E1 & P1);
    try done.
  set (fb := composite width pre (bytearray (width * height * 4))) in *.
  destruct (composite_lookup width height pre Hpre (bytearray (width * height * 4)))
    as [Hfblen Hlook].
  { unfold bytearray. by rewrite length_replicate. }
  fold fb in Hfblen, Hlook. unfold bytearray in Hfblen.
  rewrite length_replicate in Hfblen.
  exists fb, s1. split_and!; try done.
  - intros row col k Hrow Hcol Hk Hnone.
    rewrite Hlook, painted_none by done.
    apply lookup_replicate_2. unfold pixel_index.
    assert ((row + 1) * width ≤ height * width) by (apply Nat.mul_le_mono_r; lia).
    lia.
  - intros ->.
    destruct (control_capture_update self (pre ++ [u]) s rest) as (s2 & E2 & P2 & _);
      try done.
    + rewrite length_app. cbn [length]. lia.
    + apply Forall_app. split; [done|]. by apply Forall_singleton.
    + rewrite Hp. unfold encode_update. rewrite length_app. cbn [length].
      replace (length pre + 1) with (S (length pre)) by lia.
      rewrite fmap_app, concat_app. cbn [fmap list_fmap concat].
      unfold encode_rect.
      destruct Hu as (_ & _ & _ & _ & _ & _ & Hnil). rewrite Hnil by done.
      by rewrite !app_nil_r, <- !app_assoc.
    + rewrite filter_raw_app_stop in E2 by done. by exists s2.
Qed.

Lemma unsupported_rectangle_ends_update_witness :
  ∃ fb s1,
    VncScreenshot.receive_framebuffer 2 1 (Socket [encode_update mixed_update] [])
    = (Ok fb, s1) ∧
    pending s1 = encode_rect (Rect (RectHeader 1 0 1 1 0) [x05; x06; x07; x08]) ∧
    length fb = 2 * 1 * 4.
Proof.
  destruct (unsupported_rectangle_ends_update display_2x1 []
              (Rect (RectHeader 0 0 1 1 (-223)) []) 2
              (Socket [encode_update mixed_update] [])
              (encode_rect (Rect (RectHeader 1 0 1 1 0) [x05; x06; x07; x08])))
    as (fb & s1 & E & P & _ & L & _).
  - cbn [display_2x1 VncControl.width]. lia.
  - cbn [display_2x1 VncControl.height]. lia.
  - cbn [length]. lia.
  - lia.
  - apply Forall_nil_2.
  - unfold wf_rect. cbn [hdr payload rx ry rw rh encoding length].
    split_and!; (done || lia).
  - unfold is_raw. cbn [hdr encoding]. lia.
  - reflexivity.
  - exists fb, s1. split_and!; [exact E | exact P | exact L].
Defined.

(** ** Where the two receive loops agree *)

(** On an update of Raw rectangles, within the display or not, the two
    programs return the same buffer, consume the same bytes and write the
    same requests. *)
Lemma captures_agree_on_raw_updates (self : VncControl.VNCConnection)
    (rects : list rect) (s : socket) (rest : bytes) :
  VncControl.width self < 256 * 256 → VncControl.height self < 256 * 256 →
  length rects < 256 * 256 →
  Forall wf_rect rects → Forall is_raw rects →
  pending s = encode_update rects ++ rest →
  ∃ fb s1 s2,
    VncControl.capture_screenshot self s = (Ok fb, s1) ∧
    VncScreenshot.receive_framebuffer (VncControl.width self) (VncControl.height self) s
    = (Ok fb, s2) ∧
    pending s1 = pending s2 ∧ sent s1 = sent s2.
Proof.
  intros Hw Hh Hn Hwf Hraw Hp.
  destruct (control_capture_update self rects s rest Hw Hh Hn Hwf Hp)
    as (s1 & E1 & P1 & S1).
  destruct (screenshot_capture_update _ _ rects s rest Hw Hh Hn Hwf Hp)
    as (s2 & E2 & P2 & S2).
  rewrite filter_raw_all in E1 by done. rewrite raw_prefix_all in E2 by done.
  eexists _, s1, s2. split_and!; [exact E1 | exact E2 | | congruence].
  rewrite P1, P2; done.
Qed.

(** * Further properties of the two programs *)

(** ** Exact reads *)

(** X1. [recv_exact n], in both programs: when at least [n] bytes are still
    to come it returns exactly the next [n] bytes, however the server cut
    them into segments, and leaves the rest; when fewer are to come it
    raises "Connection closed".  It never writes. *)
Theorem recv_exact_reads_exactly (n : nat) (s : socket) :
  VncScreenshot.recv_exact n s = VncControl.recv_exact n s ∧
  (n ≤ length (pending s) →
   ∃ s', VncControl.recv_exact n s = (Ok (take n (pending s)), s') ∧
         pending s' = drop n (pending s) ∧ sent s' = sent s) ∧
  (length (pending s) < n →
   ∃ s', VncControl.recv_exact n s = (Raise ConnectionClosed, s') ∧
         pending s' = [] ∧ sent s' = sent s).
Proof.
  split_and!; [reflexivity | apply recv_exact_ok | apply recv_exact_closed].
Qed.

Lemma recv_exact_reads_exactly_witness :
  ∃ s', VncControl.recv_exact 3 (Socket [[x01]; []; [x02; x03; x04]] [])
        = (Ok [x01; x02; x03], s') ∧ pending s' = [x04].
Proof.
  destruct (proj1 (proj2 (recv_exact_reads_exactly 3
              (Socket [[x01]; []; [x02; x03; x04]] []))))
    as (s' & E & P & _).
  - cbn. lia.
  - exists s'. split; [exact E | exact P].
Defined.

(** ** What a capture writes *)

(** X2. Whatever the server sends, a capture of a display whose dimensions
    fit 16 bits writes the three requests (SetPixelFormat, SetEncodings,
    FramebufferUpdateRequest for the whole display, not incremental) and
    nothing else: the receive loop never writes. *)
Theorem capture_writes_requests_only (self : VncControl.VNCConnection) (s : socket) :
  let width := VncControl.width self in
  let height := VncControl.height self in
  width < 256 * 256 → height < 256 * 256 →
  (∃ r s', VncControl.capture_screenshot self s = (r, s') ∧
           sent s' = sent s ++ capture_requests width height) ∧
  (∃ r s', VncScreenshot.receive_framebuffer width height s = (r, s') ∧
           sent s' = sent s ++ capture_requests width height).
Proof.
  intros width height Hw Hh. split.
  - unfold VncControl.capture_screenshot.
    do 2 erewrite bind_ok by reflexivity.
    erewrite bind_ok
      by (unfold lift, pack_update_request; by rewrite !decide_True by done).
    erewrite bind_ok by reflexivity.
    match goal with
    | |- context [VncControl.receive_loop ?f ?w ?fb ?s0] =>
        pose proof (control_receive_loop_outcome (λ _, True) w
                      ltac:(done) f fb s0 ltac:(lia) I) as (Hs & _);
        destruct (VncControl.receive_loop f w fb s0) as [r s']
    end.
    exists r, s'. split; [done|]. cbn [snd] in Hs. rewrite Hs. cbn [sent].
    unfold capture_requests. by rewrite <- !app_assoc.
  - unfold VncScreenshot.receive_framebuffer.
    do 2 erewrite bind_ok by reflexivity.
    erewrite bind_ok
      by (unfold lift, pack_update_request; by rewrite !decide_True by done).
    erewrite bind_ok by reflexivity.
    match goal with
    | |- context [VncScreenshot.receive_loop ?f ?w ?fb ?s0] =>
        pose proof (screenshot_receive_loop_outcome (λ _, True) w
                      ltac:(done) f fb s0 ltac:(lia) I) as (Hs & _);
        destruct (VncScreenshot.receive_loop f w fb s0) as [r s']
    end.
    exists r, s'. split; [done|]. cbn [snd] in Hs. rewrite Hs. cbn [sent].
    unfold capture_requests. by rewrite <- !app_assoc.
Qed.

Lemma capture_writes_requests_only_witness :
  ∃ r s', VncControl.capture_screenshot display_2x1 (Socket [[x02]] []) = (r, s') ∧
          sent s' = capture_requests 2 1.
Proof.
  destruct (capture_writes_requests_only display_2x1 (Socket [[x02]] []))
    as [(r & s' & E & S) _].
  - cbn [display_2x1 VncControl.width]. lia.
  - cbn [display_2x1 VncControl.height]. lia.
  - exists r, s'. split; [exact E | exact S].
Defined.

(** ** Messages around the update *)

Lemma from_bytes_big_N_acc acc bs :
  foldl (λ a b, a * 256 + Byte.to_N b)%N (N.of_nat acc) bs
  = N.of_nat (foldl (λ a b, a * 256 + Byte.to_nat b) acc bs).
Proof.
  revert acc. induction bs as [|b bs IH]; intros acc; [done|].
  cbn [foldl]. rewrite <- IH. f_equal. rewrite Byte.to_N_via_nat. lia.
Qed.

Lemma from_bytes_big_N_of_nat bs : from_bytes_big_N bs = N.of_nat (from_bytes_big bs).
Proof. apply (from_bytes_big_N_acc 0). Qed.

Lemma unpack_I_to_bytes n :
  (N.of_nat n < 4294967296)%N → unpack_I (to_bytes_I (N.of_nat n)) = Ok n.
Proof.
  intros Hn. unfold unpack_I, to_bytes_I. f_equal.
  apply Nat2N.inj. rewrite <- from_bytes_big_N_of_nat.
  by apply from_bytes_big_I.
Qed.

Lemma control_capture_unfold self s :
  VncControl.width self < 256 * 256 → VncControl.height self < 256 * 256 →
  VncControl.capture_screenshot self s
  = VncControl.receive_loop (S (length (pending s))) (VncControl.width self)
      (bytearray (VncControl.width self * VncControl.height self * 4))
      (Socket (incoming s)
         (sent s ++ capture_requests (VncControl.width self) (VncControl.height self))).
Proof.
  intros Hw Hh. unfold VncControl.capture_screenshot.
  do 2 erewrite bind_ok by reflexivity.
  erewrite bind_ok
    by (unfold lift, pack_update_request; by rewrite !decide_True by done).
  erewrite bind_ok by reflexivity.
  cbn [sent incoming]. unfold capture_requests. by rewrite <- !app_assoc.
Qed.

Lemma screenshot_capture_unfold width height s :
  width < 256 * 256 → height < 256 * 256 →
  VncScreenshot.receive_framebuffer width height s
  = VncScreenshot.receive_loop (S (length (pending s))) width
      (bytearray (width * height * 4))
      (Socket (incoming s) (sent s ++ capture_requests width height)).
Proof.
  intros Hw Hh. unfold VncScreenshot.receive_framebuffer.
  do 2 erewrite bind_ok by reflexivity.
  erewrite bind_ok
    by (unfold lift, pack_update_request; by rewrite !decide_True by done).
  erewrite bind_ok by reflexivity.
  cbn [sent incoming]. unfold capture_requests. by rewrite <- !app_assoc.
Qed.

Lemma encode_msg_nonempty m : 0 < length (encode_msg m).
Proof. destruct m; cbn; lia. Qed.

Lemma encode_msgs_length msgs : length msgs ≤ length (concat (encode_msg <$> msgs)).
Proof.
  induction msgs as [|m msgs IH]; [done|].
  rewrite fmap_cons. cbn [concat length]. rewrite length_app.
  pose proof (encode_msg_nonempty m). lia.
Qed.

(** One round of either loop on a message it passes over. *)
Lemma control_receive_loop_skip1 m fuel width fb s tail :
  wf_msg m → pending s = encode_msg m ++ tail →
  ∃ s0, pending s0 = tail ∧ sent s0 = sent s ∧
        VncControl.receive_loop (S fuel) width fb s
        = VncControl.receive_loop fuel width fb s0.
Proof.
  intros Hwf Hp. cbn [VncControl.receive_loop]. destruct m as [|text|fc nc rgb].
  - change (encode_msg Bell ++ tail) with ([x02] ++ tail) in Hp.
    destruct (recv_exact_app _ _ _ Hp) as (s1 & E1 & P1 & S1).
    rewrite (bind_ok _ _ _ _ _ E1). erewrite bind_ok by reflexivity.
    cbn [Byte.to_nat]. repeat (rewrite decide_False by lia).
    rewrite decide_True by done. by exists s1.
  - cbn [encode_msg wf_msg] in *.
    change ([x03; x00; x00; x00] ++ ?l) with ([x03] ++ [x00; x00; x00] ++ l) in Hp.
    rewrite <- !app_assoc in Hp.
    destruct (recv_exact_app _ _ _ Hp) as (s1 & E1 & P1 & S1).
    destruct (recv_exact_app _ _ _ P1) as (s2 & E2 & P2 & S2).
    destruct (recv_exact_app _ _ _ P2) as (s3 & E3 & P3 & S3).
    destruct (recv_exact_app _ _ _ P3) as (s4 & E4 & P4 & S4).
    rewrite (bind_ok _ _ _ _ _ E1). erewrite bind_ok by reflexivity.
    cbn [Byte.to_nat]. repeat (rewrite decide_False by lia).
    rewrite decide_True by done.
    rewrite (bind_ok _ _ _ _ _ E2). rewrite (bind_ok _ _ _ _ _ E3).
    erewrite bind_ok by (unfold lift; by rewrite unpack_I_to_bytes).
    rewrite (bind_ok _ _ _ _ _ E4).
    exists s4. split_and!; [done | congruence | done].
  - cbn [encode_msg wf_msg] in *. destruct Hwf as (Hfc & Hnc & Hrgb).
    change ([x01; x00] ++ ?l) with ([x01] ++ [x00] ++ l) in Hp.
    rewrite <- !app_assoc in Hp.
    destruct (recv_exact_app _ _ _ Hp) as (s1 & E1 & P1 & S1).
    destruct (recv_exact_app _ _ _ P1) as (s2 & E2 & P2 & S2).
    destruct (recv_exact_app _ _ _ P2) as (s3 & E3 & P3 & S3).
    destruct (recv_exact_app _ _ _ P3) as (s4 & E4 & P4 & S4).
    destruct (recv_exact_app _ _ _ P4) as (s5 & E5 & P5 & S5).
    rewrite Hrgb in E5.
    rewrite (bind_ok _ _ _ _ _ E1). erewrite bind_ok by reflexivity.
    cbn [Byte.to_nat]. repeat (rewrite decide_False by lia).
    rewrite decide_True by done.
    rewrite (bind_ok _ _ _ _ _ E2). rewrite (bind_ok _ _ _ _ _ E3).
    erewrite bind_ok by (unfold lift; by rewrite unpack_H_to_bytes).
    rewrite (bind_ok _ _ _ _ _ E4).
    erewrite bind_ok by (unfold lift; by rewrite unpack_H_to_bytes).
    rewrite (bind_ok _ _ _ _ _ E5).
    exists s5. split_and!; [done | congruence | done].
Qed.

Lemma screenshot_receive_loop_skip1 m fuel width fb s tail :
  wf_msg m → pending s = encode_msg m ++ tail →
  ∃ s0, pending s0 = tail ∧ sent s0 = sent s ∧
        VncScreenshot.receive_loop (S fuel) width fb s
        = VncScreenshot.receive_loop fuel width fb s0.
Proof.
  intros Hwf Hp. cbn [VncScreenshot.receive_loop]. rewrite recv_exact_same.
  destruct m as [|text|fc nc rgb].
  - change (encode_msg Bell ++ tail) with ([x02] ++ tail) in Hp.
    destruct (recv_exact_app _ _ _ Hp) as (s1 & E1 & P1 & S1).
    rewrite (bind_ok _ _ _ _ _ E1). erewrite bind_ok by reflexivity.
    cbn [Byte.to_nat]. repeat (rewrite decide_False by lia).
    rewrite decide_True by done. by exists s1.
  - cbn [encode_msg wf_msg] in *.
    change ([x03; x00; x00; x00] ++ ?l) with ([x03] ++ [x00; x00; x00] ++ l) in Hp.
    rewrite <- !app_assoc in Hp.
    destruct (recv_exact_app _ _ _ Hp) as (s1 & E1 & P1 & S1).
    destruct (recv_exact_app _ _ _ P1) as (s2 & E2 & P2 & S2).
    destruct (recv_exact_app _ _ _ P2) as (s3 & E3 & P3 & S3).
    destruct (recv_exact_app _ _ _ P3) as (s4 & E4 & P4 & S4).
    rewrite (bind_ok _ _ _ _ _ E1). erewrite bind_ok by reflexivity.
    cbn [Byte.to_nat]. repeat (rewrite decide_False by lia).
    rewrite decide_True by done.
    rewrite (bind_ok _ _ _ _ _ E2). rewrite (bind_ok _ _ _ _ _ E3).
    erewrite bind_ok by (unfold lift; by rewrite unpack_I_to_bytes).
    rewrite (bind_ok _ _ _ _ _ E4).
    exists s4. split_and!; [done | congruence | done].
  - cbn [encode_msg wf_msg] in *. destruct Hwf as (Hfc & Hnc & Hrgb).
    change ([x01; x00] ++ ?l) with ([x01] ++ [x00] ++ l) in Hp.
    rewrite <- !app_assoc in Hp.
    destruct (recv_exact_app _ _ _ Hp) as (s1 & E1 & P1 & S1).
    destruct (recv_exact_app _ _ _ P1) as (s2 & E2 & P2 & S2).
    destruct (recv_exact_app _ _ _ P2) as (s3 & E3 & P3 & S3).
    destruct (recv_exact_app _ _ _ P3) as (s4 & E4 & P4 & S4).
    destruct (recv_exact_app _ _ _ P4) as (s5 & E5 & P5 & S5).
    rewrite Hrgb in E5.
    rewrite (bind_ok _ _ _ _ _ E1). erewrite bind_ok by reflexivity.
    cbn [Byte.to_nat]. repeat (rewrite decide_False by lia).
    rewrite decide_True by done.
    rewrite (bind_ok _ _ _ _ _ E2). rewrite (bind_ok _ _ _ _ _ E3).
    erewrite bind_ok by (unfold lift; by rewrite unpack_H_to_bytes).
    rewrite (bind_ok _ _ _ _ _ E4).
    erewrite bind_ok by (unfold lift; by rewrite unpack_H_to_bytes).
    rewrite (bind_ok _ _ _ _ _ E5).
    exists s5. split_and!; [done | congruence | done].
Qed.

Lemma control_receive_loop_skip msgs width fb :
  Forall wf_msg msgs →
  ∀ fuel s tail,
    pending s = concat (encode_msg <$> msgs) ++ tail →
    ∃ s0, pending s0 = tail ∧ sent s0 = sent s ∧
          VncControl.receive_loop (length msgs + fuel) width fb s
          = VncControl.receive_loop fuel width fb s0.
Proof.
  induction 1 as [|m msgs Hm _ IH]; intros fuel s tail Hp.
  - by exists s.
  - rewrite fmap_cons in Hp. cbn [concat] in Hp. rewrite <- app_assoc in Hp.
    destruct (control_receive_loop_skip1 m (length msgs + fuel) width fb s _ Hm Hp)
      as (s1 & P1 & S1 & E1).
    destruct (IH fuel s1 tail P1) as (s0 & P0 & S0 & E0).
    exists s0. cbn [length plus]. split_and!; [done | congruence | congruence].
Qed.

Lemma screenshot_receive_loop_skip msgs width fb :
  Forall wf_msg msgs →
  ∀ fuel s tail,
    pending s = concat (encode_msg <$> msgs) ++ tail →
    ∃ s0, pending s0 = tail ∧ sent s0 = sent s ∧
          VncScreenshot.receive_loop (length msgs + fuel) width fb s
          = VncScreenshot.receive_loop fuel width fb s0.
Proof.
  induction 1 as [|m msgs Hm _ IH]; intros fuel s tail Hp.
  - by exists s.
  - rewrite fmap_cons in Hp. cbn [concat] in Hp. rewrite <- app_assoc in Hp.
    destruct (screenshot_receive_loop_skip1 m (length msgs + fuel) width fb s _ Hm Hp)
      as (s1 & P1 & S1 & E1).
    destruct (IH fuel s1 tail P1) as (s0 & P0 & S0 & E0).
    exists s0. cbn [length plus]. split_and!; [done | congruence | congruence].
Qed.

(** X3. Bell, ServerCutText and SetColorMapEntries messages in front of the
    update are read and dropped: with any number of them before an update
    of Raw rectangles, both programs return the buffer the update alone
    gives and consume everything up to the end of the update. *)
Theorem capture_skips_other_messages (self : VncControl.VNCConnection)
    (msgs : list server_msg) (rects : list rect) (s : socket) (rest : bytes) :
  let width := VncControl.width self in
  let height := VncControl.height self in
  width < 256 * 256 → height < 256 * 256 → length rects < 256 * 256 →
  Forall wf_msg msgs → Forall wf_rect rects → Forall is_raw rects →
  pending s = concat (encode_msg <$> msgs) ++ encode_update rects ++ rest →
  ∃ s1 s2,
    VncControl.capture_screenshot self s
    = (Ok (composite width rects (bytearray (width * height * 4))), s1) ∧
    VncScreenshot.receive_framebuffer width height s
    = (Ok (composite width rects (bytearray (width * height * 4))), s2) ∧
    pending s1 = rest ∧ pending s2 = rest.
Proof.
  intros width height Hw Hh Hn Hmsgs Hwf Hraw Hp.
  pose proof (encode_msgs_length msgs) as Hlen.
  assert (S (length (pending s))
          = length msgs + S (length (pending s) - length msgs)) as Hfuel.
  { rewrite Hp, length_app. lia. }
  rewrite control_capture_unfold, screenshot_capture_unfold by done.
  rewrite Hfuel. fold width height.
  set (s0 := Socket (incoming s) (sent s ++ capture_requests width height)).
  assert (pending s0 = concat (encode_msg <$> msgs) ++ encode_update rects ++ rest)
    as Hp0 by exact Hp.
  destruct (control_receive_loop_skip msgs width (bytearray (width * height * 4))
              Hmsgs (S (length (pending s) - length msgs)) s0 _ Hp0)
    as (c & Pc & _ & ->).
  destruct (screenshot_receive_loop_skip msgs width (bytearray (width * height * 4))
              Hmsgs (S (length (pending s) - length msgs)) s0 _ Hp0)
    as (d & Pd & _ & ->).
  destruct (control_receive_loop_update (length (pending s) - length msgs) width
              rects (bytearray (width * height * 4)) c rest Hn Hwf Pc)
    as (s1 & E1 & P1 & _).
  destruct (screenshot_receive_loop_update (length (pending s) - length msgs) width
              rects (bytearray (width * height * 4)) d rest Hn Hwf Pd)
    as (s2 & E2 & P2 & _).
  rewrite filter_raw_all in E1 by done. rewrite raw_prefix_all in E2 by done.
  exists s1, s2. split_and!; [done | done | done | by apply P2].
Qed.

Lemma capture_skips_other_messages_witness :
  ∃ s1,
    VncControl.capture_screenshot display_2x1
      (Socket [encode_msg Bell; encode_msg (ServerCutText [x41]);
               encode_update two_pixels] [])
    = (Ok (composite 2 two_pixels (bytearray 8)), s1) ∧ pending s1 = [].
Proof.
  destruct (capture_skips_other_messages display_2x1
              [Bell; ServerCutText [x41]] two_pixels
              (Socket [encode_msg Bell; encode_msg (ServerCutText [x41]);
                       encode_update two_pixels] []) [])
    as (s1 & s2 & E1 & _ & P1 & _).
  - cbn [display_2x1 VncControl.width]. lia.
  - cbn [display_2x1 VncControl.height]. lia.
  - cbn [two_pixels length]. lia.
  - repeat apply Forall_cons_2; [exact I | cbn; lia | apply Forall_nil_2].
  - unfold two_pixels, wf_rect.
    repeat apply Forall_cons_2; [| |apply Forall_nil_2];
      cbn [hdr payload rx ry rw rh encoding length];
      (split_and!; [lia..|reflexivity|done]).
  - unfold two_pixels, is_raw.
    repeat apply Forall_cons_2; [| |apply Forall_nil_2]; reflexivity.
  - reflexivity.
  - exists s1. split; [exact E1 | exact P1].
Defined.

(** X4. A message type other than 0, 1, 2 or 3 ends the capture at once:
    both programs return the zeroed buffer, having read only the type byte,
    and raise nothing. *)
Theorem capture_stops_on_unknown_message (self : VncControl.VNCConnection)
    (msg_type : byte) (s : socket) (rest : bytes) :
  let width := VncControl.width self in
  let height := VncControl.height self in
  width < 256 * 256 → height < 256 * 256 →
  4 ≤ Byte.to_nat msg_type →
  pending s = msg_type :: rest →
  ∃ s1 s2,
    VncControl.capture_screenshot self s
    = (Ok (bytearray (width * height * 4)), s1) ∧
    VncScreenshot.receive_framebuffer width height s
    = (Ok (bytearray (width * height * 4)), s2) ∧
    pending s1 = rest ∧ pending s2 = rest.
Proof.
  intros width height Hw Hh Hty Hp.
  rewrite control_capture_unfold, screenshot_capture_unfold by done.
  fold width height.
  set (s0 := Socket (incoming s) (sent s ++ capture_requests width height)).
  assert (pending s0 = [msg_type] ++ rest) as Hp0 by exact Hp.
  destruct (recv_exact_app _ _ _ Hp0) as (s1 & E1 & P1 & S1).
  exists s1, s1. cbn [VncControl.receive_loop VncScreenshot.receive_loop].
  rewrite recv_exact_same.
  rewrite !(bind_ok _ _ _ _ _ E1). unfold lift, unpack_B.
  erewrite !bind_ok by reflexivity.
  rewrite !decide_False by lia. done.
Qed.

Lemma capture_stops_on_unknown_message_witness :
  ∃ s1, VncControl.capture_screenshot display_2x1 (Socket [[x96; x01]] [])
        = (Ok (bytearray 8), s1) ∧ pending s1 = [x01].
Proof.
  destruct (capture_stops_on_unknown_message display_2x1 x96
              (Socket [[x96; x01]] []) [x01]) as (s1 & _ & E & _ & P & _).
  - cbn [display_2x1 VncControl.width]. lia.
  - cbn [display_2x1 VncControl.height]. lia.
  - cbn. lia.
  - reflexivity.
  - exists s1. split; [exact E | exact P].
Defined.

(** ** A stream that ends inside the update *)

Lemma recv_exact_take data tail k s :
  pending s = take k (data ++ tail) →
  (k < length data →
   ∃ s', VncControl.recv_exact (length data) s = (Raise ConnectionClosed, s')) ∧
  (length data ≤ k →
   ∃ s', VncControl.recv_exact (length data) s = (Ok data, s') ∧
         pending s' = take (k - length data) tail ∧ sent s' = sent s).
Proof.
  intros Hp. split; intros Hk.
  - destruct (recv_exact_closed (length data) s) as (s' & E & _); [|by exists s'].
    rewrite Hp, length_take, length_app. lia.
  - rewrite take_app_ge in Hp by done. by apply recv_exact_app.
Qed.

Lemma control_receive_rects_truncated width rects :
  Forall wf_rect rects → Forall is_raw rects →
  ∀ k fb s,
    k < length (concat (encode_rect <$> rects)) →
    pending s = take k (concat (encode_rect <$> rects)) →
    ∃ s', VncControl.receive_rects (length rects) width fb s
          = (Raise ConnectionClosed, s').
Proof.
  intros Hwf. induction Hwf as [|r rects Hr _ IH]; intros Hraw k fb s Hk Hp.
  - simpl in Hk. lia.
  - apply Forall_cons_1 in Hraw as [Hrr Hraw].
    rewrite fmap_cons in Hp, Hk. cbn [concat] in Hp, Hk.
    unfold encode_rect at 1 in Hp. unfold encode_rect at 1 in Hk.
    rewrite <- app_assoc in Hp, Hk.
    rewrite !length_app, encode_header_length in Hk.
    cbn [length VncControl.receive_rects].
    destruct (recv_exact_take _ _ _ _ Hp) as [Hshort Hfull].
    rewrite encode_header_length in Hshort, Hfull.
    destruct (decide (k < 12)) as [Hlt|Hge].
    { destruct (Hshort Hlt) as (s' & E). exists s'. by rewrite (bind_raise _ _ _ _ _ E). }
    destruct Hfull as (s1 & E1 & P1 & _); [lia|].
    rewrite (bind_ok _ _ _ _ _ E1).
    erewrite bind_ok by (unfold lift; by rewrite unpack_encode_header).
    rewrite decide_True by done.
    destruct (recv_exact_take _ _ _ _ P1) as [Hshort2 Hfull2].
    rewrite (raw_payload_length r Hr Hrr) in Hshort2, Hfull2.
    pose proof (raw_payload_length r Hr Hrr) as Hpl.
    destruct (decide (k - 12 < rw (hdr r) * rh (hdr r) * 4)) as [Hlt2|Hge2].
    { destruct (Hshort2 Hlt2) as (s' & E). exists s'.
      by rewrite (bind_raise _ _ _ _ _ E). }
    destruct Hfull2 as (s2 & E2 & P2 & _); [lia|].
    rewrite (bind_ok _ _ _ _ _ E2).
    eapply (IH Hraw (k - 12 - rw (hdr r) * rh (hdr r) * 4)); [lia | done].
Qed.

Lemma screenshot_receive_rects_truncated width rects :
  Forall wf_rect rects → Forall is_raw rects →
  ∀ k fb s,
    k < length (concat (encode_rect <$> rects)) →
    pending s = take k (concat (encode_rect <$> rects)) →
    ∃ s', VncScreenshot.receive_rects (length rects) width fb s
          = (Raise ConnectionClosed, s').
Proof.
  intros Hwf. induction Hwf as [|r rects Hr _ IH]; intros Hraw k fb s Hk Hp.
  - simpl in Hk. lia.
  - apply Forall_cons_1 in Hraw as [Hrr Hraw].
    rewrite fmap_cons in Hp, Hk. cbn [concat] in Hp, Hk.
    unfold encode_rect at 1 in Hp. unfold encode_rect at 1 in Hk.
    rewrite <- app_assoc in Hp, Hk.
    rewrite !length_app, encode_header_length in Hk.
    cbn [length VncScreenshot.receive_rects]. rewrite recv_exact_same.
    destruct (recv_exact_take _ _ _ _ Hp) as [Hshort Hfull].
    rewrite encode_header_length in Hshort, Hfull.
    destruct (decide (k < 12)) as [Hlt|Hge].
    { destruct (Hshort Hlt) as (s' & E). exists s'. by rewrite (bind_raise _ _ _ _ _ E). }
    destruct Hfull as (s1 & E1 & P1 & _); [lia|].
    rewrite (bind_ok _ _ _ _ _ E1).
    erewrite bind_ok by (unfold lift; by rewrite unpack_encode_header).
    rewrite decide_True by done.
    destruct (recv_exact_take _ _ _ _ P1) as [Hshort2 Hfull2].
    rewrite (raw_payload_length r Hr Hrr) in Hshort2, Hfull2.
    pose proof (raw_payload_length r Hr Hrr) as Hpl.
    destruct (decide (k - 12 < rw (hdr r) * rh (hdr r) * 4)) as [Hlt2|Hge2].
    { destruct (Hshort2 Hlt2) as (s' & E). exists s'.
      by rewrite (bind_raise _ _ _ _ _ E). }
    destruct Hfull2 as (s2 & E2 & P2 & _); [lia|].
    rewrite (bind_ok _ _ _ _ _ E2).
    eapply (IH Hraw (k - 12 - rw (hdr r) * rh (hdr r) * 4)); [lia | done].
Qed.

(** X5. A stream that ends anywhere inside an update of Raw rectangles, be
    it in the message head, in a rectangle header or in a payload, makes
    both programs raise "Connection closed": no partly filled buffer is
    ever returned for a cut update. *)
Theorem truncated_update_raises (self : VncControl.VNCConnection)
    (rects : list rect) (k : nat) (s : socket) :
  let width := VncControl.width self in
  let height := VncControl.height self in
  width < 256 * 256 → height < 256 * 256 → length rects < 256 * 256 →
  Forall wf_rect rects → Forall is_raw rects →
  k < length (encode_update rects) →
  pending s = take k (encode_update rects) →
  (∃ s1, VncControl.capture_screenshot self s = (Raise ConnectionClosed, s1)) ∧
  (∃ s2, VncScreenshot.receive_framebuffer width height s
         = (Raise ConnectionClosed, s2)).
Proof.
  intros width height Hw Hh Hn Hwf Hraw Hk Hp.
  rewrite control_capture_unfold, screenshot_capture_unfold by done.
  fold width height.
  set (s0 := Socket (incoming s) (sent s ++ capture_requests width height)).
  assert (pending s0 = take k (encode_update rects)) as Hp0 by exact Hp.
  clearbody s0. clear Hp.
  unfold encode_update in Hp0, Hk.
  change ([x00; x00] ++ ?l) with ([x00] ++ [x00] ++ l) in Hp0, Hk.
  rewrite !length_app in Hk. cbn [length] in Hk.
  cbn [VncControl.receive_loop VncScreenshot.receive_loop]. rewrite recv_exact_same.
  destruct (recv_exact_take _ _ _ _ Hp0) as [Hs1 Hf1]. cbn [length] in Hs1, Hf1.
  destruct (decide (k < 1)) as [Hlt|Hge].
  { destruct (Hs1 Hlt) as (s' & E).
    split; exists s'; by rewrite (bind_raise _ _ _ _ _ E). }
  destruct Hf1 as (s1 & E1 & P1 & _); [lia|].
  rewrite !(bind_ok _ _ _ _ _ E1). erewrite !bind_ok by reflexivity.
  rewrite !decide_True by done.
  destruct (recv_exact_take _ _ _ _ P1) as [Hs2 Hf2]. cbn [length] in Hs2, Hf2.
  destruct (decide (k - 1 < 1)) as [Hlt|Hge2].
  { destruct (Hs2 Hlt) as (s' & E).
    split; exists s'; by rewrite (bind_raise _ _ _ _ _ E). }
  destruct Hf2 as (s2 & E2 & P2 & _); [lia|].
  rewrite !(bind_ok _ _ _ _ _ E2).
  destruct (recv_exact_take _ _ _ _ P2) as [Hs3 Hf3].
  change (length (to_bytes_H (length rects))) with 2 in Hs3, Hf3.
  destruct (decide (k - 1 - 1 < 2)) as [Hlt|Hge3].
  { destruct (Hs3 Hlt) as (s' & E).
    split; exists s'; by rewrite (bind_raise _ _ _ _ _ E). }
  destruct Hf3 as (s3 & E3 & P3 & _); [lia|].
  rewrite !(bind_ok _ _ _ _ _ E3).
  erewrite !bind_ok by (unfold lift; by rewrite unpack_H_to_bytes).
  change (length (to_bytes_H (length rects))) with 2 in Hk.
  split.
  - eapply control_receive_rects_truncated; [done | done | | exact P3]. lia.
  - eapply screenshot_receive_rects_truncated; [done | done | | exact P3]. lia.
Qed.

Lemma truncated_update_raises_witness :
  ∃ s1, VncControl.capture_screenshot display_2x1
          (Socket [take 20 (encode_update two_pixels)] [])
        = (Raise ConnectionClosed, s1).
Proof.
  apply (truncated_update_raises display_2x1 two_pixels 20
           (Socket [take 20 (encode_update two_pixels)] [])).
  - cbn [display_2x1 VncControl.width]. lia.
  - cbn [display_2x1 VncControl.height]. lia.
  - cbn [two_pixels length]. lia.
  - unfold two_pixels, wf_rect.
    repeat apply Forall_cons_2; [| |apply Forall_nil_2];
      cbn [hdr payload rx ry rw rh encoding length];
      (split_and!; [lia..|reflexivity|done]).
  - unfold two_pixels, is_raw.
    repeat apply Forall_cons_2; [| |apply Forall_nil_2]; reflexivity.
  - cbn. lia.
  - reflexivity.
Defined.

(** ** The handshake from end to end *)

Lemma server_init_fields width height pixel_format name :
  width < 256 * 256 → height < 256 * 256 → length pixel_format = 16 →
  (N.of_nat (length name) < 4294967296)%N →
  let init := encode_server_init width height pixel_format name in
  length init = 24 ∧
  unpack_HH (slice init 0 4) = Ok (width, height) ∧
  (∃ v, unpack_BBBB (slice init 4 8) = Ok v) ∧
  (∃ v, unpack_HHH (slice init 8 14) = Ok v) ∧
  (∃ v, unpack_BBB (slice init 14 17) = Ok v) ∧
  unpack_I (slice init 20 24) = Ok (length name).
Proof.
  intros Hw Hh Hpf Hn.
  do 16 (destruct pixel_format as [|? pixel_format]; [done|]).
  destruct pixel_format; [|done]. clear Hpf.
  pose proof (unpack_I_to_bytes (length name) Hn) as HI.
  pose proof (from_bytes_big_H width Hw) as HW.
  pose proof (from_bytes_big_H height Hh) as HH.
  unfold encode_server_init, slice, to_bytes_H, to_bytes_I in *.
  cbn [app firstn skipn Nat.sub length]. split_and!; eauto.
  unfold unpack_HH. by rewrite HW, HH.
Qed.

(** X6. A handshake without authentication, every message delivered whole:
    when the server offers type 1 and not type 2 and then sends ServerInit
    and the name, both programs answer with type 1 and ClientInit (shared
    flag 1), write nothing else after their version string, and return the
    width, the height and the name the server announced. *)
Theorem handshake_without_authentication (des_block : bytes → bytes → bytes)
    (password : string) (inc : list bytes) (out ver : bytes)
    (i1 i2 i3 i4 i5 : list bytes) (cnt : byte) (types pixel_format name : bytes)
    (width height : nat) :
  recv_segments 12 inc = (ver, i1) →
  delivers i1 [cnt] i2 → cnt ≠ x00 →
  length types = Byte.to_nat cnt → delivers i2 types i3 →
  2 ∉ Byte.to_nat <$> types → 1 ∈ Byte.to_nat <$> types →
  width < 256 * 256 → height < 256 * 256 → length pixel_format = 16 →
  (N.of_nat (length name) < 4294967296)%N →
  delivers i3 (encode_server_init width height pixel_format name) i4 →
  delivers i4 name i5 →
  VncControl.connect des_block password (Socket inc out)
  = (Ok {| VncControl.width := width; VncControl.height := height;
           VncControl.name := Utf8Replace name |},
     Socket i5 (out ++ RFB_VERSION ++ [x01; x01])) ∧
  VncScreenshot.handshake des_block password (Socket inc out)
  = (Ok (width, height, Utf8Replace name),
     Socket i5 (out ++ RFB_VERSION ++ [x01; x01])).
Proof.
  unfold delivers.
  intros Hver Hcnt Hne Hl Htypes H2 H1 Hw Hh Hpf Hn Hinit Hname.
  rewrite Hl in Htypes.
  assert (Byte.to_nat cnt ≠ 0) as Hn0 by by rewrite to_nat_x00.
  destruct (server_init_fields width height pixel_format name Hw Hh Hpf Hn)
    as (Hlen & HHH & (v1 & Hv1) & (v2 & Hv2) & (v3 & Hv3) & HI).
  rewrite Hlen in Hinit.
  split.
  - unfold VncControl.connect.
    step_recv Hver. step_pure. cbn [sent incoming]. step_recv Hcnt. step_pure.
    rewrite decide_False by done. step_recv Htypes.
    rewrite decide_False, decide_True by done.
    step_pure. cbn [sent incoming]. step_pure. cbn [sent incoming].
    step_recv Hinit.
    erewrite bind_ok by (unfold lift; rewrite HHH; reflexivity).
    erewrite bind_ok by (unfold lift; rewrite HI; reflexivity).
    step_recv Hname. unfold ret. cbn [fst snd]. by rewrite <- !app_assoc.
  - unfold VncScreenshot.handshake.
    step_recv Hver. step_pure. cbn [sent incoming]. step_recv Hcnt. step_pure.
    rewrite decide_False by done. step_recv Htypes.
    rewrite decide_False, decide_True by done.
    step_pure. cbn [sent incoming]. step_pure. cbn [sent incoming].
    step_recv Hinit.
    erewrite bind_ok by (unfold lift; rewrite HHH; reflexivity).
    erewrite bind_ok by (unfold lift; rewrite Hv1; reflexivity).
    erewrite bind_ok by (unfold lift; rewrite Hv2; reflexivity).
    erewrite bind_ok by (unfold lift; rewrite Hv3; reflexivity).
    erewrite bind_ok by (unfold lift; rewrite HI; reflexivity).
    step_recv Hname. unfold ret. cbn [fst snd]. by rewrite <- !app_assoc.
Qed.

Lemma handshake_without_authentication_witness :
  VncControl.connect toy_des_block "secret"
    (Socket [RFB_VERSION; [x01; x01];
             encode_server_init 800 600 (replicate 16 x00) ["T"; "e"; "s"; "t"]%byte;
             ["T"; "e"; "s"; "t"]%byte] [])
  = (Ok {| VncControl.width := 800; VncControl.height := 600;
           VncControl.name := Utf8Replace ["T"; "e"; "s"; "t"]%byte |},
     Socket [] ([] ++ RFB_VERSION ++ [x01; x01])).
Proof.
  refine (proj1 (handshake_without_authentication toy_des_block "secret"
    [RFB_VERSION; [x01; x01];
     encode_server_init 800 600 (replicate 16 x00) ["T"; "e"; "s"; "t"]%byte;
     ["T"; "e"; "s"; "t"]%byte] [] RFB_VERSION
    [[x01; x01];
     encode_server_init 800 600 (replicate 16 x00) ["T"; "e"; "s"; "t"]%byte;
     ["T"; "e"; "s"; "t"]%byte]
    [[x01];
     encode_server_init 800 600 (replicate 16 x00) ["T"; "e"; "s"; "t"]%byte;
     ["T"; "e"; "s"; "t"]%byte]
    [encode_server_init 800 600 (replicate 16 x00) ["T"; "e"; "s"; "t"]%byte;
     ["T"; "e"; "s"; "t"]%byte]
    [["T"; "e"; "s"; "t"]%byte] [] x01 [x01] (replicate 16 x00)
    ["T"; "e"; "s"; "t"]%byte 800 600
    eq_refl eq_refl _ eq_refl eq_refl _ _ _ _ eq_refl _ eq_refl eq_refl)).
  - discriminate.
  - by_decide.
  - by_decide.
  - lia.
  - lia.
  - cbn. lia.
Defined.



(** ** The conversion to RGBA *)

Lemma to_rgba_same : VncScreenshot.to_rgba = VncControl.to_rgba.
Proof. reflexivity. Qed.

Lemma to_rgba_loop_step i rest (framebuffer rgba : bytes) b0 b1 b2 :
  framebuffer !! i = Some b0 → framebuffer !! (i + 1) = Some b1 →
  framebuffer !! (i + 2) = Some b2 → i + 3 < length rgba →
  VncControl.to_rgba_loop (i :: rest) framebuffer rgba
  = VncControl.to_rgba_loop rest framebuffer
      (<[i + 3 := xff]> (<[i + 2 := b0]> (<[i + 1 := b1]> (<[i := b2]> rgba)))).
Proof.
  intros H0 H1 H2 Hlen. cbn [VncControl.to_rgba_loop]. unfold setitem.
  rewrite H2. cbn [mbind option_bind]. rewrite decide_True by lia.
  cbn [mbind option_bind]. rewrite H1. cbn [mbind option_bind].
  rewrite decide_True by (rewrite !length_insert; lia).
  cbn [mbind option_bind]. rewrite H0. cbn [mbind option_bind].
  rewrite decide_True by (rewrite !length_insert; lia).
  cbn [mbind option_bind].
  rewrite decide_True by (rewrite !length_insert; lia).
  done.
Qed.

Lemma to_rgba_loop_ok cnt : ∀ j (framebuffer rgba : bytes),
  length rgba = length framebuffer → 4 * (j + cnt) ≤ length framebuffer →
  ∃ out, VncControl.to_rgba_loop ((λ k, 4 * k) <$> seq j cnt) framebuffer rgba = Some out ∧
    length out = length framebuffer ∧
    (∀ i, i < 4 * j ∨ 4 * (j + cnt) ≤ i → out !! i = rgba !! i) ∧
    (∀ p, j ≤ p < j + cnt →
       out !! (4 * p) = framebuffer !! (4 * p + 2) ∧
       out !! (4 * p + 1) = framebuffer !! (4 * p + 1) ∧
       out !! (4 * p + 2) = framebuffer !! (4 * p) ∧
       out !! (4 * p + 3) = Some xff).
Proof.
  induction cnt as [|cnt IH]; intros j framebuffer rgba Hlen Hfit.
  - exists rgba. split_and!; [done | done | done | intros; lia].
  - cbn [seq fmap list_fmap].
    destruct (lookup_lt_is_Some_2 framebuffer (4 * j)) as [b0 H0]; [lia|].
    destruct (lookup_lt_is_Some_2 framebuffer (4 * j + 1)) as [b1 H1]; [lia|].
    destruct (lookup_lt_is_Some_2 framebuffer (4 * j + 2)) as [b2 H2]; [lia|].
    change (list_fmap nat nat (λ k, 4 * k) (seq (S j) cnt))
      with ((λ k, 4 * k) <$> seq (S j) cnt).
    rewrite (to_rgba_loop_step _ _ _ _ b0 b1 b2) by (done || lia).
    set (rgba' := <[_ := xff]> _).
    destruct (IH (S j) framebuffer rgba') as (out & E & L & Hold & Hnew).
    { unfold rgba'. rewrite !length_insert. done. }
    { lia. }
    exists out. split_and!; [done | done | |].
    + intros i Hi. rewrite Hold by lia. unfold rgba'.
      rewrite !list_lookup_insert_ne by lia. done.
    + intros p Hp. destruct (decide (p = j)) as [->|Hpj]; [|apply Hnew; lia].
      rewrite !Hold by lia. unfold rgba'. split_and!.
      * rewrite !list_lookup_insert_ne by lia.
        rewrite list_lookup_insert_eq by lia. done.
      * rewrite !list_lookup_insert_ne by lia.
        rewrite list_lookup_insert_eq by (rewrite !length_insert; lia). done.
      * rewrite !list_lookup_insert_ne by lia.
        rewrite list_lookup_insert_eq by (rewrite !length_insert; lia). done.
      * rewrite list_lookup_insert_eq by (rewrite !length_insert; lia). done.
Qed.

Lemma to_rgba_loop_partial j (framebuffer rgba : bytes) rest :
  length rgba = length framebuffer →
  4 * j < length framebuffer < 4 * j + 4 →
  VncControl.to_rgba_loop (4 * j :: rest) framebuffer rgba = None.
Proof.
  intros Hlen Hj. cbn [VncControl.to_rgba_loop]. unfold setitem.
  destruct (framebuffer !! (4 * j + 2)) as [b2|] eqn:H2; cbn [mbind option_bind]; [|done].
  apply lookup_lt_Some in H2. rewrite decide_True by lia. cbn [mbind option_bind].
  destruct (framebuffer !! (4 * j + 1)) as [b1|]; cbn [mbind option_bind]; [|done].
  rewrite decide_True by (rewrite !length_insert; lia). cbn [mbind option_bind].
  destruct (framebuffer !! (4 * j)) as [b0|]; cbn [mbind option_bind]; [|done].
  rewrite decide_True by (rewrite !length_insert; lia). cbn [mbind option_bind].
  rewrite decide_False by (rewrite !length_insert; lia). done.
Qed.

Lemma to_rgba_loop_app l1 l2 (framebuffer rgba : bytes) :
  VncControl.to_rgba_loop (l1 ++ l2) framebuffer rgba
  = VncControl.to_rgba_loop l1 framebuffer rgba
    ≫= VncControl.to_rgba_loop l2 framebuffer.
Proof.
  revert rgba. induction l1 as [|i l1 IH]; intros rgba; [done|].
  cbn [app VncControl.to_rgba_loop].
  repeat match goal with
         | |- mbind _ ?m = _ => destruct m; cbn [mbind option_bind]; [|done]
         end.
  apply IH.
Qed.

Lemma copy_rows_whole_pixels width h (data fb : bytes) :
  length data = rw h * rh h * 4 → length fb `mod` 4 = 0 →
  length (VncControl.copy_rows width h data fb) `mod` 4 = 0.
Proof.
  intros Hdata Hfb. unfold VncControl.copy_rows.
  set (step := λ (framebuffer : bytes) (row : nat), slice_assign framebuffer _ _ _).
  assert (∀ m, m ≤ rh h → length (foldl step fb (seq 0 m)) `mod` 4 = 0) as Hrows.
  { induction m as [|m IH]; intros Hm; [done|].
    rewrite seq_S, foldl_app. cbn [foldl plus]. unfold step at 1.
    assert ((m + 1) * rw h ≤ rh h * rw h) by (apply Nat.mul_le_mono_r; lia).
    rewrite slice_assign_length, slice_length by lia.
    specialize (IH ltac:(lia)). apply Nat.Div0.mod_divides in IH as [k Hk].
    rewrite Hk. set (A := (ry h + m) * width + rx h).
    apply Nat.Div0.mod_divides.
    destruct (decide (A ≤ k)) as [HA|HA]; [destruct (decide (A + rw h ≤ k))|];
      [exists k | exists (A + rw h) | exists (k + rw h)]; lia. }
  by apply Hrows.
Qed.

Lemma control_capture_whole_pixels self s fb s' :
  VncControl.capture_screenshot self s = (Ok fb, s') → length fb `mod` 4 = 0.
Proof.
  unfold VncControl.capture_screenshot.
  do 2 erewrite bind_ok by reflexivity.
  unfold pack_update_request.
  destruct (decide (VncControl.width self < 256 * 256)) as [Hw|Hw];
    [destruct (decide (VncControl.height self < 256 * 256)) as [Hh|Hh]|];
    [|by erewrite bind_raise by reflexivity..].
  do 2 erewrite bind_ok by reflexivity.
  match goal with
  | |- context [VncControl.receive_loop ?f ?w ?b ?s0] =>
      pose proof (control_receive_loop_outcome (λ buf : bytes, length buf `mod` 4 = 0) w
                    (λ h data buf Hb Hd, copy_rows_whole_pixels w h data buf Hd Hb) f b s0) as Hout;
      destruct (VncControl.receive_loop f w b s0) as [r s1]
  end.
  intros [= -> ->]. apply Hout; [lia|].
  unfold bytearray. rewrite length_replicate. by rewrite Nat.Div0.mod_mul.
Qed.

Lemma screenshot_capture_whole_pixels width height s fb s' :
  VncScreenshot.receive_framebuffer width height s = (Ok fb, s') →
  length fb `mod` 4 = 0.
Proof.
  unfold VncScreenshot.receive_framebuffer.
  do 2 erewrite bind_ok by reflexivity.
  unfold pack_update_request.
  destruct (decide (width < 256 * 256)) as [Hw|Hw];
    [destruct (decide (height < 256 * 256)) as [Hh|Hh]|];
    [|by erewrite bind_raise by reflexivity..].
  do 2 erewrite bind_ok by reflexivity.
  match goal with
  | |- context [VncScreenshot.receive_loop ?f ?w ?b ?s0] =>
      pose proof (screenshot_receive_loop_outcome (λ buf : bytes, length buf `mod` 4 = 0) w
                    (λ h data buf Hb Hd, copy_rows_whole_pixels w h data buf Hd Hb) f b s0) as Hout;
      destruct (VncScreenshot.receive_loop f w b s0) as [r s1]
  end.
  intros [= -> ->]. apply Hout; [lia|].
  unfold bytearray. rewrite length_replicate. by rewrite Nat.Div0.mod_mul.
Qed.

Lemma to_rgba_whole_pixels (framebuffer : bytes) (n : nat) :
  length framebuffer = 4 * n →
  ∃ rgba, VncControl.to_rgba framebuffer = Some rgba ∧
    length rgba = length framebuffer ∧
    ∀ p, p < n →
      rgba !! (4 * p) = framebuffer !! (4 * p + 2) ∧
      rgba !! (4 * p + 1) = framebuffer !! (4 * p + 1) ∧
      rgba !! (4 * p + 2) = framebuffer !! (4 * p) ∧
      rgba !! (4 * p + 3) = Some xff.
Proof.
  intros Hlen. unfold VncControl.to_rgba.
  replace ((length framebuffer + 3) / 4) with n
    by (rewrite Hlen; apply Nat.div_unique with 3; lia).
  destruct (to_rgba_loop_ok n 0 framebuffer (bytearray (length framebuffer)))
    as (out & E & L & _ & Hpix).
  { unfold bytearray. by rewrite length_replicate. }
  { lia. }
  exists out. split_and!; [done | done |].
  intros p Hp. apply Hpix. lia.
Qed.

(** X8. The conversion loop on a buffer of whole pixels: the result has the
    length of the buffer and every pixel has its first and third byte
    exchanged, its second byte kept and 255 as its fourth; the two programs
    give the same bytes. *)
Theorem to_rgba_swaps_channels (framebuffer : bytes) (n : nat) :
  length framebuffer = 4 * n →
  ∃ rgba, VncControl.to_rgba framebuffer = Some rgba ∧
    VncScreenshot.to_rgba framebuffer = Some rgba ∧
    length rgba = length framebuffer ∧
    ∀ p, p < n →
      rgba !! (4 * p) = framebuffer !! (4 * p + 2) ∧
      rgba !! (4 * p + 1) = framebuffer !! (4 * p + 1) ∧
      rgba !! (4 * p + 2) = framebuffer !! (4 * p) ∧
      rgba !! (4 * p + 3) = Some xff.
Proof.
  intros Hlen. rewrite to_rgba_same.
  destruct (to_rgba_whole_pixels framebuffer n Hlen) as (rgba & E & L & Hpix).
  by exists rgba.
Qed.

Lemma to_rgba_swaps_channels_witness :
  ∃ rgba, VncControl.to_rgba [x01; x02; x03; x04; x05; x06; x07; x08] = Some rgba ∧
    VncScreenshot.to_rgba [x01; x02; x03; x04; x05; x06; x07; x08] = Some rgba ∧
    length rgba = 8 ∧
    ∀ p, p < 2 →
      rgba !! (4 * p) = [x01; x02; x03; x04; x05; x06; x07; x08] !! (4 * p + 2) ∧
      rgba !! (4 * p + 1) = [x01; x02; x03; x04; x05; x06; x07; x08] !! (4 * p + 1) ∧
      rgba !! (4 * p + 2) = [x01; x02; x03; x04; x05; x06; x07; x08] !! (4 * p) ∧
      rgba !! (4 * p + 3) = Some xff.
Proof.
  apply (to_rgba_swaps_channels [x01; x02; x03; x04; x05; x06; x07; x08] 2).
  reflexivity.
Defined.

(** X9. On a buffer that ends inside a pixel the conversion loop of either
    program runs into an index beyond the end (Python's IndexError). *)
Theorem to_rgba_partial_pixel (framebuffer : bytes) :
  length framebuffer `mod` 4 ≠ 0 →
  VncControl.to_rgba framebuffer = None ∧ VncScreenshot.to_rgba framebuffer = None.
Proof.
  intros Hmod. rewrite to_rgba_same.
  enough (VncControl.to_rgba framebuffer = None) by done.
  unfold VncControl.to_rgba.
  set (j := length framebuffer / 4).
  pose proof (Nat.div_mod_eq (length framebuffer) 4) as Hdm.
  pose proof (Nat.mod_upper_bound (length framebuffer) 4 ltac:(lia)) as Hub.
  fold j in Hdm.
  replace ((length framebuffer + 3) / 4) with (j + 1)
    by (apply Nat.div_unique with (length framebuffer `mod` 4 - 1); lia).
  rewrite seq_app, fmap_app, to_rgba_loop_app.
  destruct (to_rgba_loop_ok j 0 framebuffer (bytearray (length framebuffer)))
    as (out & E & L & _ & _).
  { unfold bytearray. by rewrite length_replicate. }
  { lia. }
  rewrite E. cbn [mbind option_bind seq fmap list_fmap plus].
  apply to_rgba_loop_partial; [done | lia].
Qed.

Lemma to_rgba_partial_pixel_witness :
  VncControl.to_rgba [x01; x02; x03; x04; x05] = None ∧
  VncScreenshot.to_rgba [x01; x02; x03; x04; x05] = None.
Proof.
  apply (to_rgba_partial_pixel [x01; x02; x03; x04; x05]).
  vm_compute. discriminate.
Defined.

(** X10. Whatever the server sends, a framebuffer that a capture of either
    program returns is made of whole pixels: the conversion loop that
    follows the capture never runs beyond its end. *)
Theorem captured_framebuffer_converts (des_block : bytes → bytes → bytes)
    (self : VncControl.VNCConnection) (password : string)
    (width height : nat) (s s' : socket) (framebuffer : bytes) :
  VncControl.capture_screenshot self s = (Ok framebuffer, s') ∨
  VncScreenshot.capture_vnc_screenshot des_block password s
  = (Ok (width, height, framebuffer), s') →
  ∃ rgba, VncControl.to_rgba framebuffer = Some rgba ∧
          VncScreenshot.to_rgba framebuffer = Some rgba ∧
          length rgba = length framebuffer.
Proof.
  intros Hcap.
  assert (length framebuffer `mod` 4 = 0) as Hmod.
  { destruct Hcap as [Hc|Hs].
    - by eapply control_capture_whole_pixels.
    - unfold VncScreenshot.capture_vnc_screenshot, bind in Hs.
      destruct (VncScreenshot.handshake des_block password s) as [[whn|e] s1];
        [|done].
      destruct (VncScreenshot.receive_framebuffer whn.1.1 whn.1.2 s1)
        as [[fb|e] s2] eqn:E; [|done].
      unfold ret in Hs. injection Hs as _ _ <- _.
      by eapply screenshot_capture_whole_pixels. }
  apply Nat.Div0.mod_divides in Hmod as [n Hn].
  rewrite to_rgba_same.
  destruct (to_rgba_whole_pixels framebuffer n Hn) as (rgba & E & L & _).
  by exists rgba.
Qed.

Lemma captured_framebuffer_converts_witness :
  ∃ rgba,
    VncControl.to_rgba [x01; x02; x03; x04; x05; x06; x07; x08] = Some rgba ∧
    VncScreenshot.to_rgba [x01; x02; x03; x04; x05; x06; x07; x08] = Some rgba ∧
    length rgba = length [x01; x02; x03; x04; x05; x06; x07; x08].
Proof.
  apply (captured_framebuffer_converts toy_des_block display_2x1 "secret" 2 1
           (Socket [encode_update two_pixels] [])
           (Socket [] (capture_requests 2 1))
           [x01; x02; x03; x04; x05; x06; x07; x08]).
  left. reflexivity.
Defined.

(** ** Pointer actions *)

Lemma send_pointer_event_ok x y button_mask s :
  on_wire x y → (0 ≤ button_mask < 256)%Z →
  VncControl.send_pointer_event x y button_mask s
  = (Ok tt, Socket (incoming s) (sent s ++ pointer_event x y button_mask)).
Proof.
  intros [Hx Hy] Hm. unfold VncControl.send_pointer_event, bind, lift, pack_BBHH.
  rewrite decide_True by lia. reflexivity.
Qed.

Lemma send_pointer_event_raise x y button_mask s :
  ¬ (on_wire x y ∧ (0 ≤ button_mask < 256)%Z) →
  VncControl.send_pointer_event x y button_mask s = (Raise StructError, s).
Proof.
  intros Hn. unfold VncControl.send_pointer_event, bind, lift, pack_BBHH.
  rewrite decide_False; [done|]. unfold on_wire in Hn. lia.
Qed.

Lemma releases_ret : releases (ret tt).
Proof. intros s. exists []. cbn. by rewrite app_nil_r. Qed.

Lemma buttons_released_app evs1 evs2 :
  buttons_released evs1 → buttons_released evs2 → buttons_released (evs1 ++ evs2).
Proof.
  unfold buttons_released. intros H1 H2.
  destruct evs2 as [|e evs2 _] using rev_ind; [by rewrite app_nil_r|].
  rewrite app_assoc, !last_snoc in *. done.
Qed.

Lemma pointer_events_app evs1 evs2 :
  pointer_events (evs1 ++ evs2) = pointer_events evs1 ++ pointer_events evs2.
Proof. unfold pointer_events. by rewrite fmap_app, concat_app. Qed.

Lemma releases_bind (m1 m2 : M unit) :
  releases m1 → releases m2 → releases (m1 ;;; m2).
Proof.
  intros H1 H2 s. destruct (H1 s) as (evs1 & I1 & S1 & W1 & R1).
  unfold bind. destruct (m1 s) as [[[]|e] s1]; cbn [snd] in *.
  - destruct (H2 s1) as (evs2 & I2 & S2 & W2 & R2).
    exists (evs1 ++ evs2). split_and!.
    + congruence.
    + rewrite S2, S1, pointer_events_app. by rewrite <- app_assoc.
    + by apply Forall_app.
    + by apply buttons_released_app.
  - by exists evs1.
Qed.

Lemma pointer_events_cons x y button_mask evs :
  pointer_events ((x, y, button_mask) :: evs)
  = pointer_event x y button_mask ++ pointer_events evs.
Proof. reflexivity. Qed.

Lemma releases_move x y : releases (VncControl.send_pointer_event x y 0).
Proof.
  intros s. destruct (decide (on_wire x y)) as [Hw|Hw].
  - rewrite send_pointer_event_ok by (done || lia). exists [(x, y, 0%Z)].
    cbn [snd incoming sent]. rewrite pointer_events_cons.
    split_and!; [done | by rewrite app_nil_r | | done].
    constructor; [|constructor]. split; [done | cbn; lia].
  - rewrite send_pointer_event_raise by tauto. exists []. cbn.
    by rewrite app_nil_r.
Qed.

Lemma releases_press x y button (m : M unit) :
  releases m →
  releases (VncControl.send_pointer_event x y button ;;;
            VncControl.send_pointer_event x y 0 ;;; m).
Proof.
  intros Hm s.
  destruct (decide (on_wire x y ∧ (0 ≤ button < 256)%Z)) as [[Hw Hb]|Hn].
  - erewrite bind_ok by (by apply send_pointer_event_ok).
    erewrite bind_ok by (apply send_pointer_event_ok; [done | lia]).
    destruct (Hm (Socket (incoming s)
                    ((sent s ++ pointer_event x y button) ++ pointer_event x y 0)))
      as (evs & I & S & W & R).
    cbn [incoming sent] in *.
    exists ([(x, y, button); (x, y, 0%Z)] ++ evs). split_and!.
    + done.
    + rewrite S, pointer_events_app, !pointer_events_cons.
      by rewrite app_nil_r, <- !app_assoc.
    + apply Forall_app. split; [|done].
      constructor; [|constructor; [|constructor]]; (split; [done | cbn; lia]).
    + by apply buttons_released_app.
  - erewrite bind_raise by (by apply send_pointer_event_raise).
    exists []. cbn. by rewrite app_nil_r.
Qed.

Lemma releases_click x y button : releases (VncControl.click x y button).
Proof.
  unfold VncControl.click. apply releases_bind; [apply releases_move|].
  intros s.
  destruct (releases_press x y button (ret tt) releases_ret s) as (evs & I & S & W & R).
  exists evs. revert I S.
  unfold bind.
  destruct (VncControl.send_pointer_event x y button s) as [[[]|e] s1]; [|done].
  destruct (VncControl.send_pointer_event x y 0 s1) as [[[]|e] s2]; done.
Qed.

Lemma releases_scroll_loop rounds x y button :
  releases (VncControl.scroll_loop rounds x y button).
Proof.
  induction rounds as [|rounds IH]; [apply releases_ret|].
  cbn [VncControl.scroll_loop]. by apply releases_press.
Qed.

(** X11. [click] writes the move, the press and the release as three
    pointer events.  Coordinates that do not fit the 16-bit fields make the
    first [struct.pack] fail, so nothing is written; a button mask that does
    not fit its byte fails at the press, after the move has been written. *)
Theorem click_outcome (x y button : Z) (s : socket) :
  VncControl.click x y button s
  = if decide (on_wire x y) then
      if decide (0 ≤ button < 256)%Z then
        (Ok tt, Socket (incoming s)
                  (sent s ++ pointer_event x y 0 ++ pointer_event x y button
                          ++ pointer_event x y 0))
      else (Raise StructError, Socket (incoming s) (sent s ++ pointer_event x y 0))
    else (Raise StructError, s).
Proof.
  unfold VncControl.click.
  destruct (decide (on_wire x y)) as [Hw|Hw].
  - erewrite bind_ok by (by apply send_pointer_event_ok).
    destruct (decide (0 ≤ button < 256)%Z) as [Hb|Hb].
    + erewrite bind_ok by (by apply send_pointer_event_ok).
      rewrite send_pointer_event_ok by done. cbn [incoming sent].
      by rewrite <- !app_assoc.
    + erewrite bind_raise; [done|]. rewrite send_pointer_event_raise; [done|tauto].
  - erewrite bind_raise; [done|]. apply send_pointer_event_raise. tauto.
Qed.

(** X12. None of the pointer actions leaves a button held: whatever the
    arguments and whether or not the action raises, it reads nothing and
    what it has written is a sequence of well-formed pointer events whose
    last one, if there is one, has an empty button mask. *)
Theorem pointer_actions_release_buttons (self : VncControl.VNCConnection)
    (x y button amount : Z) (direction : string) (sx sy : option Z) :
  releases (VncControl.click x y button) ∧
  releases (VncControl.double_click x y) ∧
  releases (VncControl.right_click x y) ∧
  releases (VncControl.move x y) ∧
  releases (VncControl.scroll self direction amount sx sy).
Proof.
  split_and!.
  - apply releases_click.
  - apply releases_bind; apply releases_click.
  - apply releases_click.
  - apply releases_move.
  - apply releases_bind; [apply releases_move | apply releases_scroll_loop].
Qed.

Lemma button_map_lookup direction :
  default 16%Z (VncControl.button_map !! direction) = scroll_button direction.
Proof.
  unfold scroll_button, VncControl.button_map.
  repeat case_decide; subst; try reflexivity.
  destruct (decide (direction = "down")) as [->|?]; [reflexivity|].
  cbn [list_to_map foldr fst snd].
  by rewrite !lookup_insert_ne, lookup_empty by done.
Qed.

Lemma scroll_button_range direction : (0 ≤ scroll_button direction < 256)%Z.
Proof. unfold scroll_button. repeat case_decide; lia. Qed.

Lemma scroll_loop_spec rounds x y button s :
  on_wire x y → (0 ≤ button < 256)%Z →
  VncControl.scroll_loop rounds x y button s
  = (Ok tt, Socket (incoming s)
              (sent s ++ concat (replicate rounds
                                   (pointer_event x y button ++ pointer_event x y 0)))).
Proof.
  intros Hw Hb. revert s. induction rounds as [|rounds IH]; intros s.
  - cbn. unfold ret. rewrite app_nil_r. by destruct s.
  - cbn [VncControl.scroll_loop replicate concat].
    erewrite bind_ok by (by apply send_pointer_event_ok).
    erewrite bind_ok by (apply send_pointer_event_ok; [done | lia]).
    rewrite IH. cbn [incoming sent]. by rewrite <- !app_assoc.
Qed.

(** X13. [scroll] at the given position, or at the middle of the display
    for a coordinate left out: one move, then [amount] times a press and a
    release of the wheel button; a direction other than up, left and right
    scrolls down, and an amount below 1 sends the move only.  A position
    that does not fit the 16-bit fields raises before anything is written. *)
Theorem scroll_events (self : VncControl.VNCConnection) (direction : string)
    (amount : Z) (sx sy : option Z) (s : socket) :
  let x := default (Z.of_nat (VncControl.width self / 2)) sx in
  let y := default (Z.of_nat (VncControl.height self / 2)) sy in
  let wheel := pointer_event x y (scroll_button direction) ++ pointer_event x y 0 in
  (on_wire x y →
   VncControl.scroll self direction amount sx sy s
   = (Ok tt, Socket (incoming s)
               (sent s ++ pointer_event x y 0
                       ++ concat (replicate (Z.to_nat amount) wheel)))) ∧
  (¬ on_wire x y →
   VncControl.scroll self direction amount sx sy s = (Raise StructError, s)).
Proof.
  intros x y wheel. unfold VncControl.scroll. fold x y.
  rewrite button_map_lookup. split.
  - intros Hw. erewrite bind_ok by (apply send_pointer_event_ok; [done | lia]).
    rewrite scroll_loop_spec by (done || apply scroll_button_range).
    cbn [incoming sent]. by rewrite <- !app_assoc.
  - intros Hw. erewrite bind_raise; [done|].
    apply send_pointer_event_raise. tauto.
Qed.

Lemma scroll_events_witness :
  VncControl.scroll display_2x1 "sideways" 2 None (Some 5%Z) (Socket [] [])
  = (Ok tt, Socket [] ([] ++ pointer_event 1 5 0
                          ++ concat (replicate 2 (pointer_event 1 5 16
                                                  ++ pointer_event 1 5 0)))).
Proof.
  apply (proj1 (scroll_events display_2x1 "sideways" 2 None (Some 5%Z) (Socket [] []))).
  unfold on_wire. cbn. lia.
Defined.

(** ** Typed text and key names *)

Lemma ord_range c : (ord c < 4294967296)%N.
Proof. unfold ord. pose proof (N_ascii_bounded c). lia. Qed.


Lemma type_text_spec text s :
  VncControl.type_text text s
  = (Ok tt, Socket (incoming s)
              (sent s ++ concat (key_stroke <$> String.list_ascii_of_string text))).
Proof.
  revert s. induction text as [|c text IH]; intros s.
  - cbn. unfold ret. rewrite app_nil_r. by destruct s.
  - cbn [VncControl.type_text String.list_ascii_of_string].
    erewrite bind_ok by (apply send_key_event_spec, ord_range).
    erewrite bind_ok by (apply send_key_event_spec, ord_range).
    rewrite IH. cbn [incoming sent]. rewrite fmap_cons. cbn [concat].
    unfold key_stroke at 2. by rewrite <- !app_assoc.
Qed.

Lemma list_ascii_of_string_app a b :
  String.list_ascii_of_string (a +:+ b) = String.list_ascii_of_string a ++ String.list_ascii_of_string b.
Proof. induction a as [|c a IH]; [done|]. simpl. by f_equal. Qed.

(** X14. [type_text] never fails: it writes a key-down and a key-up event
    with the code point of each character, in order, and typing a text in
    two pieces writes the same as typing it at once. *)
Theorem type_text_events (text more : string) (s : socket) :
  VncControl.type_text text s
  = (Ok tt, Socket (incoming s)
              (sent s ++ concat (key_stroke <$> String.list_ascii_of_string text))) ∧
  VncControl.type_text (text +:+ more) s
  = (VncControl.type_text text ;;; VncControl.type_text more) s.
Proof.
  split; [apply type_text_spec|].
  erewrite bind_ok by apply type_text_spec.
  rewrite !type_text_spec. cbn [incoming sent].
  by rewrite list_ascii_of_string_app, fmap_app, concat_app, <- app_assoc.
Qed.

Lemma KEYSYM_MAP_names name keysym :
  KEYSYM_MAP !! name = Some keysym →
  1 < String.length name ∧ lower name = name ∧
  strip <$> split "+" name = [name].
Proof.
  intros H. apply elem_of_list_to_map_2 in H.
  eapply (Forall_forall
            (λ p : string * N, 1 < String.length p.1 ∧ lower p.1 = p.1 ∧
                               strip <$> split "+" p.1 = [p.1])) in H; [exact H|].
  repeat (constructor; [split_and!; [cbn; lia | by vm_compute..]|]). constructor.
Qed.


Lemma key_combo_spec combo keys s :
  mapM resolve_key (strip <$> split "+" (lower combo)) = Some keys →
  VncControl.key_combo combo s
  = (Ok tt, Socket (incoming s)
              (sent s ++ concat ((λ k, key_event k true) <$> keys)
                      ++ concat ((λ k, key_event k false) <$> reverse keys))).
Proof.
  intros H. unfold VncControl.key_combo.
  assert (Forall (λ k, k < 4294967296)%N keys) as Hr.
  { apply mapM_Some_1 in H. apply Forall_forall. intros k Hk.
    apply list_elem_of_lookup in Hk as [i Hi].
    destruct (Forall2_lookup_r _ _ _ _ _ H Hi) as (part & _ & Hp).
    by eapply resolve_key_range. }
  erewrite bind_ok by (by apply resolve_parts_spec).
  erewrite bind_ok by (by apply send_keys_spec).
  rewrite send_keys_spec by (by apply Forall_reverse).
  cbn [incoming sent app]. by rewrite <- app_assoc.
Qed.

(** X15. Every name of the key table can be used as it is written there:
    [press_key] sends the key-down and the key-up event of its keysym, and
    [key_combo] with the name alone does the same (the names are lower-case
    and contain no blank and no ['+']). *)
Theorem keysym_names_usable (name : string) (keysym : N) (s : socket) :
  KEYSYM_MAP !! name = Some keysym →
  VncControl.press_key name s
  = (Ok tt, Socket (incoming s)
              (sent s ++ key_event keysym true ++ key_event keysym false)) ∧
  VncControl.key_combo name s = VncControl.press_key name s.
Proof.
  intros H. destruct (KEYSYM_MAP_names name keysym H) as (_ & Hl & Hs).
  pose proof (KEYSYM_MAP_range name keysym H) as Hr.
  assert (VncControl.press_key name s
          = (Ok tt, Socket (incoming s)
                      (sent s ++ key_event keysym true ++ key_event keysym false)))
    as Hpress.
  { unfold VncControl.press_key. rewrite Hl, H.
    erewrite bind_ok by reflexivity.
    erewrite bind_ok by (by apply send_key_event_spec).
    rewrite send_key_event_spec by done. cbn [incoming sent].
    by rewrite <- app_assoc. }
  split; [done|]. rewrite Hpress.
  rewrite (key_combo_spec name [keysym]).
  - change (reverse [keysym]) with [keysym].
    cbn [fmap list_fmap concat]. by rewrite !app_nil_r.
  - rewrite Hl, Hs. cbn. unfold resolve_key. by rewrite H.
Qed.

Lemma keysym_names_usable_witness :
  VncControl.key_combo "pagedown" (Socket [] [])
  = VncControl.press_key "pagedown" (Socket [] []).
Proof.
  apply (proj2 (keysym_names_usable "pagedown" 0xff56%N (Socket [] []) eq_refl)).
Defined.



Lemma isspace_plus : isspace "+" = false.
Proof. by vm_compute. Qed.



(** ** A session: handshake, then capture *)

Lemma bind_inv_ok {A B} (m : M A) (k : A → M B) s b s' :
  bind m k s = (Ok b, s') → ∃ a s1, m s = (Ok a, s1) ∧ k a s1 = (Ok b, s').
Proof.
  unfold bind. destruct (m s) as [[a|e] s1]; [|done]. intros H. by exists a, s1.
Qed.

Lemma unpack_HH_range b wh :
  unpack_HH b = Ok wh → wh.1 < 256 * 256 ∧ wh.2 < 256 * 256.
Proof.
  destruct b as [|b0 [|b1 [|b2 [|b3 [|]]]]]; try done. intros [= <-].
  unfold from_bytes_big. cbn [foldl fst snd].
  pose proof (Byte.to_nat_bounded b0). pose proof (Byte.to_nat_bounded b1).
  pose proof (Byte.to_nat_bounded b2). pose proof (Byte.to_nat_bounded b3).
  lia.
Qed.

Ltac inv_bind H :=
  let a := fresh "a" in
  let s1 := fresh "s" in
  apply bind_inv_ok in H as (a & s1 & _ & H).

Lemma connect_dimensions des_block password s self s1 :
  VncControl.connect des_block password s = (Ok self, s1) →
  VncControl.width self < 256 * 256 ∧ VncControl.height self < 256 * 256.
Proof.
  unfold VncControl.connect. intros H.
  do 4 inv_bind H. case_decide.
  - do 3 inv_bind H. done.
  - do 4 inv_bind H.
    apply bind_inv_ok in H as (wh & swh & Hwh & H).
    do 2 inv_bind H. unfold ret in H. injection H as <- _.
    unfold lift in Hwh. injection Hwh as Hwh _.
    exact (unpack_HH_range _ _ Hwh).
Qed.

Lemma handshake_dimensions des_block password s width height name s1 :
  VncScreenshot.handshake des_block password s = (Ok (width, height, name), s1) →
  width < 256 * 256 ∧ height < 256 * 256.
Proof.
  unfold VncScreenshot.handshake. intros H.
  do 4 inv_bind H. case_decide.
  - do 3 inv_bind H. done.
  - do 4 inv_bind H.
    apply bind_inv_ok in H as (wh & swh & Hwh & H).
    do 5 inv_bind H. unfold ret in H. injection H as <- <- _ _.
    unfold lift in Hwh. injection Hwh as Hwh _.
    exact (unpack_HH_range _ _ Hwh).
Qed.

(** X17. The width and the height a completed handshake returns are
    16-bit numbers, so the update request of the capture that follows can
    always be packed. *)
Theorem announced_size_fits_request (des_block : bytes → bytes → bytes)
    (password : string) (s s1 : socket) (width height : nat) (name : text) :
  VncScreenshot.handshake des_block password s = (Ok (width, height, name), s1) ∨
  VncControl.connect des_block password s
  = (Ok {| VncControl.width := width; VncControl.height := height;
           VncControl.name := name |}, s1) →
  width < 256 * 256 ∧ height < 256 * 256 ∧
  pack_update_request width height
  = Ok ([x03; x00; x00; x00; x00; x00] ++ to_bytes_H width ++ to_bytes_H height).
Proof.
  intros H.
  assert (width < 256 * 256 ∧ height < 256 * 256) as [Hw Hh].
  { destruct H as [H|H].
    - by eapply handshake_dimensions.
    - by apply connect_dimensions in H. }
  split_and!; [done..|].
  unfold pack_update_request. by rewrite !decide_True by done.
Qed.

Lemma announced_size_fits_request_witness :
  3 < 256 * 256 ∧ 2 < 256 * 256 ∧
  pack_update_request 3 2
  = Ok ([x03; x00; x00; x00; x00; x00] ++ to_bytes_H 3 ++ to_bytes_H 2).
Proof.
  apply (announced_size_fits_request toy_des_block "secret"
    (Socket [RFB_VERSION; [x01; x01];
             encode_server_init 3 2 (replicate 16 x00) ["V"; "M"]%byte;
             ["V"; "M"]%byte] [])
    (Socket [] (RFB_VERSION ++ [x01; x01])) 3 2 (Utf8Replace ["V"; "M"]%byte)).
  left. reflexivity.
Defined.

(** X18. Handshake and capture together: when the handshake has completed
    and the stream goes on with one framebuffer update of fewer than 65536
    rectangles, each well-formed (the fields fit the header, a Raw rectangle
    carries [w * h * 4] bytes, any other one is its header alone), the
    standalone tool
    returns the announced size with the Raw rectangles before the first
    other one composited onto a zeroed buffer, and the control connection
    followed by its capture returns all the Raw rectangles of the update
    composited and leaves the rest of the stream unread; both have written
    the three requests after the handshake. *)
Theorem session_captures_update (des_block : bytes → bytes → bytes)
    (password : string) (s s1 : socket) (width height : nat) (name : text)
    (rects : list rect) (rest : bytes) :
  length rects < 256 * 256 → Forall wf_rect rects →
  pending s1 = encode_update rects ++ rest →
  let blank := bytearray (width * height * 4) in
  (VncScreenshot.handshake des_block password s = (Ok (width, height, name), s1) →
   ∃ s', VncScreenshot.capture_vnc_screenshot des_block password s
         = (Ok (width, height, composite width (raw_prefix rects) blank), s') ∧
         sent s' = sent s1 ++ capture_requests width height) ∧
  (VncControl.connect des_block password s
   = (Ok {| VncControl.width := width; VncControl.height := height;
            VncControl.name := name |}, s1) →
   ∃ s', (self <- VncControl.connect des_block password ;;
          VncControl.capture_screenshot self) s
         = (Ok (composite width (filter is_raw rects) blank), s') ∧
         pending s' = rest ∧
         sent s' = sent s1 ++ capture_requests width height).
Proof.
  intros Hn Hwf Hp blank. split; intros H.
  - destruct (handshake_dimensions _ _ _ _ _ _ _ H) as [Hw Hh].
    destruct (screenshot_capture_update width height rects s1 rest Hw Hh Hn Hwf Hp)
      as (s' & E & _ & S).
    exists s'. split; [|done].
    unfold VncScreenshot.capture_vnc_screenshot.
    rewrite (bind_ok _ _ _ _ _ H). cbn [fst snd].
    by rewrite (bind_ok _ _ _ _ _ E).
  - destruct (connect_dimensions _ _ _ _ _ H) as [Hw Hh].
    destruct (control_capture_update _ rects s1 rest Hw Hh Hn Hwf Hp)
      as (s' & E & P & S).
    exists s'. by rewrite (bind_ok _ _ _ _ _ H).
Qed.

Lemma session_captures_update_witness :
  ∃ s', VncScreenshot.capture_vnc_screenshot toy_des_block "secret"
          (Socket [RFB_VERSION; [x01; x01];
                   encode_server_init 2 1 (replicate 16 x00) ["V"; "M"]%byte;
                   ["V"; "M"]%byte; encode_update two_pixels] [])
        = (Ok (2, 1, composite 2 (raw_prefix two_pixels) (bytearray (2 * 1 * 4))), s') ∧
        sent s' = sent (Socket [encode_update two_pixels] (RFB_VERSION ++ [x01; x01]))
                  ++ capture_requests 2 1.
Proof.
  refine (proj1 (session_captures_update toy_des_block "secret"
    (Socket [RFB_VERSION; [x01; x01];
             encode_server_init 2 1 (replicate 16 x00) ["V"; "M"]%byte;
             ["V"; "M"]%byte; encode_update two_pixels] [])
    (Socket [encode_update two_pixels] (RFB_VERSION ++ [x01; x01]))
    2 1 (Utf8Replace ["V"; "M"]%byte) two_pixels [] _ _ _) _).
  - unfold two_pixels. cbn [length]. lia.
  - unfold two_pixels, wf_rect.
    repeat apply Forall_cons_2; [| |apply Forall_nil_2];
      cbn [hdr payload rx ry rw rh encoding length];
      (split_and!; [lia..|reflexivity|done]).
  - reflexivity.
  - reflexivity.
Defined.
